(** * F1RaceTelemetry: ingestion pipeline

    A shallow embedding of the ingestion code (models.py, database.py,
    data_ingestion.py, main.py, config.py) and the properties of its
    specification.

    Conventions.
    - A Python [dict] with string keys is a [gmap string value]; a JSON
      payload is a list of such objects.
    - Python strings are Rocq strings; slicing and [in] work on the
      characters of the string, which for ASCII text are its bytes.
    - A Python call that may raise returns a [result]: [Ok v] or
      [Raise e]; [try]/[except] is a match on it.
    - Asynchronous calls are awaited one after the other in the source, so
      the embedding is sequential state passing. *)

From Stdlib Require Import ZArith NArith String Ascii List Lia Bool.
From stdpp Require Import gmap strings list fin_maps pretty.

Open Scope string_scope.
Open Scope Z_scope.

(* ===================================================================== *)
(** * Python values                                                       *)
(* ===================================================================== *)

(** A Python [float], described by the decimal it was read from, or by the
    integer it was converted from: [FDec neg m e] stands for
    [(-1)^neg * m * 10^e] rounded to a binary64 number (to an infinity when
    it is out of range). Two descriptions may stand for the same float. *)
Inductive pyfloat : Type :=
  | FNan
  | FInf (neg : bool)
  | FDec (neg : bool) (m : N) (e : Z).

(** A [datetime.datetime] object. *)
Record datetime : Type := mk_datetime {
  dt_year : Z; dt_month : Z; dt_day : Z;
  dt_hour : Z; dt_minute : Z; dt_second : Z; dt_microsecond : Z;
  dt_utcoffset : option Z
}.

#[warnings="-register-all"]
Inductive value : Type :=
  | VNone
  | VBool (b : bool)
  | VInt (z : Z)
  | VFloat (f : pyfloat)
  | VStr (s : string)
  | VDatetime (d : datetime)
  | VList (l : list value)
  | VDict (d : list (string * value)).

(** A JSON object of the upstream API, and a document of the store. *)
Abbreviation item := (gmap string value).
Abbreviation document := (gmap string value).

(** Python exceptions: the class name, [str(e)], and the [details]
    attribute that pymongo's bulk write errors carry. *)
Inductive details_attr : Type :=
  | NoDetailsAttr                       (* the object has no attribute [details] *)
  | DetailsNone                         (* [details] is [None] *)
  | DetailsDict (d : gmap string Z).    (* [details] is a dict of counters *)

Record exn : Type := mk_exn {
  exn_class : string;
  exn_msg : string;
  exn_details : details_attr
}.

Definition py_exn (cls msg : string) : exn := mk_exn cls msg NoDetailsAttr.

Inductive result (A : Type) : Type :=
  | Ok (a : A)
  | Raise (e : exn).
Arguments Ok {A} a.
Arguments Raise {A} e.

Definition bind {A B} (r : result A) (k : A -> result B) : result B :=
  match r with
  | Ok a => k a
  | Raise e => Raise e
  end.

Notation "'let*' x ':=' r 'in' k" := (bind r (fun x => k))
  (at level 10, x name, r at level 100, k at level 200).

Definition is_ok {A} (r : result A) : bool :=
  match r with Ok _ => true | Raise _ => false end.

(** Truth value of a Python object ([if x:], [not x]). *)
Definition float_is_zero (f : pyfloat) : bool :=
  match f with
  | FDec _ m _ => N.eqb m 0
  | _ => false
  end.

Definition truthy (v : value) : bool :=
  match v with
  | VNone => false
  | VBool b => b
  | VInt z => negb (Z.eqb z 0)
  | VFloat f => negb (float_is_zero f)
  | VStr s => negb (String.eqb s "")
  | VDatetime _ => true
  | VList l => match l with [] => false | _ => true end
  | VDict d => match d with [] => false | _ => true end
  end.

(* ===================================================================== *)
(** * Strings                                                             *)
(* ===================================================================== *)

(** [s[:n]] *)
Definition str_take (n : nat) (s : string) : string := String.substring 0 n s.

(** [needle in s] *)
Fixpoint str_contains (needle s : string) : bool :=
  if String.prefix needle s then true
  else match s with
       | EmptyString => false
       | String _ s' => str_contains needle s'
       end.

(** [s.replace(old, new)] for a one-character [old]. *)
Fixpoint str_replace_char (old : ascii) (new : string) (s : string) : string :=
  match s with
  | EmptyString => EmptyString
  | String c s' =>
      if Ascii.eqb c old then new ++ str_replace_char old new s'
      else String c (str_replace_char old new s')
  end.

(** [f"{n:,}"]: decimal digits in groups of three. *)
Fixpoint group_thousands (digits_rev : list ascii) : list ascii :=
  match digits_rev with
  | a :: b :: c :: ((_ :: _) as rest) => a :: b :: c :: ","%char :: group_thousands rest
  | l => l
  end.

Definition fmt_thousands (n : Z) : string :=
  let body := string_of_list_ascii
                (rev (group_thousands (rev (list_ascii_of_string (pretty (Z.abs n)))))) in
  if n <? 0 then "-" ++ body else body.

(* ===================================================================== *)
(** * models.py                                                           *)
(* ===================================================================== *)

(** ** The builtin [float] on strings

    [float(s)] strips surrounding whitespace and reads
    [[sign] (floatnumber | "inf" | "infinity" | "nan")], where a digit part
    is [digit (["_"] digit)*], a number is [[digitpart] "." digitpart] or
    [digitpart ["."]], and an exponent is [("e"|"E") [sign] digitpart].
    Any other text raises [ValueError].

    A character of the string is a code point below 256. The whitespace
    that [float] strips is the ASCII whitespace of C (tab, line feed,
    vertical tab, form feed, carriage return, space) and the Unicode
    whitespace beyond ASCII, which below 256 is U+0085 and U+00A0. The
    separators U+001C to U+001F, which [str.isspace] accepts, are not
    stripped: [float] leaves an ASCII string as it is. *)

Definition is_space (c : ascii) : bool :=
  let n := nat_of_ascii c in
  ((9 <=? n)%nat && (n <=? 13)%nat) || (n =? 32)%nat
  || (n =? 133)%nat || (n =? 160)%nat.

Definition digit_of (c : ascii) : option N :=
  let n := N_of_ascii c in
  if ((48 <=? n) && (n <=? 57))%N then Some (n - 48)%N else None.

Definition lower (c : ascii) : ascii :=
  let n := nat_of_ascii c in
  if ((65 <=? n) && (n <=? 90))%nat then ascii_of_nat (n + 32) else c.

Fixpoint lstrip (l : list ascii) : list ascii :=
  match l with
  | c :: l' => if is_space c then lstrip l' else l
  | [] => []
  end.

Definition strip (l : list ascii) : list ascii := rev (lstrip (rev (lstrip l))).

(** The digits that continue a digit part: [acc] is the number read so far
    and [cnt] the count of its digits. *)
Fixpoint more_digits (acc : N) (cnt : nat) (l : list ascii) : N * nat * list ascii :=
  match l with
  | c :: l' =>
      match digit_of c with
      | Some d => more_digits (acc * 10 + d)%N (S cnt) l'
      | None =>
          if Ascii.eqb c "_" then
            match l' with
            | c' :: l'' =>
                match digit_of c' with
                | Some d => more_digits (acc * 10 + d)%N (S cnt) l''
                | None => (acc, cnt, l)
                end
            | [] => (acc, cnt, l)
            end
          else (acc, cnt, l)
      end
  | [] => (acc, cnt, l)
  end.

(** A digit part that extends the number [acc]; [None] when [l] does not
    start with a digit. *)
Definition digitpart (acc : N) (l : list ascii) : option (N * nat * list ascii) :=
  match l with
  | c :: l' =>
      match digit_of c with
      | Some d => Some (more_digits (acc * 10 + d)%N 1 l')
      | None => None
      end
  | [] => None
  end.

Definition read_sign (l : list ascii) : bool * list ascii :=
  match l with
  | c :: l' =>
      if Ascii.eqb c "-" then (true, l')
      else if Ascii.eqb c "+" then (false, l')
      else (false, l)
  | [] => (false, l)
  end.

(** [number]: the mantissa, the count of fraction digits, the rest. *)
Definition read_number (l : list ascii) : option (N * nat * list ascii) :=
  match digitpart 0 l with
  | Some (m, _, rest) =>
      match rest with
      | c :: rest' =>
          if Ascii.eqb c "." then
            match digitpart m rest' with
            | Some (m', k, rest'') => Some (m', k, rest'')
            | None => Some (m, 0%nat, rest')
            end
          else Some (m, 0%nat, rest)
      | [] => Some (m, 0%nat, rest)
      end
  | None =>
      match l with
      | c :: rest' =>
          if Ascii.eqb c "." then digitpart 0 rest' else None
      | [] => None
      end
  end.

(** [[exponent]] followed by the end of the text. *)
Definition read_exponent (l : list ascii) : option Z :=
  match l with
  | [] => Some 0
  | c :: l' =>
      if Ascii.eqb (lower c) "e" then
        let '(neg, l'') := read_sign l' in
        match digitpart 0 l'' with
        | Some (x, _, []) => Some (if neg then - Z.of_N x else Z.of_N x)
        | _ => None
        end
      else None
  end.

Definition float_of_string (s : string) : option pyfloat :=
  let '(neg, body) := read_sign (strip (list_ascii_of_string s)) in
  let word := string_of_list_ascii (map lower body) in
  if String.eqb word "inf" || String.eqb word "infinity" then Some (FInf neg)
  else if String.eqb word "nan" then Some FNan
  else
    match read_number body with
    | Some (m, k, rest) =>
        match read_exponent rest with
        | Some x => Some (FDec neg m (x - Z.of_nat k))
        | None => None
        end
    | None => None
    end.

(** ** The builtin [float] on other objects

    An [int] converts unless it is too large for a binary64 number
    ([OverflowError]); a [bool] is an [int]; a float is itself; any other
    object raises [TypeError]. *)
Definition float_overflow_bound : Z := 2 ^ 1024 - 2 ^ 970.

Definition float_of_int (z : Z) : result pyfloat :=
  if Z.abs z <? float_overflow_bound then Ok (FDec (z <? 0) (Z.abs_N z) 0)
  else Raise (py_exn "OverflowError" "int too large to convert to float").

Definition py_float (v : value) : result pyfloat :=
  match v with
  | VStr s =>
      match float_of_string s with
      | Some f => Ok f
      | None => Raise (py_exn "ValueError" ("could not convert string to float: " ++ s))
      end
  | VInt z => float_of_int z
  | VBool b => Ok (FDec false (if b then 1 else 0)%N 0)
  | VFloat f => Ok f
  | _ => Raise (py_exn "TypeError"
                  "float() argument must be a string or a real number")
  end.

Definition is_ValueError_or_TypeError (e : exn) : bool :=
  String.eqb (exn_class e) "ValueError" || String.eqb (exn_class e) "TypeError".

(** ** [Interval.parse_gap_values] *)
Definition parse_gap_values (v : value) : result value :=
  match v with
  | VNone => Ok VNone
  | VStr _ =>
      match py_float v with
      | Ok f => Ok (VFloat f)
      | Raise e => if is_ValueError_or_TypeError e then Ok v else Raise e
      end
  | _ =>
      match py_float v with
      | Ok f => Ok (VFloat f)
      | Raise e => if is_ValueError_or_TypeError e then Ok v else Raise e
      end
  end.

(** The declared type of the two fields, [Optional[Union[float, str]]],
    checked on what the [mode='before'] validator returns: [None], a float
    and a string are taken as they are, a number becomes a float, and any
    other object is a validation error. *)
Definition check_optional_float_or_str (field : string) (v : value) : result value :=
  match v with
  | VNone => Ok VNone
  | VFloat f => Ok (VFloat f)
  | VStr s => Ok (VStr s)
  | VInt z => let* f := float_of_int z in Ok (VFloat f)
  | VBool b => Ok (VFloat (FDec false (if b then 1 else 0)%N 0))
  | _ => Raise (py_exn "ValidationError" ("1 validation error for Interval: " ++ field))
  end.

(** Validation of one of the fields [gap_to_leader], [interval]. *)
Definition validate_gap_field (field : string) (v : value) : result value :=
  let* r := parse_gap_values v in check_optional_float_or_str field r.

(* ===================================================================== *)
(** * config.py                                                           *)
(* ===================================================================== *)

Module config.
Definition OPENF1_BASE_URL : string := "https://api.openf1.org/v1".
Definition BATCH_SIZE : Z := 5000.
Definition MAX_CONCURRENT_REQUESTS : Z := 5.
End config.

(* ===================================================================== *)
(** * Logging (loguru)                                                    *)
(* ===================================================================== *)

Inductive level : Type := DEBUG | INFO | SUCCESS | WARNING | ERROR.

Definition log_entry : Type := level * string.

Definition level_eqb (a b : level) : bool :=
  match a, b with
  | DEBUG, DEBUG | INFO, INFO | SUCCESS, SUCCESS
  | WARNING, WARNING | ERROR, ERROR => true
  | _, _ => false
  end.

(* ===================================================================== *)
(** * database.py                                                         *)
(* ===================================================================== *)

(** [pymongo.UpdateOne(filter, {"$set": doc}, upsert=...)] *)
Record UpdateOne : Type := mk_UpdateOne {
  uo_filter : document;
  uo_set : document;
  uo_upsert : bool
}.

(** [pymongo.results.InsertManyResult] and [BulkWriteResult] *)
Record InsertManyResult : Type := mk_InsertManyResult {
  inserted_ids : list N
}.

Record BulkWriteResult : Type := mk_BulkWriteResult {
  upserted_count : Z;
  modified_count : Z;
  matched_count : Z
}.

(** The document store behind [self.db]: its state [S] and the two bulk
    operations of a collection that [bulk_insert] awaits, both with
    [ordered=False]. Each takes the name of the collection. *)
Class Storage (S : Type) : Type := {
  insert_many : string -> list document -> S -> S * result InsertManyResult;
  bulk_write : string -> list UpdateOne -> S -> S * result BulkWriteResult
}.

(** The state that the ingestion run threads through its calls:
    [self.db] of [F1Database] ([None] until [connect] has run) and the
    messages handed to the logger, oldest first. *)
Record world (S : Type) : Type := mk_world {
  db : option S;
  log : list log_entry
}.
Arguments mk_world {S} db log.
Arguments db {S} w.
Arguments log {S} w.

Definition logger {S} (lv : level) (msg : string) (w : world S) : world S :=
  mk_world (db w) (log w ++ [(lv, msg)])%list.

Definition set_db {S} (s : S) (w : world S) : world S :=
  mk_world (Some s) (log w).

(** [error_msg[:200] + "... (truncated)"] when the message is longer than
    200 characters. *)
Definition summarize_error (error_msg : string) : string :=
  if (200 <? String.length error_msg)%nat
  then str_take 200 error_msg ++ "... (truncated)"
  else error_msg.

(** The loop that builds [operations]; [doc[upsert_key]] raises [KeyError]
    on a document without the key. *)
Fixpoint build_operations (upsert_key : string) (documents : list document)
  : result (list UpdateOne) :=
  match documents with
  | [] => Ok []
  | doc :: rest =>
      match doc !! upsert_key with
      | None => Raise (py_exn "KeyError" ("'" ++ upsert_key ++ "'"))
      | Some v =>
          let filter_query : document := {[ upsert_key := v ]} in
          let* operations := build_operations upsert_key rest in
          Ok (mk_UpdateOne filter_query doc true :: operations)
      end
  end.

(** [if upsert_key:] is false for [None] and for the empty string. *)
Definition upsert_mode (upsert_key : option string) : option string :=
  match upsert_key with
  | Some k => if String.eqb k "" then None else Some k
  | None => None
  end.

Section F1Database.
Context {S : Type} `{Storage S}.

(** The handler of the inner [try] around [insert_many]. *)
Definition on_bulk_error (collection_name : string) (documents : list document)
    (bulk_error : exn) (w : world S) : world S * result Z :=
  if str_contains "duplicate key error" (exn_msg bulk_error) then
    match exn_details bulk_error with
    | DetailsNone =>
        (w, Raise (py_exn "AttributeError"
                     "'NoneType' object has no attribute 'get'"))
    | NoDetailsAttr | DetailsDict _ =>
        let error_details : gmap string Z :=
          match exn_details bulk_error with
          | DetailsDict d => d
          | _ => ∅
          end in
        let inserted_count := default 0 (error_details !! "nInserted") in
        let duplicates := Z.of_nat (length documents) - inserted_count in
        let w :=
          if 0 <? duplicates
          then logger DEBUG ("Skipped " ++ pretty duplicates ++ " duplicates in "
                               ++ collection_name) w
          else w in
        (w, Ok inserted_count)
    end
  else (w, Raise bulk_error).

(** The body of the outer [try] of [bulk_insert]. *)
Definition bulk_insert_try (collection_name : string) (documents : list document)
    (upsert_key : option string) (w : world S) : world S * result Z :=
  match db w with
  | None => (w, Raise (py_exn "TypeError" "'NoneType' object is not subscriptable"))
  | Some s =>
      let '(w, r) :=
        match upsert_mode upsert_key with
        | Some k =>
            match build_operations k documents with
            | Raise e => (w, Raise e)
            | Ok operations =>
                let '(s', r) := bulk_write collection_name operations s in
                let w := set_db s' w in
                match r with
                | Raise e => (w, Raise e)
                | Ok res => (w, Ok (upserted_count res + modified_count res))
                end
            end
        | None =>
            let '(s', r) := insert_many collection_name documents s in
            let w := set_db s' w in
            match r with
            | Ok res => (w, Ok (Z.of_nat (length (inserted_ids res))))
            | Raise bulk_error => on_bulk_error collection_name documents bulk_error w
            end
        end in
      match r with
      | Raise e => (w, Raise e)
      | Ok inserted_count =>
          (logger INFO ("Inserted/Updated " ++ pretty inserted_count
                          ++ " documents in " ++ collection_name) w,
           Ok inserted_count)
      end
  end.

(** [F1Database.bulk_insert] *)
Definition bulk_insert (collection_name : string) (documents : list document)
    (upsert_key : option string) (w : world S) : world S * result Z :=
  match documents with
  | [] => (w, Ok 0)
  | _ :: _ =>
      match bulk_insert_try collection_name documents upsert_key w with
      | (w, Ok inserted_count) => (w, Ok inserted_count)
      | (w, Raise e) =>
          let error_msg := summarize_error (exn_msg e) in
          (logger ERROR ("Error bulk inserting to " ++ collection_name ++ ": "
                           ++ error_msg) w,
           Ok 0)
      end
  end.

End F1Database.

(* ===================================================================== *)
(** * Equality of values ([==] on JSON data)                              *)
(* ===================================================================== *)

Definition pyfloat_eqb (a b : pyfloat) : bool :=
  match a, b with
  | FNan, FNan => true
  | FInf n1, FInf n2 => Bool.eqb n1 n2
  | FDec n1 m1 e1, FDec n2 m2 e2 => Bool.eqb n1 n2 && N.eqb m1 m2 && Z.eqb e1 e2
  | _, _ => false
  end.

Definition option_Z_eqb (a b : option Z) : bool :=
  match a, b with
  | Some x, Some y => Z.eqb x y
  | None, None => true
  | _, _ => false
  end.

Definition datetime_eqb (a b : datetime) : bool :=
  Z.eqb (dt_year a) (dt_year b) && Z.eqb (dt_month a) (dt_month b)
  && Z.eqb (dt_day a) (dt_day b) && Z.eqb (dt_hour a) (dt_hour b)
  && Z.eqb (dt_minute a) (dt_minute b) && Z.eqb (dt_second a) (dt_second b)
  && Z.eqb (dt_microsecond a) (dt_microsecond b)
  && option_Z_eqb (dt_utcoffset a) (dt_utcoffset b).

Fixpoint value_eqb (a b : value) : bool :=
  match a, b with
  | VNone, VNone => true
  | VBool x, VBool y => Bool.eqb x y
  | VInt x, VInt y => Z.eqb x y
  | VFloat x, VFloat y => pyfloat_eqb x y
  | VStr x, VStr y => String.eqb x y
  | VDatetime x, VDatetime y => datetime_eqb x y
  | VList l1, VList l2 =>
      (fix go (l1 l2 : list value) : bool :=
         match l1, l2 with
         | [], [] => true
         | x :: l1', y :: l2' => value_eqb x y && go l1' l2'
         | _, _ => false
         end) l1 l2
  | VDict d1, VDict d2 =>
      (fix go (d1 d2 : list (string * value)) : bool :=
         match d1, d2 with
         | [], [] => true
         | (k1, x) :: d1', (k2, y) :: d2' =>
             String.eqb k1 k2 && value_eqb x y && go d1' d2'
         | _, _ => false
         end) d1 d2
  | _, _ => false
  end.

Section value_induction.
Variable P : value -> Prop.
Hypothesis HNone : P VNone.
Hypothesis HBool : forall b, P (VBool b).
Hypothesis HInt : forall z, P (VInt z).
Hypothesis HFloat : forall f, P (VFloat f).
Hypothesis HStr : forall s, P (VStr s).
Hypothesis HDatetime : forall d, P (VDatetime d).
Hypothesis HList : forall l, Forall P l -> P (VList l).
Hypothesis HDict : forall d, Forall (fun kv => P (snd kv)) d -> P (VDict d).

Fixpoint value_nested_ind (v : value) : P v :=
  match v with
  | VNone => HNone
  | VBool b => HBool b
  | VInt z => HInt z
  | VFloat f => HFloat f
  | VStr s => HStr s
  | VDatetime d => HDatetime d
  | VList l =>
      HList l
        ((fix go (l : list value) : Forall P l :=
            match l with
            | [] => @List.Forall_nil _ P
            | x :: l' => @List.Forall_cons _ P x l' (value_nested_ind x) (go l')
            end) l)
  | VDict d =>
      HDict d
        ((fix go (d : list (string * value)) : Forall (fun kv => P (snd kv)) d :=
            match d with
            | [] => @List.Forall_nil _ _
            | kv :: d' =>
                @List.Forall_cons _ (fun kv => P (snd kv)) kv d'
                  (value_nested_ind (snd kv)) (go d')
            end) d)
  end.
End value_induction.

Lemma pyfloat_eqb_eq a b : pyfloat_eqb a b = true <-> a = b.
Proof.
  destruct a, b; simpl; try (split; [discriminate | congruence]); try tauto.
  - rewrite Bool.eqb_true_iff. split; congruence.
  - rewrite !andb_true_iff, Bool.eqb_true_iff, N.eqb_eq, Z.eqb_eq.
    split; [intros [[-> ->] ->]; reflexivity | intros [= -> -> ->]; auto].
Qed.

Lemma option_Z_eqb_eq a b : option_Z_eqb a b = true <-> a = b.
Proof.
  destruct a, b; simpl; try (split; [discriminate | congruence]); try tauto.
  rewrite Z.eqb_eq. split; congruence.
Qed.

Lemma datetime_eqb_eq a b : datetime_eqb a b = true <-> a = b.
Proof.
  destruct a, b; unfold datetime_eqb; simpl.
  rewrite !andb_true_iff, !Z.eqb_eq, option_Z_eqb_eq.
  split.
  - intros [[[[[[[-> ->] ->] ->] ->] ->] ->] ->]; reflexivity.
  - intros [= -> -> -> -> -> -> -> ->]; repeat split.
Qed.

Lemma value_eqb_eq a : forall b, value_eqb a b = true <-> a = b.
Proof.
  induction a using value_nested_ind; intros other; destruct other; simpl;
    try (split; [discriminate | congruence]); try tauto.
  - rewrite Bool.eqb_true_iff. split; congruence.
  - rewrite Z.eqb_eq. split; congruence.
  - rewrite pyfloat_eqb_eq. split; congruence.
  - rewrite String.eqb_eq. split; congruence.
  - rewrite datetime_eqb_eq. split; congruence.
  - rename l0 into l2. revert l2.
    induction H as [|x l1 Hx Hl IH]; intros [|y l2];
      try (split; [discriminate | congruence]); try tauto.
    rewrite andb_true_iff, Hx, IH. split.
    + intros [-> [= ->]]; reflexivity.
    + intros [= -> ->]; auto.
  - rename d0 into d2. revert d2.
    induction H as [|[k1 x] d1 Hx Hl IH]; intros [|[k2 y] d2];
      try (split; [discriminate | congruence]); try tauto.
    simpl in Hx.
    rewrite !andb_true_iff, String.eqb_eq, Hx, IH. split.
    + intros [[-> ->] [= ->]]; reflexivity.
    + intros [= -> -> ->]; auto.
Qed.

#[global] Instance value_eq_dec : EqDecision value.
Proof.
  intros a b. destruct (value_eqb a b) eqn:E.
  - left. apply value_eqb_eq, E.
  - right. intros Heq. apply value_eqb_eq in Heq. congruence.
Defined.

(* ===================================================================== *)
(** * The document store                                                  *)
(* ===================================================================== *)

(** A model of the MongoDB collections that [bulk_insert] writes to,
    following the documented behaviour of unordered bulk writes: every
    operation of the batch is attempted, an operation that would store a
    second document with the same value of a unique index is refused with
    error E11000, and a batch with refused operations ends in a
    [BulkWriteError] whose [details] count what was written.

    The model knows one unique index per collection and stores a
    document as it is given. The store itself also indexes [_id]
    uniquely, and pymongo writes a generated [_id] into every document
    of an insert that has none, in the caller's dict. The model
    therefore describes calls whose documents are new objects: documents
    without [_id] under the declared unique index, or documents that
    carry their [_id] with [unique_key := Some "_id"]. A second insert
    of the same dicts, which the store refuses because they carry the
    [_id] of the first, is outside the model, and nothing below is
    stated about one. *)
Module Mongo.

Record collection : Type := mk_collection {
  docs : list document;            (* the stored documents, oldest first *)
  unique_key : option string       (* the field of a unique index, if any *)
}.

Abbreviation database := (gmap string collection).

Definition get_collection (name : string) (dbs : database) : collection :=
  default (mk_collection [] None) (dbs !! name).

(** The value a document has in an index on field [k]: a missing field
    counts as null. *)
Definition index_key (k : string) (d : document) : value :=
  default VNone (d !! k).

Definition collides (k : string) (d d' : document) : bool :=
  bool_decide (index_key k d' = index_key k d).

(** Would storing [d] break the unique index, given what is stored? *)
Definition violates_unique (u : option string) (stored : list document)
    (d : document) : bool :=
  match u with
  | Some k => existsb (collides k d) stored
  | None => false
  end.

(** The documents of an unordered insert, one after the other: the new
    content of the collection and the number of documents written. *)
Fixpoint insert_each (u : option string) (stored : list document)
    (documents : list document) : list document * nat :=
  match documents with
  | [] => (stored, 0%nat)
  | d :: rest =>
      if violates_unique u stored d then insert_each u stored rest
      else
        let '(stored', n) := insert_each u (stored ++ [d])%list rest in
        (stored', Datatypes.S n)
  end.

Definition bulk_write_error_msg (name : string) : string :=
  "batch op errors occurred, full error: {'writeErrors': [{'code': 11000, "
  ++ "'errmsg': 'E11000 duplicate key error collection: openf1." ++ name ++ "'}]}".

Definition BulkWriteError (name : string) (nInserted nUpserted nMatched nModified : Z)
  : exn :=
  mk_exn "BulkWriteError" (bulk_write_error_msg name)
    (DetailsDict (<["nInserted" := nInserted]>
                  (<["nUpserted" := nUpserted]>
                   (<["nMatched" := nMatched]>
                    (<["nModified" := nModified]> ∅))))).

(** [collection.insert_many(documents, ordered=False)] *)
Definition insert_many (name : string) (documents : list document)
    (dbs : database) : database * result InsertManyResult :=
  match documents with
  | [] => (dbs, Raise (py_exn "TypeError" "documents must be a non-empty list"))
  | _ :: _ =>
      let c := get_collection name dbs in
      let '(stored', n) := insert_each (unique_key c) (docs c) documents in
      let dbs' := <[name := mk_collection stored' (unique_key c)]> dbs in
      if (n =? length documents)%nat
      then (dbs', Ok (mk_InsertManyResult
                        (map N.of_nat (seq (length (docs c)) n))))
      else (dbs', Raise (BulkWriteError name (Z.of_nat n) 0 0 0))
  end.

(** A filter [{k: v, ...}] selects the documents that hold these values. *)
Definition matches (flt : document) (d : document) : Prop := flt ⊆ d.

#[global] Instance matches_dec flt d : Decision (matches flt d).
Proof. unfold matches. apply _. Defined.

Inductive write_outcome : Type :=
  | Upserted                      (* no match: a new document was stored *)
  | Matched (modified : bool)     (* the first match was updated *)
  | NoMatch                       (* no match and no upsert *)
  | WriteError.                   (* refused: duplicate key *)

(** One [UpdateOne(filter, {"$set": fields}, upsert)] on the content of a
    collection. *)
Definition update_one (u : option string) (op : UpdateOne)
    (stored : list document) : list document * write_outcome :=
  match list_find (matches (uo_filter op)) stored with
  | Some (i, d) =>
      let d' := uo_set op ∪ d in
      if violates_unique u (delete i stored) d' then (stored, WriteError)
      else (<[i := d']> stored, Matched (bool_decide (d' ≠ d)))
  | None =>
      if uo_upsert op then
        let d' := uo_set op ∪ uo_filter op in
        if violates_unique u stored d' then (stored, WriteError)
        else ((stored ++ [d'])%list, Upserted)
      else (stored, NoMatch)
  end.

Record tally : Type := mk_tally {
  n_upserted : Z; n_matched : Z; n_modified : Z; n_errors : Z
}.

Definition count_outcome (o : write_outcome) (t : tally) : tally :=
  match o with
  | Upserted => mk_tally (n_upserted t + 1) (n_matched t) (n_modified t) (n_errors t)
  | Matched m =>
      mk_tally (n_upserted t) (n_matched t + 1)
        (n_modified t + (if m then 1 else 0)) (n_errors t)
  | NoMatch => t
  | WriteError => mk_tally (n_upserted t) (n_matched t) (n_modified t) (n_errors t + 1)
  end.

Fixpoint update_each (u : option string) (ops : list UpdateOne)
    (stored : list document) (t : tally) : list document * tally :=
  match ops with
  | [] => (stored, t)
  | op :: rest =>
      let '(stored', o) := update_one u op stored in
      update_each u rest stored' (count_outcome o t)
  end.

(** [collection.bulk_write(operations, ordered=False)] *)
Definition bulk_write (name : string) (operations : list UpdateOne)
    (dbs : database) : database * result BulkWriteResult :=
  match operations with
  | [] => (dbs, Raise (py_exn "InvalidOperation" "No operations to execute"))
  | _ :: _ =>
      let c := get_collection name dbs in
      let '(stored', t) :=
        update_each (unique_key c) operations (docs c) (mk_tally 0 0 0 0) in
      let dbs' := <[name := mk_collection stored' (unique_key c)]> dbs in
      if n_errors t =? 0
      then (dbs', Ok (mk_BulkWriteResult (n_upserted t) (n_modified t) (n_matched t)))
      else (dbs', Raise (BulkWriteError name 0 (n_upserted t) (n_matched t)
                           (n_modified t)))
  end.

(** The unique index holds: no two stored documents share its value. *)
Definition unique_ok (c : collection) : Prop :=
  match unique_key c with
  | Some k => NoDup (map (index_key k) (docs c))
  | None => True
  end.

(** The number of stored documents with value [v] in field [k]. *)
Definition count_key (k : string) (v : value) (stored : list document) : nat :=
  length (List.filter (fun d => bool_decide (d !! k = Some v)) stored).

End Mongo.

#[global] Instance mongo_storage : Storage Mongo.database :=
  {| insert_many := Mongo.insert_many; bulk_write := Mongo.bulk_write |}.

(* ===================================================================== *)
(** * Collaborators of the ingestion code                                 *)
(* ===================================================================== *)

(** What [await response.json()] and [response.status] give for a request:
    the upstream API answers with a JSON array of flat objects. *)
Record response : Type := mk_response {
  status : Z;
  json : list item
}.

(** The libraries the ingestion code calls, as functions:
    - [http_get url]: [self.session.get(url)];
    - [fromisoformat]: [datetime.fromisoformat];
    - [str_other]: [str(v)] of a float, datetime, list or dict;
    - [gt_other a b]: [a > b] when [a] and [b] are not both strings;
    - [Session_model item]: [Session( **item ).model_dump()], which raises
      pydantic's [ValidationError] when the item does not fit the declared
      fields; likewise for the other models of models.py.
      [Interval_plain] is the model [Interval] without its two fields
      [gap_to_leader] and [interval], which [Interval_model] adds below. *)
Class Collaborators : Type := {
  http_get : string -> response;
  fromisoformat : string -> result datetime;
  str_other : value -> string;
  gt_other : value -> value -> result bool;
  Session_model : item -> result document;
  Driver_model : item -> result document;
  Lap_model : item -> result document;
  Position_model : item -> result document;
  Interval_plain : item -> result document;
  CarData_model : item -> result document
}.

Section Python.
Context `{Collaborators}.

(** [str(v)], as an f-string formats a value. *)
Definition py_str (v : value) : string :=
  match v with
  | VNone => "None"
  | VBool true => "True"
  | VBool false => "False"
  | VInt z => pretty z
  | VStr s => s
  | _ => str_other v
  end.

(** [a > b] *)
Definition py_gt (a b : value) : result bool :=
  match a, b with
  | VStr x, VStr y => Ok (String.ltb y x)
  | _, _ => gt_other a b
  end.

(** [d[k]] *)
Definition getitem (d : item) (k : string) : result value :=
  match d !! k with
  | Some v => Ok v
  | None => Raise (py_exn "KeyError" ("'" ++ k ++ "'"))
  end.

(** [d.get(k, 'unknown')] *)
Definition get_or_unknown (d : item) (k : string) : value :=
  default (VStr "unknown") (d !! k).

(** [Interval( **item ).model_dump()]: the plain fields, and the two gap
    fields through [parse_gap_values]; a field that is absent takes its
    default [None]. *)
Definition Interval_model (it : item) : result document :=
  let* base := Interval_plain it in
  let* gap := validate_gap_field "gap_to_leader" (default VNone (it !! "gap_to_leader")) in
  let* interval := validate_gap_field "interval" (default VNone (it !! "interval")) in
  Ok (<["gap_to_leader" := gap]> (<["interval" := interval]> base)).

(** The timestamp coercion at the head of every loop body:
[[
  if isinstance(item.get(field), str):
      item[field] = datetime.fromisoformat(item[field].replace('Z', '+00:00'))
]]
    The item is updated in place, so the result is the item as the rest
    of the code sees it. *)
Definition coerce_date (field : string) (it : item) : result item :=
  match it !! field with
  | Some (VStr s) =>
      let* d := fromisoformat (str_replace_char "Z" "+00:00" s) in
      Ok (<[field := VDatetime d]> it)
  | _ => Ok it
  end.

(** The item after the attempt, whether or not it raised. *)
Definition coerced (field : string) (it : item) : item :=
  match coerce_date field it with
  | Ok it' => it'
  | Raise _ => it
  end.

End Python.

(* ===================================================================== *)
(** * data_ingestion.py                                                   *)
(* ===================================================================== *)

Definition len {A} (l : list A) : Z := Z.of_nat (length l).

Section TestDataIngestion.
Context {S : Type} `{Storage S} `{Collaborators}.

Import config.

Definition could_not_fetch : exn :=
  py_exn "Exception" "Could not fetch latest session".

(** [max(sessions, key=lambda x: x['date_start'])] after its first
    element: a later element replaces the best one only when its key is
    greater. *)
Fixpoint max_by_date_start (best : item) (best_key : value) (rest : list item)
  : result item :=
  match rest with
  | [] => Ok best
  | x :: rest' =>
      let* k := getitem x "date_start" in
      let* greater := py_gt k best_key in
      if greater then max_by_date_start x k rest'
      else max_by_date_start best best_key rest'
  end.

(** [TestDataIngestion.fetch_latest_session] *)
Definition fetch_latest_session (w : world S) : world S * result item :=
  let url := OPENF1_BASE_URL ++ "/sessions?session_type=Race&year=2024" in
  let response := http_get url in
  if status response =? 200 then
    match json response with
    | [] => (w, Raise could_not_fetch)
    | first :: rest =>
        match (let* k := getitem first "date_start" in
               let* latest_session := max_by_date_start first k rest in
               let* name := getitem latest_session "session_name" in
               let* location := getitem latest_session "location" in
               Ok (latest_session, name, location)) with
        | Raise e => (w, Raise e)
        | Ok (latest_session, name, location) =>
            (logger INFO ("Found latest race: " ++ py_str name ++ " - "
                            ++ py_str location) w,
             Ok latest_session)
        end
    end
  else (w, Raise could_not_fetch).

(** The loop of [ingest_drivers]. *)
Fixpoint drivers_loop (data : list item) (drivers : list document) (w : world S)
  : world S * list document :=
  match data with
  | [] => (w, drivers)
  | it :: rest =>
      match Driver_model it with
      | Ok doc => drivers_loop rest (drivers ++ [doc])%list w
      | Raise e =>
          drivers_loop rest drivers
            (logger WARNING ("Error processing driver "
                               ++ py_str (get_or_unknown it "driver_number")
                               ++ ": " ++ exn_msg e) w)
      end
  end.

(** [TestDataIngestion.ingest_drivers] *)
Definition ingest_drivers (session_key : value) (w : world S) : world S * result Z :=
  let url := OPENF1_BASE_URL ++ "/drivers?session_key=" ++ py_str session_key in
  let response := http_get url in
  if status response =? 200 then
    let data := json response in
    let w := logger INFO ("  Fetched " ++ pretty (len data) ++ " drivers from API") w in
    let '(w, drivers) := drivers_loop data [] w in
    match bulk_insert "drivers" drivers None w with
    | (w, Raise e) => (w, Raise e)
    | (w, Ok count) =>
        (logger INFO (" Stored " ++ pretty count ++ " drivers in database") w, Ok count)
    end
  else (logger ERROR " Failed to fetch drivers data" w, Ok 0).

(** ** Laps *)

(** The [except] clause of the loop of [ingest_laps]. *)
Definition on_lap_error (it : item) (e : exn) (laps : list document) (w : world S)
  : world S :=
  if len laps <? 3 then
    logger WARNING ("Error processing lap data for driver "
                      ++ py_str (get_or_unknown it "driver_number") ++ ": "
                      ++ str_take 100 (exn_msg e) ++ "...") w
  else if len laps =? 3 then
    logger WARNING "More lap validation errors found... (suppressing further messages)" w
  else w.

(** One turn of the loop of [ingest_laps]: the state of the run, the
    pending chunk [laps], and the item as the turn leaves it. *)
Definition laps_body (it : item) (laps : list document) (w : world S)
  : world S * list document * item :=
  match coerce_date "date_start" it with
  | Raise e => (on_lap_error it e laps w, laps, it)
  | Ok it =>
      match Lap_model it with
      | Raise e => (on_lap_error it e laps w, laps, it)
      | Ok doc =>
          let laps := (laps ++ [doc])%list in
          if BATCH_SIZE <=? len laps then
            match bulk_insert "laps" laps None w with
            | (w, Raise e) => (on_lap_error it e laps w, laps, it)
            | (w, Ok _) =>
                (logger DEBUG ("  Processed batch of " ++ pretty BATCH_SIZE ++ " laps") w,
                 [], it)
            end
          else (w, laps, it)
      end
  end.

(** The loop of [ingest_laps]; [data'] is the fetched list with the
    items as the loop has left them. *)
Fixpoint laps_loop (data : list item) (laps : list document) (w : world S)
  : world S * list document * list item :=
  match data with
  | [] => (w, laps, [])
  | it :: rest =>
      let '(w, laps, it') := laps_body it laps w in
      let '(w, laps, data') := laps_loop rest laps w in
      (w, laps, it' :: data')
  end.

(** [TestDataIngestion._validate_lap_item] *)
Definition _validate_lap_item (it : item) : bool * item :=
  match coerce_date "date_start" it with
  | Raise _ => (false, it)
  | Ok it => (is_ok (Lap_model it), it)
  end.

(** [if laps: await self.db.bulk_insert("laps", laps)] *)
Definition flush_remaining (collection_name : string) (pending : list document)
    (w : world S) : world S * result unit :=
  match pending with
  | [] => (w, Ok tt)
  | _ :: _ =>
      match bulk_insert collection_name pending None w with
      | (w, Raise e) => (w, Raise e)
      | (w, Ok _) => (w, Ok tt)
      end
  end.

(** [TestDataIngestion.ingest_laps] *)
Definition ingest_laps (session_key : value) (w : world S) : world S * result Z :=
  let url := OPENF1_BASE_URL ++ "/laps?session_key=" ++ py_str session_key in
  let response := http_get url in
  if status response =? 200 then
    let data := json response in
    let '(w, laps, data) := laps_loop data [] w in
    (* Insert remaining laps *)
    match flush_remaining "laps" laps w with
    | (w, Raise e) => (w, Raise e)
    | (w, Ok _) =>
        (* Insert remaining laps *)
        match flush_remaining "laps" laps w with
        | (w, Raise e) => (w, Raise e)
        | (w, Ok _) =>
            let total_count := len data in
            let successful_count :=
              len (List.filter (fun it => fst (_validate_lap_item it)) data) in
            (logger INFO ("   Processed " ++ pretty successful_count ++ "/"
                            ++ pretty total_count ++ " laps successfully") w,
             Ok successful_count)
        end
    end
  else (logger ERROR "Failed to fetch laps data" w, Ok 0).

(** ** Positions *)

Definition positions_body (it : item) (positions : list document) (w : world S)
  : world S * list document :=
  let on_error (e : exn) (w : world S) : world S :=
    logger WARNING ("Error processing position data: " ++ exn_msg e) w in
  match coerce_date "date" it with
  | Raise e => (on_error e w, positions)
  | Ok it =>
      match Position_model it with
      | Raise e => (on_error e w, positions)
      | Ok doc =>
          let positions := (positions ++ [doc])%list in
          if BATCH_SIZE <=? len positions then
            match bulk_insert "positions" positions None w with
            | (w, Raise e) => (on_error e w, positions)
            | (w, Ok _) =>
                (logger DEBUG (" Processed batch of " ++ pretty BATCH_SIZE
                                 ++ " positions") w, [])
            end
          else (w, positions)
      end
  end.

Fixpoint positions_loop (data : list item) (positions : list document) (w : world S)
  : world S * list document :=
  match data with
  | [] => (w, positions)
  | it :: rest =>
      let '(w, positions) := positions_body it positions w in
      positions_loop rest positions w
  end.

(** [TestDataIngestion.ingest_positions] *)
Definition ingest_positions (session_key : value) (w : world S) : world S * result Z :=
  let url := OPENF1_BASE_URL ++ "/position?session_key=" ++ py_str session_key in
  let response := http_get url in
  if status response =? 200 then
    let data := json response in
    let '(w, positions) := positions_loop data [] w in
    match flush_remaining "positions" positions w with
    | (w, Raise e) => (w, Raise e)
    | (w, Ok _) =>
        let total_count := len data in
        (logger INFO ("Ingested " ++ pretty total_count ++ " position records") w,
         Ok total_count)
    end
  else (logger ERROR "Failed to fetch position data" w, Ok 0).

(** ** Intervals *)

Definition on_interval_error (it : item) (intervals : list document) (w : world S)
  : world S :=
  if len intervals <? 3 then
    let gap_value := get_or_unknown it "gap_to_leader" in
    let interval_value := get_or_unknown it "interval" in
    logger WARNING ("Error processing interval data for driver "
                      ++ py_str (get_or_unknown it "driver_number")
                      ++ ": gap='" ++ py_str gap_value
                      ++ "', interval='" ++ py_str interval_value ++ "'") w
  else if len intervals =? 3 then
    logger WARNING
      "More interval validation errors found... (suppressing further messages)" w
  else w.

(** One turn of the loop of [ingest_intervals]; [total] is [len(data)]. *)
Definition intervals_body (total : Z) (it : item) (intervals : list document)
    (progress_count : Z) (w : world S) : world S * list document * Z * item :=
  match coerce_date "date" it with
  | Raise e => (on_interval_error it intervals w, intervals, progress_count, it)
  | Ok it =>
      match Interval_model it with
      | Raise e => (on_interval_error it intervals w, intervals, progress_count, it)
      | Ok doc =>
          let intervals := (intervals ++ [doc])%list in
          if BATCH_SIZE <=? len intervals then
            match bulk_insert "intervals" intervals None w with
            | (w, Raise e) =>
                (on_interval_error it intervals w, intervals, progress_count, it)
            | (w, Ok _) =>
                let progress_count := progress_count + BATCH_SIZE in
                let w :=
                  if progress_count mod (BATCH_SIZE * 5) =? 0 then
                    logger INFO (" Progress: " ++ fmt_thousands progress_count ++ "/"
                                   ++ fmt_thousands total ++ " intervals processed") w
                  else w in
                (w, [], progress_count, it)
            end
          else (w, intervals, progress_count, it)
      end
  end.

Fixpoint intervals_loop (total : Z) (data : list item) (intervals : list document)
    (progress_count : Z) (w : world S) : world S * list document * list item :=
  match data with
  | [] => (w, intervals, [])
  | it :: rest =>
      let '(w, intervals, progress_count, it') :=
        intervals_body total it intervals progress_count w in
      let '(w, intervals, data') :=
        intervals_loop total rest intervals progress_count w in
      (w, intervals, it' :: data')
  end.

(** [TestDataIngestion._validate_interval_item] *)
Definition _validate_interval_item (it : item) : bool * item :=
  match coerce_date "date" it with
  | Raise _ => (false, it)
  | Ok it => (is_ok (Interval_model it), it)
  end.

(** [TestDataIngestion.ingest_intervals] *)
Definition ingest_intervals (session_key : value) (w : world S)
  : world S * result Z :=
  let url := OPENF1_BASE_URL ++ "/intervals?session_key=" ++ py_str session_key in
  let response := http_get url in
  if status response =? 200 then
    let data := json response in
    let w := logger INFO (" Fetched " ++ pretty (len data) ++ " intervals from API") w in
    let '(w, intervals, data) := intervals_loop (len data) data [] 0 w in
    match flush_remaining "intervals" intervals w with
    | (w, Raise e) => (w, Raise e)
    | (w, Ok _) =>
        match flush_remaining "intervals" intervals w with
        | (w, Raise e) => (w, Raise e)
        | (w, Ok _) =>
            let total_count := len data in
            let successful_count :=
              len (List.filter (fun it => fst (_validate_interval_item it)) data) in
            (logger INFO (" Processed " ++ pretty successful_count ++ "/"
                            ++ pretty total_count ++ " intervals successfully") w,
             Ok successful_count)
        end
    end
  else (logger ERROR "Failed to fetch intervals data" w, Ok 0).

(** ** Car telemetry *)

Definition on_car_data_error (it : item) (e : exn) (successful_count : Z)
    (w : world S) : world S :=
  if successful_count <? 3 then
    logger WARNING ("Error processing car data for driver "
                      ++ py_str (get_or_unknown it "driver_number") ++ ": "
                      ++ str_take 100 (exn_msg e) ++ "...") w
  else if successful_count =? 3 then
    logger WARNING
      "More car data validation errors found... (suppressing further messages)" w
  else w.

Definition car_data_body (it : item) (car_data_records : list document)
    (successful_count : Z) (w : world S) : world S * list document * Z :=
  match coerce_date "date" it with
  | Raise e => (on_car_data_error it e successful_count w, car_data_records,
                successful_count)
  | Ok it =>
      match CarData_model it with
      | Raise e => (on_car_data_error it e successful_count w, car_data_records,
                    successful_count)
      | Ok doc =>
          let car_data_records := (car_data_records ++ [doc])%list in
          let successful_count := successful_count + 1 in
          if BATCH_SIZE <=? len car_data_records then
            match bulk_insert "car_data" car_data_records None w with
            | (w, Raise e) =>
                (on_car_data_error it e successful_count w, car_data_records,
                 successful_count)
            | (w, Ok _) => (w, [], successful_count)
            end
          else (w, car_data_records, successful_count)
      end
  end.

Fixpoint car_data_loop (data : list item) (car_data_records : list document)
    (successful_count : Z) (w : world S) : world S * list document * Z :=
  match data with
  | [] => (w, car_data_records, successful_count)
  | it :: rest =>
      let '(w, car_data_records, successful_count) :=
        car_data_body it car_data_records successful_count w in
      car_data_loop rest car_data_records successful_count w
  end.

(** [TestDataIngestion._process_car_data_batch] *)
Definition _process_car_data_batch (data : list item) (w : world S)
  : world S * result Z :=
  let '(w, car_data_records, successful_count) := car_data_loop data [] 0 w in
  (* Insert remaining records *)
  match flush_remaining "car_data" car_data_records w with
  | (w, Raise e) => (w, Raise e)
  | (w, Ok _) => (w, Ok successful_count)
  end.

Definition speed_filters : list string :=
  [ "speed=0";
    "speed>=1&speed<150";
    "speed>=150&speed<350";
    "speed>=350" ].

Definition car_data_url (session_key driver_number : value) (speed_filter : string)
  : string :=
  OPENF1_BASE_URL ++ "/car_data?session_key=" ++ py_str session_key
    ++ "&driver_number=" ++ py_str driver_number ++ "&" ++ speed_filter.

(** The loop over [speed_filters] for one driver. *)
Fixpoint speed_filters_loop (session_key driver_number : value)
    (filters : list string) (total_car_data : Z) (w : world S)
  : world S * result Z :=
  match filters with
  | [] => (w, Ok total_car_data)
  | speed_filter :: rest =>
      let driver_response :=
        http_get (car_data_url session_key driver_number speed_filter) in
      if status driver_response =? 200 then
        let driver_data := json driver_response in
        match driver_data with
        | _ :: _ =>
            let w := logger DEBUG (" Got " ++ pretty (len driver_data)
                                     ++ " records for driver "
                                     ++ py_str driver_number) w in
            match _process_car_data_batch driver_data w with
            | (w, Raise e) => (w, Raise e)
            | (w, Ok processed_count) =>
                speed_filters_loop session_key driver_number rest
                  (total_car_data + processed_count) w
            end
        | [] =>
            speed_filters_loop session_key driver_number rest total_car_data
              (logger DEBUG (" No car data for driver " ++ py_str driver_number) w)
        end
      else
        speed_filters_loop session_key driver_number rest total_car_data
          (logger DEBUG ("  Failed to fetch car data for driver "
                           ++ py_str driver_number) w)
  end.

(** The loop [for i, driver in enumerate(drivers_data, 1)]. *)
Fixpoint car_drivers_loop (session_key : value) (n_drivers : Z) (i : Z)
    (drivers : list item) (total_car_data : Z) (w : world S)
  : world S * result Z :=
  match drivers with
  | [] => (w, Ok total_car_data)
  | driver :: rest =>
      let driver_number := default VNone (driver !! "driver_number") in
      if negb (truthy driver_number) then
        car_drivers_loop session_key n_drivers (i + 1) rest total_car_data w
      else
        let w := logger DEBUG (" Fetching car data for driver "
                                 ++ py_str driver_number ++ " (" ++ pretty i ++ "/"
                                 ++ pretty n_drivers ++ ")") w in
        match speed_filters_loop session_key driver_number speed_filters
                total_car_data w with
        | (w, Raise e) => (w, Raise e)
        | (w, Ok total_car_data) =>
            car_drivers_loop session_key n_drivers (i + 1) rest total_car_data w
        end
  end.

(** [TestDataIngestion._ingest_car_data_by_drivers] *)
Definition _ingest_car_data_by_drivers (session_key : value) (w : world S)
  : world S * result Z :=
  let drivers_url := OPENF1_BASE_URL ++ "/drivers?session_key=" ++ py_str session_key in
  let response := http_get drivers_url in
  if negb (status response =? 200) then
    (logger ERROR " Failed to fetch drivers for car data ingestion" w, Ok 0)
  else
    let drivers_data := json response in
    match drivers_data with
    | [] => (logger WARNING " No drivers found for this session" w, Ok 0)
    | _ :: _ =>
        let w := logger INFO (" Found " ++ pretty (len drivers_data)
                                ++ " drivers, fetching car data for each...") w in
        match car_drivers_loop session_key (len drivers_data) 1 drivers_data 0 w with
        | (w, Raise e) => (w, Raise e)
        | (w, Ok total_car_data) =>
            let w :=
              if 0 <? total_car_data then
                logger INFO (" Processed " ++ pretty total_car_data
                               ++ " car data records across all drivers") w
              else
                logger WARNING
                  "  No car data available for this session (this is normal for some session types)"
                  w in
            (w, Ok total_car_data)
        end
    end.

(** [TestDataIngestion.ingest_car_data] *)
Definition ingest_car_data (session_key : value) (w : world S) : world S * result Z :=
  let w := logger INFO
             "  📡 Car data requires driver-specific queries due to volume..." w in
  _ingest_car_data_by_drivers session_key w.

(** [TestDataIngestion._validate_car_data_item] *)
Definition _validate_car_data_item (it : item) : bool * item :=
  match coerce_date "date" it with
  | Raise _ => (false, it)
  | Ok it => (is_ok (CarData_model it), it)
  end.

(** [TestDataIngestion.ingest_session_data]. The method
    [get_collection_stats] that it awaits at its end is not defined by
    [F1Database] in database.py, so the attribute lookup raises. *)
Definition ingest_session_data (session_key : value) (w : world S)
  : world S * result unit :=
  let w := logger INFO ("Starting data ingestion for session " ++ py_str session_key) w in
  let w := logger INFO "Ingesting drivers..." w in
  match ingest_drivers session_key w with
  | (w, Raise e) => (w, Raise e)
  | (w, Ok drivers_count) =>
      let w := logger INFO "Ingesting laps..." w in
      match ingest_laps session_key w with
      | (w, Raise e) => (w, Raise e)
      | (w, Ok laps_count) =>
          let w := logger INFO "Ingesting positions..." w in
          match ingest_positions session_key w with
          | (w, Raise e) => (w, Raise e)
          | (w, Ok positions_count) =>
              let rule := string_of_list_ascii (repeat "="%char 50) in
              let w := logger INFO (String (ascii_of_nat 10) rule) w in
              let w := logger INFO "INGESTION SUMMARY" w in
              let w := logger INFO rule w in
              let w := logger INFO ("Drivers: " ++ pretty drivers_count) w in
              let w := logger INFO ("Laps: " ++ pretty laps_count) w in
              let w := logger INFO ("Positions: " ++ pretty positions_count) w in
              (w, Raise (py_exn "AttributeError"
                   "'F1Database' object has no attribute 'get_collection_stats'"))
          end
      end
  end.

End TestDataIngestion.

(* ===================================================================== *)
(** * main.py                                                             *)
(* ===================================================================== *)

Section Main.
Context {S : Type} `{Storage S} `{Collaborators}.

(** The [try] block of [run_test_ingestion]. *)
Definition run_test_ingestion_try (w : world S) : world S * result unit :=
  (* Get latest race session *)
  match fetch_latest_session w with
  | (w, Raise e) => (w, Raise e)
  | (w, Ok latest_session) =>
      match getitem latest_session "session_key" with
      | Raise e => (w, Raise e)
      | Ok session_key =>
          match Session_model latest_session with
          | Raise e => (w, Raise e)
          | Ok session_doc =>
              match bulk_insert "sessions" [session_doc] (Some "session_key") w with
              | (w, Raise e) => (w, Raise e)
              | (w, Ok _) =>
                  (* Ingest all data for this session *)
                  match ingest_session_data session_key w with
                  | (w, Raise e) => (w, Raise e)
                  | (w, Ok _) =>
                      (logger SUCCESS "Test data ingestion completed successfully!" w,
                       Ok tt)
                  end
              end
          end
      end
  end.

(** [run_test_ingestion], from the state in which [__aenter__] of
    [TestDataIngestion] leaves the database handle. *)
Definition run_test_ingestion (w : world S) : world S * result unit :=
  let w := logger INFO "Starting test data ingestion..." w in
  match run_test_ingestion_try w with
  | (w, Ok _) => (w, Ok tt)
  | (w, Raise e) => (logger ERROR ("Test ingestion failed: " ++ exn_msg e) w, Raise e)
  end.

(** [main]: the exit status of the process. *)
Definition main (w : world S) : world S * Z :=
  let w := logger INFO "F1 Data Ingestion Test" w in
  let w := logger INFO (string_of_list_ascii (repeat "="%char 50)) w in
  match run_test_ingestion w with
  | (w, Ok _) => (logger SUCCESS "Test completed successfully!" w, 0)
  | (w, Raise e) => (logger ERROR ("Test failed: " ++ exn_msg e) w, 1)
  end.

End Main.

(* ===================================================================== *)
(** * Observing the calls to the store                                    *)
(* ===================================================================== *)

(** A store together with the list of the bulk operations it was asked to
    run, oldest first. *)
Inductive call : Type :=
  | InsertMany (collection_name : string) (documents : list document)
  | BulkWrite (collection_name : string) (operations : list UpdateOne).

#[global] Instance traced_storage {S : Type} `{Storage S} : Storage (S * list call) := {|
  insert_many name documents st :=
    let '(s', r) := insert_many name documents (fst st) in
    ((s', (snd st ++ [InsertMany name documents])%list), r);
  bulk_write name operations st :=
    let '(s', r) := bulk_write name operations (fst st) in
    ((s', (snd st ++ [BulkWrite name operations])%list), r)
|}.

(** The calls recorded in a state of the run. *)
Definition calls {S : Type} (w : world (S * list call)) : list call :=
  match db w with
  | Some st => snd st
  | None => []
  end.

(** The sizes of the batches handed to [insert_many]. *)
Definition batch_sizes (cs : list call) : list Z :=
  omap (fun c => match c with
                 | InsertMany _ documents => Some (len documents)
                 | BulkWrite _ _ => None
                 end) cs.

(** A store that cannot be reached: every operation raises. *)
Definition unreachable : exn :=
  py_exn "ServerSelectionTimeoutError" "localhost:27017: [Errno 111] Connection refused".

Definition unreachable_storage : Storage unit := {|
  insert_many _ _ s := (s, Raise unreachable);
  bulk_write _ _ s := (s, Raise unreachable)
|}.

(* ===================================================================== *)
(** * The upstream API's reading of a speed query                         *)
(* ===================================================================== *)

(** The [speed] range expressions of the upstream API ([speed=0],
    [speed>=A&speed<B], [speed>=C]), which this repository only writes into
    its URLs: a query is a conjunction of clauses separated by [&], and a
    record is returned when its speed satisfies every clause. *)
Module SpeedQuery.

Inductive clause : Type :=
  | Eq (n : Z)
  | Ge (n : Z)
  | Lt (n : Z).

Fixpoint read_nat (acc : Z) (l : list ascii) : option Z :=
  match l with
  | [] => Some acc
  | c :: l' =>
      match digit_of c with
      | Some d => read_nat (acc * 10 + Z.of_N d) l'
      | None => None
      end
  end.

Definition read_number (l : list ascii) : option Z :=
  match l with
  | [] => None
  | _ :: _ => read_nat 0 l
  end.

Definition parse_clause (l : list ascii) : option clause :=
  match l with
  | "s" :: "p" :: "e" :: "e" :: "d" :: ">" :: "=" :: n => Ge <$> read_number n
  | "s" :: "p" :: "e" :: "e" :: "d" :: "<" :: n => Lt <$> read_number n
  | "s" :: "p" :: "e" :: "e" :: "d" :: "=" :: n => Eq <$> read_number n
  | _ => None
  end%char.

(** Split at every [&]. *)
Fixpoint split_amp (cur : list ascii) (l : list ascii) : list (list ascii) :=
  match l with
  | [] => [rev cur]
  | c :: l' =>
      if Ascii.eqb c "&" then rev cur :: split_amp [] l'
      else split_amp (c :: cur) l'
  end.

Definition parse (query : string) : option (list clause) :=
  mapM parse_clause (split_amp [] (list_ascii_of_string query)).

Definition holds (c : clause) (speed : Z) : bool :=
  match c with
  | Eq n => speed =? n
  | Ge n => n <=? speed
  | Lt n => speed <? n
  end.

(** Does a record with this speed answer the query? A record without a
    speed, or a query that cannot be read, selects nothing. *)
Definition selects (query : string) (speed : option Z) : bool :=
  match parse query, speed with
  | Some clauses, Some z => forallb (fun c => holds c z) clauses
  | _, _ => false
  end.

(** The speed of a telemetry record. *)
Definition speed_of (it : item) : option Z :=
  match it !! "speed" with
  | Some (VInt z) => Some z
  | _ => None
  end.

(** The records of [records] that a query returns. *)
Definition answer (query : string) (records : list item) : list item :=
  List.filter (fun it => selects query (speed_of it)) records.

End SpeedQuery.

(* ===================================================================== *)
(** * Timestamps as the upstream API writes them                          *)
(* ===================================================================== *)

(** [datetime.fromisoformat] on texts of the form
    [YYYY-MM-DD?HH:MM:SS[.fff[fff]][(+|-)HH:MM]], where [?] is any one
    character; other texts raise [ValueError]. *)
Module Iso.

Fixpoint digits (n : nat) (acc : Z) (l : list ascii) : option (Z * list ascii) :=
  match n with
  | O => Some (acc, l)
  | Datatypes.S n' =>
      match l with
      | c :: l' =>
          match digit_of c with
          | Some d => digits n' (acc * 10 + Z.of_N d) l'
          | None => None
          end
      | [] => None
      end
  end.

Definition expect (c : ascii) (l : list ascii) : option (list ascii) :=
  match l with
  | c' :: l' => if Ascii.eqb c c' then Some l' else None
  | [] => None
  end.

Definition fraction (l : list ascii) : option (Z * list ascii) :=
  match l with
  | "."%char :: l' =>
      match digits 6 0 l' with
      | Some r => Some r
      | None =>
          match digits 3 0 l' with
          | Some (ms, l'') => Some (ms * 1000, l'')
          | None => None
          end
      end
  | _ => Some (0, l)
  end.

Definition offset (l : list ascii) : option (option Z) :=
  match l with
  | [] => Some None
  | c :: l' =>
      let sign := if Ascii.eqb c "+" then Some 1
                  else if Ascii.eqb c "-" then Some (-1) else None in
      sg ← sign;
      '(hh, l1) ← digits 2 0 l';
      l2 ← expect ":" l1;
      '(mm, l3) ← digits 2 0 l2;
      match l3 with
      | [] => if (hh <? 24) && (mm <? 60)
              then Some (Some (sg * (hh * 3600 + mm * 60))) else None
      | _ => None
      end
  end.

Definition parse (s : string) : option datetime :=
  '(y, l) ← digits 4 0 (list_ascii_of_string s);
  l ← expect "-" l;
  '(mo, l) ← digits 2 0 l;
  l ← expect "-" l;
  '(d, l) ← digits 2 0 l;
  match l with
  | [] => None
  | _ :: l =>
      '(hh, l) ← digits 2 0 l;
      l ← expect ":" l;
      '(mi, l) ← digits 2 0 l;
      l ← expect ":" l;
      '(ss, l) ← digits 2 0 l;
      '(us, l) ← fraction l;
      tz ← offset l;
      if (1 <=? y) && (1 <=? mo) && (mo <=? 12) && (1 <=? d) && (d <=? 31)
         && (hh <? 24) && (mi <? 60) && (ss <? 60)
      then Some (mk_datetime y mo d hh mi ss us tz)
      else None
  end.

Definition fromisoformat (s : string) : result datetime :=
  match parse s with
  | Some d => Ok d
  | None => Raise (py_exn "ValueError" ("Invalid isoformat string: '" ++ s ++ "'"))
  end.

End Iso.

(* ===================================================================== *)
(** * The declared schemas of models.py                                   *)
(* ===================================================================== *)

(** The fields that the model classes declare, and validation against
    them: a field takes a value of its declared type (an [int] also where
    a [float] is declared, and for a [datetime] also a timestamp as text,
    which pydantic reads, with [Z] for the offset [+00:00]), a required
    field must be present and not [None], an optional field defaults to
    [None], and undeclared fields are dropped. pydantic's default mode
    accepts more (numeric strings for numbers, numbers for timestamps); on
    items whose fields have their declared types, or text for a
    timestamp, the two agree. *)
Module Schema.

Inductive ftype : Type :=
  | TInt | TFloat | TStr | TBool | TDatetime
  | TListOptInt.      (* List[Optional[int]] *)

Record field : Type := mk_field {
  fname : string;
  ftyp : ftype;
  required : bool
}.

Definition req (n : string) (t : ftype) : field := mk_field n t true.
Definition opt (n : string) (t : ftype) : field := mk_field n t false.

Definition is_opt_int (v : value) : bool :=
  match v with VInt _ | VNone => true | _ => false end.

Definition check (t : ftype) (v : value) : option value :=
  match t, v with
  | TInt, VInt z => Some (VInt z)
  | TFloat, VFloat f => Some (VFloat f)
  | TFloat, VInt z =>
      match float_of_int z with Ok f => Some (VFloat f) | Raise _ => None end
  | TStr, VStr x => Some (VStr x)
  | TBool, VBool b => Some (VBool b)
  | TDatetime, VDatetime d => Some (VDatetime d)
  | TDatetime, VStr x => VDatetime <$> Iso.parse (str_replace_char "Z" "+00:00" x)
  | TListOptInt, VList l => if forallb is_opt_int l then Some (VList l) else None
  | _, _ => None
  end.

Definition invalid (cls : string) (f : field) : exn :=
  py_exn "ValidationError" ("1 validation error for " ++ cls ++ ": " ++ fname f).

Fixpoint validate (cls : string) (fields : list field) (it : item)
  : result document :=
  match fields with
  | [] => Ok ∅
  | f :: rest =>
      let* doc := validate cls rest it in
      match it !! fname f with
      | None | Some VNone =>
          if required f then Raise (invalid cls f)
          else Ok (<[fname f := VNone]> doc)
      | Some v =>
          match check (ftyp f) v with
          | Some v' => Ok (<[fname f := v']> doc)
          | None => Raise (invalid cls f)
          end
      end
  end.

Definition CarData : list field :=
  [ req "session_key" TInt; opt "meeting_key" TInt; req "driver_number" TInt;
    req "date" TDatetime; opt "rpm" TInt; opt "speed" TInt; opt "n_gear" TInt;
    opt "throttle" TFloat; opt "brake" TInt; opt "drs" TInt ].

Definition Session : list field :=
  [ req "session_key" TInt; req "session_name" TStr; req "session_type" TStr;
    req "meeting_key" TInt; req "location" TStr; req "country_key" TInt;
    req "country_code" TStr; req "country_name" TStr; req "circuit_key" TInt;
    req "circuit_short_name" TStr; req "date_start" TDatetime;
    req "date_end" TDatetime; req "gmt_offset" TStr; req "year" TInt ].

Definition Driver : list field :=
  [ req "session_key" TInt; opt "meeting_key" TInt; req "driver_number" TInt;
    opt "broadcast_name" TStr; opt "country_code" TStr; opt "first_name" TStr;
    opt "full_name" TStr; opt "last_name" TStr; opt "team_colour" TStr;
    opt "team_name" TStr; opt "name_acronym" TStr; opt "headshot_url" TStr ].

Definition Lap : list field :=
  [ req "session_key" TInt; opt "meeting_key" TInt; req "driver_number" TInt;
    opt "date_start" TDatetime; req "lap_number" TInt; opt "lap_duration" TFloat;
    opt "is_pit_out_lap" TBool; opt "stint_number" TInt;
    opt "duration_sector_1" TFloat; opt "duration_sector_2" TFloat;
    opt "duration_sector_3" TFloat;
    opt "i1_speed" TInt; opt "i2_speed" TInt; opt "st_speed" TInt;
    opt "segments_sector_1" TListOptInt; opt "segments_sector_2" TListOptInt;
    opt "segments_sector_3" TListOptInt;
    opt "sectors_sector_1" TFloat; opt "sectors_sector_2" TFloat;
    opt "sectors_sector_3" TFloat ].

Definition Position : list field :=
  [ req "session_key" TInt; opt "meeting_key" TInt; req "driver_number" TInt;
    req "date" TDatetime; req "position" TInt ].

(** [Interval] without [gap_to_leader] and [interval]. *)
Definition Interval_plain : list field :=
  [ req "session_key" TInt; opt "meeting_key" TInt; req "driver_number" TInt;
    req "date" TDatetime ].

End Schema.

(** [a > b] on integers; the sample data compares nothing else but
    strings, and Python refuses to order [None], a dict, or a number with
    a string. *)
Definition gt_int (a b : value) : result bool :=
  match a, b with
  | VInt x, VInt y => Ok (y <? x)
  | _, _ => Raise (py_exn "TypeError" "'>' not supported between these instances")
  end.

(** The collaborators with a given upstream API: schema validation as in
    [Schema], timestamps as in [Iso]. The sample data formats integers and
    strings only, so the text of other objects is a placeholder. *)
Definition collaborators (get : string -> response) : Collaborators := {|
  http_get := get;
  fromisoformat := Iso.fromisoformat;
  str_other _ := "<object>";
  gt_other := gt_int;
  Session_model := Schema.validate "Session" Schema.Session;
  Driver_model := Schema.validate "Driver" Schema.Driver;
  Lap_model := Schema.validate "Lap" Schema.Lap;
  Position_model := Schema.validate "Position" Schema.Position;
  Interval_plain := Schema.validate "Interval" Schema.Interval_plain;
  CarData_model := Schema.validate "CarData" Schema.CarData
|}.

(* ===================================================================== *)
(** * Sample data                                                         *)
(* ===================================================================== *)

Module Sample.

Definition session_key : value := VInt 9662.

Definition lap : item :=
  {[ "session_key" := VInt 9662; "meeting_key" := VInt 1252;
     "driver_number" := VInt 44; "lap_number" := VInt 7;
     "date_start" := VStr "2024-12-08T13:12:41.344000+00:00";
     "lap_duration" := VFloat (FDec false 88731 (-3));
     "is_pit_out_lap" := VBool false;
     "segments_sector_1" := VList [VInt 2049; VNone; VInt 2051] ]}.

(** A lap without its required [lap_number]. *)
Definition broken_lap : item :=
  {[ "session_key" := VInt 9662; "driver_number" := VInt 44;
     "date_start" := VStr "2024-12-08T13:14:10.075000+00:00" ]}.

Definition driver : item :=
  {[ "session_key" := VInt 9662; "driver_number" := VInt 44;
     "name_acronym" := VStr "HAM"; "team_name" := VStr "Mercedes" ]}.

Definition race (key : Z) (name date_start date_end : string) : item :=
  list_to_map
    [ ("session_key", VInt key); ("session_name", VStr "Race");
      ("session_type", VStr "Race"); ("meeting_key", VInt 1252);
      ("location", VStr name); ("country_key", VInt 21);
      ("country_code", VStr "UAE"); ("country_name", VStr name);
      ("circuit_key", VInt 70); ("circuit_short_name", VStr name);
      ("date_start", VStr date_start); ("date_end", VStr date_end);
      ("gmt_offset", VStr "04:00:00"); ("year", VInt 2024) ].

Definition races : list item :=
  [ race 9636 "Las Vegas" "2024-11-24T06:00:00+00:00" "2024-11-24T08:00:00+00:00";
    race 9662 "Yas Island" "2024-12-08T13:00:00+00:00" "2024-12-08T15:00:00+00:00";
    race 9655 "Lusail" "2024-12-01T16:00:00+00:00" "2024-12-01T18:00:00+00:00" ].

Definition telemetry (speed : Z) : item :=
  {[ "session_key" := VInt 9662; "driver_number" := VInt 44;
     "date" := VStr "2024-12-08T13:03:29.344000+00:00";
     "rpm" := VInt 10500; "speed" := VInt speed; "n_gear" := VInt 6 ]}.

Definition telemetry_44 : list item :=
  [ telemetry 0; telemetry 87; telemetry 0; telemetry 149; telemetry 150;
    telemetry 312; telemetry 350; telemetry 1 ].

Definition not_found : response := mk_response 404 [].

(** An upstream API that answers the given requests and no other. *)
Fixpoint upstream (table : list (string * list item)) (url : string) : response :=
  match table with
  | [] => not_found
  | (u, body) :: rest =>
      if String.eqb u url then mk_response 200 body else upstream rest url
  end.

Definition base : string := "https://api.openf1.org/v1".

Definition car_data_44 (speed_filter : string) : string * list item :=
  (base ++ "/car_data?session_key=9662&driver_number=44&" ++ speed_filter,
   SpeedQuery.answer speed_filter telemetry_44).

(** The season, one driver, three laps of which one is broken, and the
    telemetry of the driver by speed range. *)
Definition api : string -> response :=
  upstream
    [ (base ++ "/sessions?session_type=Race&year=2024", races);
      (base ++ "/drivers?session_key=9662", [driver]);
      (base ++ "/laps?session_key=9662", [lap; broken_lap; lap]);
      car_data_44 "speed=0";
      car_data_44 "speed>=1&speed<150";
      car_data_44 "speed>=150&speed<350";
      car_data_44 "speed>=350" ].

(** 12,001 laps that pass validation. *)
Definition api_12001 : string -> response :=
  upstream [ (base ++ "/laps?session_key=9662", replicate (Z.to_nat 12001) lap) ].

(** Laps that all fail validation. *)
Definition api_broken : string -> response :=
  upstream [ (base ++ "/laps?session_key=9662", replicate 5 broken_lap) ].

(** A store with the indexes of [ensure_indexes] and no documents, with
    the record of its calls. *)
Definition empty_store : Mongo.database * list call :=
  ({[ "sessions" := Mongo.mk_collection [] (Some "session_key") ]}, []).

Definition start : world (Mongo.database * list call) :=
  mk_world (Some empty_store) [].

End Sample.

(* ===================================================================== *)
(** * Properties                                                          *)
(* ===================================================================== *)

(** ** Strings *)

Lemma length_app_string (a b : string) :
  String.length (a ++ b) = (String.length a + String.length b)%nat.
Proof. induction a as [|c a IH]; simpl; [reflexivity | now rewrite IH]. Qed.

Lemma length_substring_le (s : string) : forall n m,
  (String.length (String.substring n m s) <= m)%nat.
Proof.
  induction s as [|c s IH]; intros n m.
  - destruct n, m; simpl; lia.
  - destruct n as [|n]; simpl.
    + destruct m as [|m]; simpl; [lia | specialize (IH 0%nat m); lia].
    + apply IH.
Qed.

Lemma length_str_take (n : nat) (s : string) : (String.length (str_take n s) <= n)%nat.
Proof. apply length_substring_le. Qed.

Lemma prefix_app (a b : string) : String.prefix a (a ++ b) = true.
Proof.
  induction a as [|c a IH]; simpl.
  - now destruct b.
  - destruct (ascii_dec c c); [exact IH | congruence].
Qed.

Lemma str_contains_app_r (needle a b : string) :
  str_contains needle b = true -> str_contains needle (a ++ b) = true.
Proof.
  intros Hb. induction a as [|c a IH]; [exact Hb |].
  change (String c a ++ b) with (String c (a ++ b)).
  unfold str_contains; fold str_contains.
  rewrite IH. now destruct (String.prefix needle (String c (a ++ b))).
Qed.

Lemma str_contains_prefix (needle b : string) :
  str_contains needle (needle ++ b) = true.
Proof.
  destruct needle as [|c n]; [now destruct b |].
  change (String c n ++ b) with (String c (n ++ b)).
  unfold str_contains; fold str_contains.
  change (String c (n ++ b)) with (String c n ++ b).
  now rewrite prefix_app.
Qed.

Lemma summarize_error_bounded (msg : string) :
  (String.length (summarize_error msg) <= 215)%nat.
Proof.
  unfold summarize_error.
  destruct (200 <? String.length msg)%nat eqn:E.
  - rewrite length_app_string. pose proof (length_str_take 200 msg).
    change (String.length "... (truncated)") with 15%nat. lia.
  - apply Nat.ltb_ge in E. lia.
Qed.

(** A short message is logged as it is, a long one is cut after its first
    200 characters. *)
Lemma summarize_error_short (msg : string) :
  (String.length msg <= 200)%nat -> summarize_error msg = msg.
Proof.
  intros Hlen. unfold summarize_error.
  destruct (200 <? String.length msg)%nat eqn:E; [|reflexivity].
  apply Nat.ltb_lt in E. lia.
Qed.

Lemma length_substring_head (s : string) : forall n,
  (n <= String.length s)%nat -> String.length (String.substring 0 n s) = n.
Proof.
  induction s as [|c s IH]; intros n Hn.
  - simpl in Hn. assert (n = 0%nat) as -> by lia. reflexivity.
  - destruct n as [|n]; [reflexivity |]. simpl in Hn |- *.
    rewrite IH by lia. reflexivity.
Qed.

Lemma prefix_substring_head (s : string) : forall n,
  String.prefix (String.substring 0 n s) s = true.
Proof.
  induction s as [|c s IH]; intros n.
  - now destruct n.
  - destruct n as [|n]; [reflexivity |]. simpl.
    destruct (ascii_dec c c); [apply IH | congruence].
Qed.

(** What the specification asks of the logged summary of an error
    message, in terms of the message alone: a message of at most 200
    characters is logged as it is; of a longer one the first 200
    characters are logged, followed by a marker. *)
Definition cut_to_200 (msg summary : string) : Prop :=
  if (String.length msg <=? 200)%nat then summary = msg
  else exists head,
         summary = head ++ "... (truncated)"
         /\ String.length head = 200%nat
         /\ String.prefix head msg = true.

Lemma summarize_error_cut (msg : string) : cut_to_200 msg (summarize_error msg).
Proof.
  unfold cut_to_200.
  destruct (Nat.leb_spec (String.length msg) 200) as [Hshort | Hlong].
  - now apply summarize_error_short.
  - exists (String.substring 0 200 msg). split; [|split].
    + unfold summarize_error. apply Nat.ltb_lt in Hlong. now rewrite Hlong.
    + apply length_substring_head. lia.
    + apply prefix_substring_head.
Qed.

Lemma cut_to_200_bounded (msg summary : string) :
  cut_to_200 msg summary -> (String.length summary <= 215)%nat.
Proof.
  unfold cut_to_200.
  destruct (Nat.leb_spec (String.length msg) 200) as [Hshort | Hlong].
  - intros ->. lia.
  - intros (head & -> & Hlen & _). rewrite length_app_string, Hlen.
    change (String.length "... (truncated)") with 15%nat. lia.
Qed.

(** ** models.py *)

Example float_1_234 : float_of_string "1.234" = Some (FDec false 1234 (-3)).
Proof. reflexivity. Qed.

Example float_lap : float_of_string "+1 LAP" = None.
Proof. reflexivity. Qed.

Example float_of_string_samples :
  float_of_string " -1_0.5e+2 " = Some (FDec true 105 1) /\
  float_of_string "1." = Some (FDec false 1 0) /\
  float_of_string ".5" = Some (FDec false 5 (-1)) /\
  float_of_string "." = None /\
  float_of_string "1__0" = None /\
  float_of_string "-Infinity" = Some (FInf true) /\
  float_of_string "NaN" = Some FNan /\
  float_of_string "1e" = None /\
  float_of_string "" = None /\
  float_of_string "+2 LAPS" = None.
Proof. repeat split. Qed.

(** The values on which [float] succeeds or fails with one of the two
    exceptions that [parse_gap_values] catches, and that the declared type
    of the field admits: [None], strings and numbers within the range of a
    float. *)
Definition convertible (v : value) : Prop :=
  match v with
  | VNone | VStr _ | VBool _ | VFloat _ => True
  | VInt z => Z.abs z < float_overflow_bound
  | VDatetime _ | VList _ | VDict _ => False
  end.

(** What validation of a gap field stores for a convertible value. *)
Definition gap_value (v : value) : value :=
  match v with
  | VNone => VNone
  | VStr s =>
      match float_of_string s with
      | Some f => VFloat f
      | None => VStr s
      end
  | VBool b => VFloat (FDec false (if b then 1 else 0)%N 0)
  | VInt z => VFloat (FDec (z <? 0) (Z.abs_N z) 0)
  | other => other
  end.

Lemma parse_gap_values_convertible (v : value) :
  convertible v -> parse_gap_values v = Ok (gap_value v).
Proof.
  destruct v as [| b | z | f | s | d | l | d]; simpl; intros Hv;
    try contradiction; try reflexivity.
  - unfold float_of_int. apply Z.ltb_lt in Hv. now rewrite Hv.
  - now destruct (float_of_string s).
Qed.

(** The validator never hands an [int] or a [bool] to the type check. *)
Lemma parse_gap_values_shape (v r : value) :
  parse_gap_values v = Ok r ->
  match r with
  | VInt _ | VBool _ => False
  | _ => True
  end.
Proof.
  destruct v as [| b | z | f | s | d | l | d]; simpl.
  - intros [= <-]; exact I.
  - intros [= <-]; exact I.
  - unfold float_of_int. destruct (Z.abs z <? float_overflow_bound); simpl.
    + intros [= <-]; exact I.
    + discriminate.
  - intros [= <-]; exact I.
  - destruct (float_of_string s); simpl; intros [= <-]; exact I.
  - intros [= <-]; exact I.
  - intros [= <-]; exact I.
  - intros [= <-]; exact I.
Qed.

(** An integer beyond the range of a float makes [float] raise
    [OverflowError], which the validator does not catch. *)
Example parse_gap_values_overflow :
  parse_gap_values (VInt (2 ^ 1024)) =
  Raise (py_exn "OverflowError" "int too large to convert to float").
Proof. vm_compute. reflexivity. Qed.

(** C3, as the claim states it, fails: a JSON array is an input value of
    the field [gap_to_leader]; the float parse fails, the validator keeps
    the value, and the declared type of the field refuses it. *)
Lemma gap_field_rejects_list :
  parse_gap_values (VList []) = Ok (VList []) /\
  is_ok (validate_gap_field "gap_to_leader" (VList [])) = false.
Proof. split; reflexivity. Qed.

(** C3 (amended): for every input value [v] of the fields [gap_to_leader]
    and [interval] that is [None], a string, or a number that [float]
    converts, validation does not raise; a string is stored as the float it
    parses to and otherwise verbatim, [None] stays [None]. In particular
    ["+1 LAP"] is kept as that string, ["1.234"] becomes the float 1.234. *)
Theorem gap_field_validation (field : string) (v : value) :
  convertible v ->
  validate_gap_field field v = Ok (gap_value v) /\
  (forall s, v = VStr s ->
     gap_value v = match float_of_string s with
                   | Some f => VFloat f
                   | None => VStr s
                   end) /\
  (v = VNone -> gap_value v = VNone) /\
  validate_gap_field field (VStr "+1 LAP") = Ok (VStr "+1 LAP") /\
  validate_gap_field field (VStr "1.234") = Ok (VFloat (FDec false 1234 (-3))) /\
  validate_gap_field field VNone = Ok VNone.
Proof.
  intros Hv. split; [|repeat split].
  - unfold validate_gap_field. rewrite (parse_gap_values_convertible v Hv). simpl.
    destruct v as [| b | z | f | s | d | l | d]; simpl in *; try tauto.
    now destruct (float_of_string s).
  - now intros s ->.
  - now intros ->.
Qed.

Lemma gap_field_validation_witness :
  convertible (VStr "+2 LAPS") /\
  validate_gap_field "interval" (VStr "+2 LAPS") = Ok (VStr "+2 LAPS").
Proof.
  split; [exact I |].
  exact (proj1 (gap_field_validation "interval" (VStr "+2 LAPS") I)).
Defined.

(** ** database.py: the batch writer on any store *)

Section bulk_insert_properties.
Context {S : Type} `{Storage S}.

Definition bulk_insert_error_line (collection_name : string) (e : exn) : log_entry :=
  (ERROR, "Error bulk inserting to " ++ collection_name ++ ": "
            ++ summarize_error (exn_msg e)).

Lemma bulk_insert_empty (name : string) (key : option string) (w : world S) :
  bulk_insert name [] key w = (w, Ok 0).
Proof. reflexivity. Qed.

(** Whatever the body of the [try] raises is caught. *)
Lemma bulk_insert_caught (name : string) (documents : list document)
    (key : option string) (w w' : world S) (e : exn) :
  documents <> [] ->
  bulk_insert_try name documents key w = (w', Raise e) ->
  bulk_insert name documents key w =
    (mk_world (db w') (log w' ++ [bulk_insert_error_line name e]), Ok 0).
Proof.
  intros Hne Htry. destruct documents as [|d documents]; [congruence |].
  unfold bulk_insert. rewrite Htry. reflexivity.
Qed.

Lemma bulk_insert_passes (name : string) (documents : list document)
    (key : option string) (w w' : world S) (n : Z) :
  documents <> [] ->
  bulk_insert_try name documents key w = (w', Ok n) ->
  bulk_insert name documents key w = (w', Ok n).
Proof.
  intros Hne Htry. destruct documents as [|d documents]; [congruence |].
  unfold bulk_insert. rewrite Htry. reflexivity.
Qed.

Lemma bulk_insert_returns (name : string) (documents : list document)
    (key : option string) (w : world S) :
  exists w' n, bulk_insert name documents key w = (w', Ok n).
Proof.
  destruct documents as [|d documents]; [now exists w, 0 |].
  unfold bulk_insert.
  destruct (bulk_insert_try name (d :: documents) key w) as [w' [n | e]];
    eauto.
Qed.

(** [bulk_insert] as a function that returns the count. *)
Definition written (name : string) (documents : list document)
    (key : option string) (w : world S) : world S * Z :=
  match bulk_insert name documents key w with
  | (w', Ok n) => (w', n)
  | (w', Raise _) => (w', 0)
  end.

Lemma bulk_insert_written (name : string) (documents : list document)
    (key : option string) (w : world S) :
  bulk_insert name documents key w =
    (fst (written name documents key w), Ok (snd (written name documents key w))).
Proof.
  unfold written.
  destruct (bulk_insert_returns name documents key w) as (w' & n & ->).
  reflexivity.
Qed.

Lemma build_operations_missing (k : string) (documents : list document) :
  (exists d, d ∈ documents /\ d !! k = None) ->
  build_operations k documents = Raise (py_exn "KeyError" ("'" ++ k ++ "'")).
Proof.
  intros (d & Hin & Hd). induction documents as [|d' documents IH].
  - inversion Hin.
  - simpl. destruct (d' !! k) eqn:Hd'; [|reflexivity].
    apply elem_of_cons in Hin as [-> | Hin]; [congruence |].
    now rewrite (IH Hin).
Qed.

(** The closing line of a call that failed, with the summary it logs. *)
Definition error_line (collection_name summary : string) : log_entry :=
  (ERROR, "Error bulk inserting to " ++ collection_name ++ ": " ++ summary).

(** C2: the batch writer returns 0 for an empty list and leaves the
    state of the run as it was, so no operation of the store has run; on
    every input it returns a count and does not raise; and when the
    store fails with anything but a duplicate-key error, the error is
    caught, the call returns 0, and the one line it logs, at level ERROR,
    carries the message of the error cut to a bounded length: the message
    itself when it has at most 200 characters, and otherwise its first
    200 characters followed by the marker "... (truncated)", so at most
    215 characters. *)
Theorem bulk_insert_never_raises (name : string) (documents : list document)
    (key : option string) (w : world S) :
  (documents = [] -> bulk_insert name documents key w = (w, Ok 0)) /\
  (exists w' n, bulk_insert name documents key w = (w', Ok n)) /\
  (forall s s' e,
      documents <> [] -> db w = Some s -> upsert_mode key = None ->
      insert_many name documents s = (s', Raise e) ->
      str_contains "duplicate key error" (exn_msg e) = false ->
      exists summary,
        bulk_insert name documents key w =
          (mk_world (Some s') (log w ++ [error_line name summary]), Ok 0)
        /\ cut_to_200 (exn_msg e) summary
        /\ (String.length summary <= 215)%nat) /\
  (forall s s' k operations e,
      documents <> [] -> db w = Some s -> upsert_mode key = Some k ->
      build_operations k documents = Ok operations ->
      bulk_write name operations s = (s', Raise e) ->
      exists summary,
        bulk_insert name documents key w =
          (mk_world (Some s') (log w ++ [error_line name summary]), Ok 0)
        /\ cut_to_200 (exn_msg e) summary
        /\ (String.length summary <= 215)%nat) /\
  (forall e, (String.length (summarize_error (exn_msg e)) <= 215)%nat).
Proof.
  split; [|split; [|split; [|split]]].
  - intros ->. reflexivity.
  - apply bulk_insert_returns.
  - intros s s' e Hne Hdb Hmode Hins Hdup.
    exists (summarize_error (exn_msg e)).
    split; [|split; [apply summarize_error_cut | apply summarize_error_bounded]].
    rewrite (bulk_insert_caught name documents key w (set_db s' w) e Hne);
      [reflexivity |].
    unfold bulk_insert_try. rewrite Hdb, Hmode, Hins. simpl.
    unfold on_bulk_error. rewrite Hdup. reflexivity.
  - intros s s' k operations e Hne Hdb Hmode Hops Hbw.
    exists (summarize_error (exn_msg e)).
    split; [|split; [apply summarize_error_cut | apply summarize_error_bounded]].
    rewrite (bulk_insert_caught name documents key w (set_db s' w) e Hne);
      [reflexivity |].
    unfold bulk_insert_try. rewrite Hdb, Hmode, Hops, Hbw. reflexivity.
  - intros e. apply summarize_error_bounded.
Qed.

(** C10: in upsert-by-key mode, a non-empty batch with a document that
    lacks the key field is not written: the lookup of the key raises
    while the operations are built, before any operation of the store
    is issued, so the store is as it was; the call does not raise and
    returns 0. *)
Theorem upsert_missing_key_writes_nothing (name : string)
    (documents : list document) (key : option string) (k : string) (w : world S) :
  documents <> [] ->
  upsert_mode key = Some k ->
  (exists d, d ∈ documents /\ d !! k = None) ->
  exists w', bulk_insert name documents key w = (w', Ok 0) /\
             db w' = db w /\
             (forall s, db w = Some s ->
                log w' = (log w ++ [bulk_insert_error_line name
                                      (py_exn "KeyError" ("'" ++ k ++ "'"))])%list).
Proof.
  intros Hne Hmode Hmissing.
  pose proof (build_operations_missing k documents Hmissing) as Hops.
  destruct (db w) as [s|] eqn:Hdb.
  - eexists. split; [|split].
    + apply bulk_insert_caught; [exact Hne |].
      unfold bulk_insert_try. rewrite Hdb, Hmode, Hops. reflexivity.
    + simpl. now rewrite Hdb.
    + intros s0 _. reflexivity.
  - eexists. split; [|split].
    + apply bulk_insert_caught; [exact Hne |].
      unfold bulk_insert_try. rewrite Hdb. reflexivity.
    + simpl. now rewrite Hdb.
    + intros s0 [=].
Qed.

End bulk_insert_properties.

(** A store that is down: the writer reports 0 and logs one error line
    with the message of the error, which is short, as it is. *)
Lemma bulk_insert_never_raises_witness :
  let doc : document := {[ "driver_number" := VInt 44 ]} in
  let w := mk_world (Some tt) [] in
  exists summary,
    @bulk_insert unit unreachable_storage "drivers" [doc] None w =
      (mk_world (Some tt) ([] ++ [error_line "drivers" summary]), Ok 0)
    /\ summary = "localhost:27017: [Errno 111] Connection refused".
Proof.
  intros doc w.
  destruct (@bulk_insert_never_raises unit unreachable_storage "drivers" [doc] None w)
    as (_ & _ & Hfail & _).
  destruct (Hfail tt tt unreachable ltac:(discriminate) eq_refl eq_refl eq_refl eq_refl)
    as (summary & Hrun & Hcut & _).
  exists summary. split; [exact Hrun | exact Hcut].
Defined.

(** A failure with a message of 250 characters: the first 200 are
    logged, and the marker. *)
Example long_error_is_cut :
  let long_failure : Storage unit :=
    {| insert_many _ _ s :=
         (s, Raise (py_exn "OperationFailure" (string_of_list_ascii (repeat "x"%char 250))));
       bulk_write _ _ s := (s, Raise unreachable) |} in
  let doc : document := {[ "driver_number" := VInt 44 ]} in
  @bulk_insert unit long_failure "drivers" [doc] None (mk_world (Some tt) []) =
    (mk_world (Some tt)
       [error_line "drivers"
          (string_of_list_ascii (repeat "x"%char 200) ++ "... (truncated)")],
     Ok 0).
Proof. vm_compute. reflexivity. Qed.

(** A session document without [session_key], written in upsert mode to a
    store that records its calls: nothing reaches the store. *)
Lemma upsert_missing_key_writes_nothing_witness :
  let doc : document := {[ "session_name" := VStr "Race" ]} in
  let w : world (Mongo.database * list call) := mk_world (Some (∅, [])) [] in
  exists w', bulk_insert "sessions" [doc] (Some "session_key") w = (w', Ok 0)
             /\ calls w' = [].
Proof.
  intros doc w.
  destruct (upsert_missing_key_writes_nothing "sessions" [doc] (Some "session_key")
              "session_key" w) as (w' & Hrun & Hdb & _).
  - discriminate.
  - reflexivity.
  - exists doc. split; [apply list_elem_of_here | reflexivity].
  - exists w'. split; [exact Hrun |]. unfold calls. rewrite Hdb. reflexivity.
Defined.

(** ** database.py: the batch writer on the document store *)

Module MongoFacts.
(** No two records of the batch have the same value of the unique key. *)
Definition batch_distinct (u : option string) (documents : list document) : Prop :=
  match u with
  | Some k => NoDup (map (Mongo.index_key k) documents)
  | None => True
  end.

(** Does the collection store a document with the key of [d]? *)
Definition already_stored (c : Mongo.collection) (d : document) : bool :=
  Mongo.violates_unique (Mongo.unique_key c) (Mongo.docs c) d.

Lemma batch_distinct_cons u (d : document) (documents : list document) :
  batch_distinct u (d :: documents) ->
  batch_distinct u documents /\
  forall d', d' ∈ documents -> forall stored : list document,
    Mongo.violates_unique u (stored ++ [d]) d' = Mongo.violates_unique u stored d'.
Proof.
  destruct u as [k|]; simpl; [|now auto].
  intros Hnd. apply NoDup_cons in Hnd as [Hnotin Hnd]. split; [exact Hnd |].
  intros d' Hd' stored. rewrite existsb_app. simpl.
  unfold Mongo.collides at 2. rewrite bool_decide_eq_false_2.
  - now rewrite !orb_false_r.
  - intros Heq. apply Hnotin. rewrite Heq.
    apply list_elem_of_In, in_map, list_elem_of_In, Hd'.
Qed.

(** An unordered insert stores exactly the records whose key is new. *)
Lemma insert_each_spec u (documents : list document) :
  forall stored : list document,
  batch_distinct u documents ->
  Mongo.insert_each u stored documents =
    ((stored ++ List.filter (fun d => negb (Mongo.violates_unique u stored d)) documents)%list,
     length (List.filter (fun d => negb (Mongo.violates_unique u stored d)) documents)).
Proof.
  induction documents as [|d documents IH]; intros stored Hdist.
  - simpl. now rewrite app_nil_r.
  - apply batch_distinct_cons in Hdist as [Hdist Hsame].
    simpl. destruct (Mongo.violates_unique u stored d) eqn:Hv; simpl.
    + apply (IH stored Hdist).
    + rewrite (IH (stored ++ [d])%list Hdist).
      rewrite (List.filter_ext_in
                 (fun d' => negb (Mongo.violates_unique u (stored ++ [d]) d'))
                 (fun d' => negb (Mongo.violates_unique u stored d'))).
      * simpl. now rewrite <- app_assoc.
      * intros d' Hd'. f_equal. apply Hsame. now apply list_elem_of_In.
Qed.

Lemma filter_split_length {A} (f : A -> bool) (l : list A) :
  (length (List.filter (fun x => negb (f x)) l) + length (List.filter f l)
   = length l)%nat.
Proof.
  induction l as [|x l IH]; [reflexivity |].
  simpl. destruct (f x); simpl; lia.
Qed.

Lemma insert_many_nonempty name (documents : list document) dbs :
  documents <> [] ->
  Mongo.insert_many name documents dbs =
    (let c := Mongo.get_collection name dbs in
     let '(stored', n) :=
       Mongo.insert_each (Mongo.unique_key c) (Mongo.docs c) documents in
     let dbs' := <[name := Mongo.mk_collection stored' (Mongo.unique_key c)]> dbs in
     if (n =? length documents)%nat
     then (dbs', Ok (mk_InsertManyResult
                       (map N.of_nat (seq (length (Mongo.docs c)) n))))
     else (dbs', Raise (Mongo.BulkWriteError name (Z.of_nat n) 0 0 0))).
Proof. destruct documents; [congruence | reflexivity]. Qed.

Lemma bulk_write_error_mentions_duplicate name :
  str_contains "duplicate key error" (Mongo.bulk_write_error_msg name) = true.
Proof.
  change (Mongo.bulk_write_error_msg name) with
    ("batch op errors occurred, full error: {'writeErrors': [{'code': 11000, 'errmsg': 'E11000 "
     ++ ("duplicate key error"
         ++ (" collection: openf1." ++ name ++ "'}]}"))).
  apply str_contains_app_r, str_contains_prefix.
Qed.

Definition skipped_line (name : string) (duplicates : Z) : log_entry :=
  (DEBUG, "Skipped " ++ pretty duplicates ++ " duplicates in " ++ name).

Definition inserted_line (name : string) (inserted_count : Z) : log_entry :=
  (INFO, "Inserted/Updated " ++ pretty inserted_count ++ " documents in " ++ name).

(** C1 (amended): a non-empty batch of N records with pairwise distinct
    keys, K of which have a key that the collection already stores,
    written in insert-tolerant mode: the writer returns N-K and does not
    raise, the N-K new records are in the collection, and the K
    duplicates are reported on the log by one line at level DEBUG (and by
    no error line). *)
Theorem insert_tolerates_duplicates (name : string) (documents : list document)
    (key : option string) (dbs : Mongo.database) (lg : list log_entry) :
  let c := Mongo.get_collection name dbs in
  let N := len documents in
  let K := len (List.filter (already_stored c) documents) in
  documents <> [] ->
  upsert_mode key = None ->
  batch_distinct (Mongo.unique_key c) documents ->
  exists dbs',
    bulk_insert name documents key (mk_world (Some dbs) lg) =
      (mk_world (Some dbs')
         (lg ++ (if 0 <? K then [skipped_line name K] else [])
             ++ [inserted_line name (N - K)]),
       Ok (N - K))
    /\ Mongo.docs (Mongo.get_collection name dbs') =
         (Mongo.docs c ++ List.filter (fun d => negb (already_stored c d)) documents)%list.
Proof.
  intros c N K Hne Hmode Hdist.
  pose proof (insert_each_spec (Mongo.unique_key c) documents (Mongo.docs c) Hdist)
    as Hspec.
  pose proof (filter_split_length (already_stored c) documents) as Hsplit.
  set (fresh := List.filter (fun d => negb (already_stored c d)) documents) in *.
  change (List.filter
            (fun d => negb (Mongo.violates_unique (Mongo.unique_key c) (Mongo.docs c) d))
            documents) with fresh in Hspec.
  assert (HK : K = len documents - len fresh) by (unfold K, len; lia).
  exists (<[name := Mongo.mk_collection (Mongo.docs c ++ fresh) (Mongo.unique_key c)]> dbs).
  split.
  - erewrite bulk_insert_passes; [reflexivity | exact Hne |].
    unfold bulk_insert_try. simpl db. rewrite Hmode.
    change (insert_many name documents dbs)
      with (Mongo.insert_many name documents dbs).
    rewrite (insert_many_nonempty name documents dbs Hne).
    cbv zeta. fold c. rewrite Hspec.
    destruct (Nat.eqb_spec (length fresh) (length documents)) as [Hall | Hsome].
    + assert (K = 0) as HK0 by (rewrite HK; unfold len; lia).
      rewrite HK0. simpl. unfold logger, set_db, inserted_line. simpl.
      rewrite length_map, length_seq.
      replace (N - 0) with (Z.of_nat (length fresh)) by (unfold N, len; lia).
      reflexivity.
    + unfold on_bulk_error, set_db.
      cbn [exn_msg exn_details Mongo.BulkWriteError log db].
      rewrite bulk_write_error_mentions_duplicate.
      rewrite lookup_insert_eq. cbn [default from_option id].
      fold (len documents) (len fresh). rewrite <- HK.
      assert (0 < K) as HKpos by (rewrite HK; unfold len; lia).
      apply Z.ltb_lt in HKpos. rewrite HKpos.
      unfold logger, skipped_line, inserted_line. simpl.
      replace (N - K) with (len fresh) by (unfold N; lia).
      rewrite <- app_assoc. reflexivity.
  - unfold Mongo.get_collection at 1. rewrite lookup_insert_eq. reflexivity.
Qed.

End MongoFacts.

(** A collection with a unique index on [_id] that stores two laps, and a
    batch of three of which one is stored already. *)
Lemma insert_tolerates_duplicates_witness :
  let lap (n : Z) : document := {[ "_id" := VInt n ]} in
  let dbs : Mongo.database :=
    {[ "laps" := Mongo.mk_collection [lap 1; lap 2] (Some "_id") ]} in
  exists dbs',
    bulk_insert "laps" [lap 2; lap 3; lap 4] None (mk_world (Some dbs) []) =
      (mk_world (Some dbs')
         [MongoFacts.skipped_line "laps" 1; MongoFacts.inserted_line "laps" 2], Ok 2)
    /\ Mongo.docs (Mongo.get_collection "laps" dbs') = [lap 1; lap 2; lap 3; lap 4].
Proof.
  intros lap dbs.
  destruct (MongoFacts.insert_tolerates_duplicates "laps" [lap 2; lap 3; lap 4] None dbs [])
    as (dbs' & Hrun & Hdocs).
  - discriminate.
  - reflexivity.
  - apply (bool_decide_unpack _). vm_compute. exact I.
  - exists dbs'. split; [exact Hrun | exact Hdocs].
Defined.

(** C1, as the claim states it, fails: a batch may repeat a key that is
    new to the collection. Against a collection that stores the laps 1
    and 2 under a unique index, the batch of the laps 2, 3 and 3 has
    N = 3 records, of which K = 1 has a key that is stored already; the
    writer returns 1, not N - K = 2, and logs 2 duplicates: the store
    refuses the second lap 3 as a duplicate of the first. *)
Lemma repeated_new_key_counted_once :
  let lap (n : Z) : document := {[ "_id" := VInt n ]} in
  let dbs : Mongo.database :=
    {[ "laps" := Mongo.mk_collection [lap 1; lap 2] (Some "_id") ]} in
  let batch := [lap 2; lap 3; lap 3] in
  let run := bulk_insert "laps" batch None (mk_world (Some dbs) []) in
  len batch = 3
  /\ len (List.filter (MongoFacts.already_stored (Mongo.get_collection "laps" dbs)) batch)
     = 1
  /\ snd run = Ok 1
  /\ log (fst run)
     = [MongoFacts.skipped_line "laps" 2; MongoFacts.inserted_line "laps" 1].
Proof. vm_compute. repeat split. Qed.

Module UpsertFacts.

Section upsert.
Variable f : string.            (* the key field *)
Variable v : value.             (* the key of the record *)
Hypothesis v_not_null : v <> VNone.
Variable record : document.
Hypothesis record_key : record !! f = Some v.

Definition op : UpdateOne := mk_UpdateOne {[ f := v ]} record true.

Lemma matches_iff (d : document) : Mongo.matches {[ f := v ]} d <-> d !! f = Some v.
Proof. unfold Mongo.matches. apply map_singleton_subseteq_l. Qed.

Lemma index_key_iff (d : document) : Mongo.index_key f d = v <-> d !! f = Some v.
Proof.
  unfold Mongo.index_key. destruct (d !! f) as [x|]; simpl.
  - split; congruence.
  - split; [intros Heq; now symmetry in Heq | discriminate].
Qed.

Lemma no_violation (l : list document) (d' : document) :
  d' !! f = Some v ->
  Forall (fun x : document => x !! f <> Some v) l ->
  Mongo.violates_unique (Some f) l d' = false.
Proof.
  intros Hd' Hl. simpl. apply not_true_is_false. intros Hex.
  apply existsb_exists in Hex as (x & Hx & Hcol).
  unfold Mongo.collides in Hcol. apply bool_decide_eq_true_1 in Hcol.
  rewrite (proj2 (index_key_iff d') Hd') in Hcol.
  apply index_key_iff in Hcol.
  rewrite Forall_forall in Hl. apply (Hl x); [now apply list_elem_of_In | exact Hcol].
Qed.

Lemma count_key_none (l : list document) :
  Forall (fun x : document => x !! f <> Some v) l -> Mongo.count_key f v l = 0%nat.
Proof.
  unfold Mongo.count_key. induction 1 as [|x l Hx Hl IH]; [reflexivity |].
  simpl. now rewrite bool_decide_eq_false_2.
Qed.

Lemma count_key_one (l1 l2 : list document) (d : document) :
  Forall (fun x : document => x !! f <> Some v) (l1 ++ l2) ->
  d !! f = Some v ->
  Mongo.count_key f v (l1 ++ d :: l2) = 1%nat.
Proof.
  intros Hl Hd. apply Forall_app in Hl as [Hl1 Hl2].
  pose proof (count_key_none l1 Hl1) as H1.
  pose proof (count_key_none l2 Hl2) as H2.
  unfold Mongo.count_key in *.
  rewrite List.filter_app, length_app. simpl.
  rewrite bool_decide_eq_true_2 by exact Hd. simpl. lia.
Qed.

Lemma union_record_key (d : document) : (record ∪ d) !! f = Some v.
Proof. now apply lookup_union_Some_l. Qed.

Lemma union_record_filter : record ∪ {[ f := v ]} = record.
Proof.
  apply map_eq. intros i. rewrite lookup_union.
  destruct (decide (i = f)) as [-> | Hne].
  - rewrite record_key, lookup_singleton_eq. reflexivity.
  - rewrite lookup_singleton_ne by congruence.
    now destruct (record !! i).
Qed.

Lemma union_record_twice (d : document) : record ∪ (record ∪ d) = record ∪ d.
Proof. now rewrite (assoc_L (∪)), (idemp_L (∪)). Qed.

(** No stored document has the key: the record is stored as a new
    document. *)
Lemma update_one_fresh (stored : list document) :
  Forall (fun x : document => x !! f <> Some v) stored ->
  Mongo.update_one (Some f) op stored = ((stored ++ [record])%list, Mongo.Upserted).
Proof.
  intros Hnone. unfold Mongo.update_one.
  assert (list_find (Mongo.matches (uo_filter op)) stored = None) as ->.
  { apply list_find_None. eapply Forall_impl; [exact Hnone |].
    intros x Hx Hm. now apply matches_iff in Hm. }
  simpl. rewrite union_record_filter.
  pose proof (no_violation stored record record_key Hnone) as Hv.
  simpl in Hv. now rewrite Hv.
Qed.

(** One stored document has the key: it takes the fields of the
    record. *)
Lemma update_one_present (l1 l2 : list document) (d : document) :
  Forall (fun x : document => x !! f <> Some v) (l1 ++ l2) ->
  d !! f = Some v ->
  Mongo.update_one (Some f) op (l1 ++ d :: l2) =
    ((l1 ++ (record ∪ d) :: l2)%list,
     Mongo.Matched (bool_decide (record ∪ d <> d))).
Proof.
  intros Hnone Hd. unfold Mongo.update_one.
  assert (list_find (Mongo.matches (uo_filter op)) (l1 ++ d :: l2)
          = Some (length l1, d)) as ->.
  { apply list_find_Some. split; [|split].
    - now rewrite list_lookup_middle.
    - now apply matches_iff.
    - intros j y Hj Hlt Hm. apply matches_iff in Hm.
      rewrite lookup_app_l in Hj by exact Hlt.
      apply Forall_app in Hnone as [Hl1 _]. rewrite Forall_forall in Hl1.
      apply (Hl1 y); [|exact Hm].
      eapply list_elem_of_lookup_2, Hj. }
  cbn [uo_set op]. rewrite delete_middle.
  pose proof (no_violation (l1 ++ l2) (record ∪ d) (union_record_key d) Hnone) as Hv.
  rewrite Hv. f_equal.
  rewrite insert_app_r_alt by lia. now rewrite Nat.sub_diag.
Qed.

(** Under the unique index, the document with the key is the only one. *)
Lemma unique_split (stored : list document) (i : nat) (d : document) :
  NoDup (map (Mongo.index_key f) stored) ->
  stored !! i = Some d ->
  d !! f = Some v ->
  Forall (fun x : document => x !! f <> Some v) (take i stored ++ drop (Datatypes.S i) stored).
Proof.
  intros Hnd Hi Hd.
  rewrite <- (take_drop_middle stored i d Hi) in Hnd.
  rewrite map_app in Hnd. simpl in Hnd.
  apply NoDup_app in Hnd as (_ & Hcross & Hnd2).
  apply NoDup_cons in Hnd2 as [Hnotin _].
  rewrite (proj2 (index_key_iff d) Hd) in Hcross, Hnotin.
  apply Forall_app. split; apply Forall_forall; intros x Hx Hxv.
  - apply (Hcross v); [|apply list_elem_of_here].
    rewrite <- (proj2 (index_key_iff x) Hxv).
    apply list_elem_of_In, in_map, list_elem_of_In, Hx.
  - apply Hnotin. rewrite <- (proj2 (index_key_iff x) Hxv).
    apply list_elem_of_In, in_map, list_elem_of_In, Hx.
Qed.

End upsert.

End UpsertFacts.

(** In upsert mode the writer reports what the store reports: the sum of
    the upserted and the modified documents. *)
Lemma bulk_insert_upsert_reports {S : Type} `{Storage S} (name : string)
    (documents : list document) (key : option string) (k : string)
    (operations : list UpdateOne) (w : world S) (s s' : S) (res : BulkWriteResult) :
  documents <> [] ->
  db w = Some s ->
  upsert_mode key = Some k ->
  build_operations k documents = Ok operations ->
  bulk_write name operations s = (s', Ok res) ->
  bulk_insert name documents key w =
    (mk_world (Some s')
       (log w ++ [MongoFacts.inserted_line name (upserted_count res + modified_count res)]),
     Ok (upserted_count res + modified_count res)).
Proof.
  intros Hne Hdb Hmode Hops Hbw.
  erewrite bulk_insert_passes; [reflexivity | exact Hne |].
  unfold bulk_insert_try. rewrite Hdb, Hmode, Hops, Hbw. reflexivity.
Qed.

Module SessionUpsert.

Definition result_of (o : Mongo.write_outcome) : BulkWriteResult :=
  let t := Mongo.count_outcome o (Mongo.mk_tally 0 0 0 0) in
  mk_BulkWriteResult (Mongo.n_upserted t) (Mongo.n_modified t) (Mongo.n_matched t).

Lemma bulk_write_one (name : string) (o : UpdateOne) (dbs : Mongo.database)
    (stored stored' : list document) (u : option string) (out : Mongo.write_outcome) :
  Mongo.get_collection name dbs = Mongo.mk_collection stored u ->
  Mongo.update_one u o stored = (stored', out) ->
  out <> Mongo.WriteError ->
  Mongo.bulk_write name [o] dbs =
    (<[name := Mongo.mk_collection stored' u]> dbs, Ok (result_of out)).
Proof.
  intros Hc Hupd Hout. unfold Mongo.bulk_write. rewrite Hc. simpl.
  rewrite Hupd. destruct out; simpl; try reflexivity. congruence.
Qed.

(** C6: with the unique index on [session_key] in place, writing the
    same session record twice by upsert on [session_key] leaves exactly
    one document with that key; the second write changes nothing; and
    each call returns the sum of the upserted and the modified counts
    that the store reports (0 for the second call). *)
Theorem upsert_session_idempotent (dbs : Mongo.database) (lg : list log_entry)
    (record : document) (k : Z) :
  let c := Mongo.get_collection "sessions" dbs in
  let operations := [mk_UpdateOne {[ "session_key" := VInt k ]} record true] in
  let line n := MongoFacts.inserted_line "sessions" n in
  Mongo.unique_key c = Some "session_key" ->
  Mongo.unique_ok c ->
  record !! "session_key" = Some (VInt k) ->
  exists dbs1 res1 res2,
    let n1 := upserted_count res1 + modified_count res1 in
    let n2 := upserted_count res2 + modified_count res2 in
    Mongo.bulk_write "sessions" operations dbs = (dbs1, Ok res1) /\
    Mongo.bulk_write "sessions" operations dbs1 = (dbs1, Ok res2) /\
    bulk_insert "sessions" [record] (Some "session_key") (mk_world (Some dbs) lg)
      = (mk_world (Some dbs1) (lg ++ [line n1]), Ok n1) /\
    bulk_insert "sessions" [record] (Some "session_key")
      (mk_world (Some dbs1) (lg ++ [line n1]))
      = (mk_world (Some dbs1) ((lg ++ [line n1]) ++ [line n2]), Ok n2) /\
    n2 = 0 /\
    Mongo.count_key "session_key" (VInt k)
      (Mongo.docs (Mongo.get_collection "sessions" dbs1)) = 1%nat.
Proof.
  intros c operations line Hu Hok Hrec.
  assert (Hnn : VInt k <> VNone) by discriminate.
  assert (Hc : c = Mongo.mk_collection (Mongo.docs c) (Some "session_key")).
  { destruct c as [st u]. simpl in Hu. now subst u. }
  (* the state after the first write: one document [d'] carries the key *)
  assert (exists l1 l2 d' out,
             Mongo.update_one (Some "session_key")
               (UpsertFacts.op "session_key" (VInt k) record) (Mongo.docs c)
             = ((l1 ++ d' :: l2)%list, out)
             /\ out <> Mongo.WriteError
             /\ Forall (fun x : document => x !! "session_key" <> Some (VInt k)) (l1 ++ l2)
             /\ d' !! "session_key" = Some (VInt k)
             /\ record ∪ d' = d') as (l1 & l2 & d' & out & Hupd & Hout & Hnone & Hd' & Hstable).
  { destruct (list_find (Mongo.matches {[ "session_key" := VInt k ]}) (Mongo.docs c))
      as [[i d]|] eqn:Hfind.
    - apply list_find_Some in Hfind as (Hi & Hm & _).
      apply UpsertFacts.matches_iff in Hm.
      unfold Mongo.unique_ok in Hok. rewrite Hu in Hok.
      pose proof (UpsertFacts.unique_split "session_key" (VInt k) Hnn record Hrec
                    (Mongo.docs c) i d Hok Hi Hm) as Hnone.
      exists (take i (Mongo.docs c)), (drop (Datatypes.S i) (Mongo.docs c)), (record ∪ d).
      eexists. split; [|split; [|split; [|split]]].
      + rewrite <- (take_drop_middle (Mongo.docs c) i d Hi) at 1.
        apply (UpsertFacts.update_one_present "session_key" (VInt k) Hnn record Hrec);
          assumption.
      + discriminate.
      + exact Hnone.
      + now apply UpsertFacts.union_record_key.
      + apply UpsertFacts.union_record_twice.
    - apply list_find_None in Hfind.
      assert (Hnone : Forall (fun x : document => x !! "session_key" <> Some (VInt k))
                        (Mongo.docs c)).
      { eapply Forall_impl; [exact Hfind |]. intros x Hx Hxv. apply Hx.
        now apply UpsertFacts.matches_iff. }
      exists (Mongo.docs c), [], record. eexists. split; [|split; [|split; [|split]]].
      + apply (UpsertFacts.update_one_fresh "session_key" (VInt k) Hnn record Hrec).
        exact Hnone.
      + discriminate.
      + now rewrite app_nil_r.
      + exact Hrec.
      + apply (idemp_L (∪)). }
  set (c1 := Mongo.mk_collection (l1 ++ d' :: l2) (Some "session_key")).
  set (dbs1 := <["sessions" := c1]> dbs).
  assert (Hc1 : Mongo.get_collection "sessions" dbs1 = c1).
  { unfold Mongo.get_collection, dbs1. now rewrite lookup_insert_eq. }
  assert (Hbw1 : Mongo.bulk_write "sessions" operations dbs
                 = (dbs1, Ok (result_of out))).
  { apply (bulk_write_one "sessions" _ dbs (Mongo.docs c)); [exact Hc | exact Hupd | exact Hout]. }
  assert (Hbw2 : Mongo.bulk_write "sessions" operations dbs1
                 = (dbs1, Ok (result_of (Mongo.Matched false)))).
  { unfold operations.
    rewrite (bulk_write_one "sessions" _ dbs1 (l1 ++ d' :: l2) (l1 ++ d' :: l2)
               (Some "session_key") (Mongo.Matched false)).
    - unfold dbs1. now rewrite insert_insert_eq.
    - exact Hc1.
    - change (mk_UpdateOne {[ "session_key" := VInt k ]} record true)
        with (UpsertFacts.op "session_key" (VInt k) record).
      rewrite (UpsertFacts.update_one_present "session_key" (VInt k) Hnn record Hrec
                 l1 l2 d' Hnone Hd').
      rewrite Hstable. now rewrite bool_decide_eq_false_2 by (intros Hne; now apply Hne).
    - discriminate. }
  exists dbs1, (result_of out), (result_of (Mongo.Matched false)).
  cbv zeta. split; [exact Hbw1 |]. split; [exact Hbw2 |]. split; [|split; [|split]].
  - apply (bulk_insert_upsert_reports "sessions" [record] (Some "session_key")
             "session_key" operations (mk_world (Some dbs) lg) dbs dbs1);
      [discriminate | reflexivity | reflexivity | | exact Hbw1].
    simpl. now rewrite Hrec.
  - apply (bulk_insert_upsert_reports "sessions" [record] (Some "session_key")
             "session_key" operations
             (mk_world (Some dbs1) (lg ++ [line _])) dbs1 dbs1);
      [discriminate | reflexivity | reflexivity | | exact Hbw2].
    simpl. now rewrite Hrec.
  - reflexivity.
  - rewrite Hc1. simpl.
    apply (UpsertFacts.count_key_one "session_key" (VInt k)); assumption.
Qed.

End SessionUpsert.

(** The session is written to an empty database in which [ensure_indexes]
    has declared the unique index: the first write stores it and returns
    1, the second returns 0, and one document is stored. *)
Lemma upsert_session_idempotent_witness :
  let record : document :=
    {[ "session_key" := VInt 9662; "session_name" := VStr "Race" ]} in
  let dbs : Mongo.database :=
    {[ "sessions" := Mongo.mk_collection [] (Some "session_key") ]} in
  exists dbs1 n1,
    bulk_insert "sessions" [record] (Some "session_key") (mk_world (Some dbs) [])
      = (mk_world (Some dbs1) [MongoFacts.inserted_line "sessions" n1], Ok n1)
    /\ bulk_insert "sessions" [record] (Some "session_key")
         (mk_world (Some dbs1) [MongoFacts.inserted_line "sessions" n1])
      = (mk_world (Some dbs1)
           [MongoFacts.inserted_line "sessions" n1; MongoFacts.inserted_line "sessions" 0],
         Ok 0)
    /\ Mongo.count_key "session_key" (VInt 9662)
         (Mongo.docs (Mongo.get_collection "sessions" dbs1)) = 1%nat.
Proof.
  intros record dbs.
  destruct (SessionUpsert.upsert_session_idempotent dbs [] record 9662
              eq_refl (NoDup_nil_2 (A := value)) eq_refl)
    as (dbs1 & res1 & res2 & _ & _ & Hrun1 & Hrun2 & Hn2 & Hcount).
  exists dbs1, (upserted_count res1 + modified_count res1).
  cbv zeta in Hrun2, Hn2. rewrite Hn2 in Hrun2.
  split; [exact Hrun1 |]. split; [exact Hrun2 | exact Hcount].
Defined.

(** ** Session discovery *)

(** The order of Python strings. *)
Lemma string_compare_refl (a : string) : String.compare a a = Datatypes.Eq.
Proof.
  induction a as [|c a IH]; [reflexivity |]. simpl.
  unfold Ascii.compare. rewrite N.compare_refl. exact IH.
Qed.

Lemma string_compare_lt_trans (a : string) : forall b c,
  String.compare a b = Datatypes.Lt -> String.compare b c = Datatypes.Lt ->
  String.compare a c = Datatypes.Lt.
Proof.
  induction a as [|x a IH]; intros [|y b] [|z c]; simpl; try discriminate; auto.
  unfold Ascii.compare.
  destruct (N.compare_spec (N_of_ascii x) (N_of_ascii y)) as [Hxy | Hxy | Hxy];
    destruct (N.compare_spec (N_of_ascii y) (N_of_ascii z)) as [Hyz | Hyz | Hyz];
    try discriminate; intros Hab Hbc.
  - rewrite Hxy, Hyz, N.compare_refl. now apply (IH b c).
  - rewrite Hxy. now apply N.compare_lt_iff in Hyz as ->.
  - rewrite <- Hyz. now apply N.compare_lt_iff in Hxy as ->.
  - assert (N_of_ascii x < N_of_ascii z)%N as Hxz by lia.
    now apply N.compare_lt_iff in Hxz as ->.
Qed.

Lemma string_leb_refl (a : string) : String.leb a a = true.
Proof. unfold String.leb. now rewrite string_compare_refl. Qed.

Lemma string_ltb_leb (a b : string) : String.ltb a b = true -> String.leb a b = true.
Proof. unfold String.leb, String.ltb. now destruct (String.compare a b). Qed.

Lemma string_leb_trans (a b c : string) :
  String.leb a b = true -> String.leb b c = true -> String.leb a c = true.
Proof.
  unfold String.leb. intros Hab Hbc.
  destruct (String.compare a b) eqn:Eab; try discriminate.
  - apply String.compare_eq_iff in Eab as ->. exact Hbc.
  - destruct (String.compare b c) eqn:Ebc; try discriminate.
    + apply String.compare_eq_iff in Ebc as <-. now rewrite Eab.
    + now rewrite (string_compare_lt_trans a b c Eab Ebc).
Qed.

Lemma string_not_ltb_leb (a b : string) :
  String.ltb a b = false -> String.leb b a = true.
Proof.
  unfold String.leb, String.ltb. rewrite (String.compare_antisym a b).
  destruct (String.compare b a); simpl; congruence.
Qed.

(** The start date of a candidate session, as the upstream API writes it. *)
Definition date_start_of (s : item) : option string :=
  match s !! "date_start" with
  | Some (VStr x) => Some x
  | _ => None
  end.

(** A candidate that has the three fields that session discovery reads. *)
Definition candidate (s : item) : Prop :=
  is_Some (date_start_of s) /\ is_Some (s !! "session_name")
  /\ is_Some (s !! "location").

(** [s] starts no later than [latest]. *)
Definition not_after (s latest : item) : Prop :=
  exists x y, date_start_of s = Some x /\ date_start_of latest = Some y
              /\ String.leb x y = true.

Section session_discovery.
Context {S : Type} `{Storage S} `{Collaborators}.

Definition sessions_url : string :=
  config.OPENF1_BASE_URL ++ "/sessions?session_type=Race&year=2024".

Lemma date_start_getitem (s : item) (x : string) :
  date_start_of s = Some x -> getitem s "date_start" = Ok (VStr x).
Proof.
  unfold date_start_of, getitem.
  destruct (s !! "date_start") as [[]|]; try discriminate. now intros [= ->].
Qed.

(** The loop of [max] keeps an element that no seen element exceeds. *)
Lemma max_by_date_start_spec (rest : list item) :
  forall (best : item) (x : string),
    date_start_of best = Some x ->
    Forall candidate rest ->
    exists latest,
      max_by_date_start best (VStr x) rest = Ok latest
      /\ latest ∈ best :: rest
      /\ not_after best latest
      /\ Forall (fun s => not_after s latest) rest.
Proof.
  induction rest as [|s rest IH]; intros best x Hbest Hrest.
  - exists best. repeat split; [apply list_elem_of_here | | constructor].
    exists x, x. auto using string_leb_refl.
  - apply Forall_cons in Hrest as [Hs Hrest].
    destruct Hs as ([y Hy] & _ & _).
    simpl. rewrite (date_start_getitem s y Hy). simpl.
    destruct (String.ltb x y) eqn:Hlt.
    + destruct (IH s y Hy Hrest) as (latest & Hrun & Hin & Hle & Hall).
      exists latest. split; [exact Hrun |]. split; [|split].
      * now apply list_elem_of_further.
      * destruct Hle as (y' & z & Hy' & Hz & Hyz).
        exists x, z. repeat split; try assumption.
        rewrite Hy in Hy'. injection Hy' as <-.
        apply (string_leb_trans x y z); [now apply string_ltb_leb | exact Hyz].
      * constructor; assumption.
    + destruct (IH best x Hbest Hrest) as (latest & Hrun & Hin & Hle & Hall).
      exists latest. split; [exact Hrun |]. split; [|split].
      * apply elem_of_cons in Hin as [-> | Hin];
          [apply list_elem_of_here | now do 2 apply list_elem_of_further].
      * exact Hle.
      * constructor; [|exact Hall].
        destruct Hle as (x' & z & Hx' & Hz & Hxz).
        rewrite Hbest in Hx'. injection Hx' as <-.
        exists y, z. repeat split; try assumption.
        apply (string_leb_trans y x z); [now apply string_not_ltb_leb | exact Hxz].
Qed.

End session_discovery.

Section session_discovery_claim.
Context {S : Type} `{Storage S} `{Collaborators}.

(** What [run_test_ingestion] does with the session it has found. *)
Definition proceed_with (latest_session : item) (w : world S) : world S * result unit :=
  match getitem latest_session "session_key" with
  | Raise e => (w, Raise e)
  | Ok session_key =>
      match Session_model latest_session with
      | Raise e => (w, Raise e)
      | Ok session_doc =>
          match bulk_insert "sessions" [session_doc] (Some "session_key") w with
          | (w, Raise e) => (w, Raise e)
          | (w, Ok _) =>
              match ingest_session_data session_key w with
              | (w, Raise e) => (w, Raise e)
              | (w, Ok _) =>
                  (logger SUCCESS "Test data ingestion completed successfully!" w, Ok tt)
              end
          end
      end
  end.

Definition found_line (name location : value) : log_entry :=
  (INFO, "Found latest race: " ++ py_str name ++ " - " ++ py_str location).

(** C5: when the discovery fetch answers 200 with a non-empty list of
    candidate sessions, the session with the greatest [date_start] is
    selected and the run goes on with it; when the fetch answers
    another status or an empty list, discovery raises, the run stops
    with that error before anything is written, and the process exits
    with status 1. *)
Theorem latest_session_selected (w : world S) :
  let response := http_get sessions_url in
  (status response = 200 -> json response <> [] ->
   Forall candidate (json response) ->
   exists latest name location,
     latest !! "session_name" = Some name
     /\ latest !! "location" = Some location
     /\ fetch_latest_session w =
          (mk_world (db w) (log w ++ [found_line name location]), Ok latest)
     /\ latest ∈ json response
     /\ Forall (fun s => not_after s latest) (json response)
     /\ run_test_ingestion_try w =
          proceed_with latest (mk_world (db w) (log w ++ [found_line name location])))
  /\
  (status response <> 200 \/ json response = [] ->
   fetch_latest_session w = (w, Raise could_not_fetch)
   /\ run_test_ingestion w =
        (mk_world (db w)
           (log w ++ [(INFO, "Starting test data ingestion...");
                      (ERROR, "Test ingestion failed: Could not fetch latest session")]),
         Raise could_not_fetch)
   /\ db (fst (main w)) = db w
   /\ snd (main w) = 1).
Proof.
  intros response. split.
  - intros Hstatus Hne Hall.
    destruct (json response) as [|first rest] eqn:Hjson; [congruence |].
    pose proof Hall as Hall'.
    apply Forall_cons in Hall' as [Hfirst Hrest].
    destruct Hfirst as ([x Hx] & _ & _).
    destruct (max_by_date_start_spec rest first x Hx Hrest)
      as (latest & Hmax & Hin & Hle & Hothers).
    rewrite Forall_forall in Hall.
    destruct (Hall latest Hin) as (_ & [name Hname] & [location Hloc]).
    assert (Hfetch : fetch_latest_session w =
              (mk_world (db w) (log w ++ [found_line name location]), Ok latest)).
    { unfold fetch_latest_session. fold sessions_url. fold response.
      rewrite Hstatus, Hjson. simpl.
      rewrite (date_start_getitem first x Hx). simpl. rewrite Hmax. simpl.
      unfold getitem. rewrite Hname, Hloc. reflexivity. }
    exists latest, name, location.
    split; [exact Hname |]. split; [exact Hloc |]. split; [exact Hfetch |].
    split; [exact Hin |]. split; [now constructor |].
    unfold run_test_ingestion_try. rewrite Hfetch. reflexivity.
  - intros Hfail.
    assert (Hfetch : forall w' : world S,
               fetch_latest_session w' = (w', Raise could_not_fetch)).
    { intros w'. unfold fetch_latest_session. fold sessions_url. fold response.
      destruct Hfail as [Hstatus | Hempty].
      - apply Z.eqb_neq in Hstatus. now rewrite Hstatus.
      - rewrite Hempty. now destruct (status response =? 200). }
    assert (Hrun : forall w' : world S,
               run_test_ingestion w' =
                 (mk_world (db w')
                    (log w' ++ [(INFO, "Starting test data ingestion...");
                                (ERROR, "Test ingestion failed: Could not fetch latest session")]),
                  Raise could_not_fetch)).
    { intros w'. unfold run_test_ingestion, run_test_ingestion_try.
      rewrite Hfetch. unfold logger. simpl. now rewrite <- app_assoc. }
    split; [apply Hfetch |]. split; [apply Hrun |].
    unfold main. rewrite Hrun. split; reflexivity.
Qed.

End session_discovery_claim.

(** ** Batching: what the loops of the ingesters hand to the writer *)

(** The chunks that a loop flushes when it is fed the documents [docs]
    with [pending] documents waiting, and the documents left waiting. *)
Fixpoint chunking (pending : list document) (docs : list document)
  : list (list document) * list document :=
  match docs with
  | [] => ([], pending)
  | d :: rest =>
      let pending := (pending ++ [d])%list in
      if config.BATCH_SIZE <=? len pending then
        let '(chunks, waiting) := chunking [] rest in (pending :: chunks, waiting)
      else chunking pending rest
  end.

(** The same on sizes alone. *)
Fixpoint chunk_sizes (pending : Z) (n : nat) : list Z * Z :=
  match n with
  | O => ([], pending)
  | Datatypes.S n' =>
      let pending := pending + 1 in
      if config.BATCH_SIZE <=? pending then
        let '(sizes, waiting) := chunk_sizes 0 n' in (pending :: sizes, waiting)
      else chunk_sizes pending n'
  end.

Lemma chunking_sizes (docs : list document) : forall pending : list document,
  (map len (fst (chunking pending docs)), len (snd (chunking pending docs)))
  = chunk_sizes (len pending) (length docs).
Proof.
  induction docs as [|d docs IH]; intros pending; [reflexivity |].
  simpl. replace (len (pending ++ [d])) with (len pending + 1)
    by (unfold len; rewrite length_app; simpl; lia).
  destruct (config.BATCH_SIZE <=? len pending + 1).
  - specialize (IH []). change (len []) with 0 in IH.
    destruct (chunking [] docs) as [chunks waiting].
    destruct (chunk_sizes 0 (length docs)) as [sizes waiting'].
    simpl in *. injection IH as -> ->.
    replace (len (pending ++ [d])) with (len pending + 1)
      by (unfold len; rewrite length_app; simpl; lia).
    reflexivity.
  - specialize (IH (pending ++ [d])%list).
    replace (len (pending ++ [d])) with (len pending + 1) in IH
      by (unfold len; rewrite length_app; simpl; lia).
    exact IH.
Qed.

Lemma chunking_members (docs : list document) : forall (pending : list document) d,
  (exists chunk, chunk ∈ fst (chunking pending docs) /\ d ∈ chunk)
  \/ d ∈ snd (chunking pending docs) ->
  d ∈ (pending ++ docs)%list.
Proof.
  induction docs as [|x docs IH]; intros pending d.
  - simpl. intros [(chunk & Hc & _) | Hd]; [inversion Hc | now rewrite app_nil_r].
  - simpl. destruct (config.BATCH_SIZE <=? len (pending ++ [x])).
    + specialize (IH [] d).
      destruct (chunking [] docs) as [chunks waiting]. simpl in *.
      intros [(chunk & Hc & Hd) | Hd].
      * apply elem_of_cons in Hc as [-> | Hc].
        -- apply elem_of_app in Hd as [Hd | Hd]; [set_solver |].
           apply list_elem_of_singleton in Hd as ->. set_solver.
        -- assert (d ∈ docs) by (apply IH; eauto). set_solver.
      * assert (d ∈ docs) by (apply IH; eauto). set_solver.
    + intros Hd. specialize (IH (pending ++ [x])%list d Hd).
      rewrite <- app_assoc in IH. exact IH.
Qed.

Section batching.
Context {S : Type} `{Storage S} `{Collaborators}.

(** The loop body up to the model: timestamp coercion, then the model. *)
Definition validated (field : string) (model : item -> result document)
    (it : item) : result document :=
  let* it' := coerce_date field it in model it'.

(** The record passes validation. *)
Definition passes (field : string) (model : item -> result document)
    (it : item) : bool :=
  is_ok (validated field model it).

(** The documents of the records that pass, in the order of the fetch. *)
Definition dumps (field : string) (model : item -> result document)
    (data : list item) : list document :=
  omap (fun it => match validated field model it with
                  | Ok doc => Some doc
                  | Raise _ => None
                  end) data.

Lemma length_dumps field model (data : list item) :
  length (dumps field model data) = length (List.filter (passes field model) data).
Proof.
  induction data as [|it data IH]; [reflexivity |].
  unfold dumps in *. cbn [omap list_omap List.filter]. unfold passes at 1.
  destruct (validated field model it); cbn [is_ok length]; now rewrite IH.
Qed.

(** The store after a call of the writer depends on the store only. *)
Definition write_db (name : string) (documents : list document) (st : option S)
  : option S :=
  db (fst (bulk_insert name documents None (mk_world st []))).

Lemma bulk_insert_db (name : string) (documents : list document) (w : world S) :
  db (fst (bulk_insert name documents None w)) = write_db name documents (db w).
Proof.
  destruct w as [st lg].
  unfold write_db, bulk_insert. destruct documents as [|d documents]; [reflexivity |].
  unfold bulk_insert_try. simpl db. destruct st as [s|]; [|reflexivity].
  simpl upsert_mode. cbv iota.
  destruct (insert_many name (d :: documents) s) as [s' [res | e]]; [reflexivity |].
  unfold on_bulk_error.
  destruct (str_contains "duplicate key error" (exn_msg e)); [|reflexivity].
  destruct (exn_details e); try reflexivity;
    match goal with
    | |- context [if ?c then _ else _] => destruct c; reflexivity
    end.
Qed.

(** The store after a loop has been fed [docs]. *)
Fixpoint feed (name : string) (docs : list document) (pending : list document)
    (st : option S) : option S * list document :=
  match docs with
  | [] => (st, pending)
  | d :: rest =>
      let pending := (pending ++ [d])%list in
      if config.BATCH_SIZE <=? len pending
      then feed name rest [] (write_db name pending st)
      else feed name rest pending st
  end.

Lemma feed_pending name (docs : list document) : forall (pending : list document) st,
  snd (feed name docs pending st) = snd (chunking pending docs).
Proof.
  induction docs as [|d docs IH]; intros pending st; [reflexivity |].
  simpl. destruct (config.BATCH_SIZE <=? len (pending ++ [d])).
  - rewrite IH. now destruct (chunking [] docs).
  - apply IH.
Qed.

(** [if pending: await self.db.bulk_insert(name, pending)] on the store. *)
Definition flush_db (name : string) (pending : list document) (st : option S)
  : option S :=
  match pending with
  | [] => st
  | _ :: _ => write_db name pending st
  end.

Lemma flush_remaining_spec name (pending : list document) (w : world S) :
  exists w', flush_remaining name pending w = (w', Ok tt)
             /\ db w' = flush_db name pending (db w).
Proof.
  unfold flush_remaining, flush_db. destruct pending as [|d pending]; [eauto |].
  pose proof (bulk_insert_db name (d :: pending) w) as Hdb.
  destruct (bulk_insert_returns name (d :: pending) None w) as (w' & n & Hrun).
  rewrite Hrun in *. eauto.
Qed.

End batching.

Section loops.
Context {S : Type} `{Storage S} `{Collaborators}.

Lemma feed_app name (d1 d2 : list document) : forall (pending : list document) st,
  feed name (d1 ++ d2) pending st =
    feed name d2 (snd (feed name d1 pending st)) (fst (feed name d1 pending st)).
Proof.
  induction d1 as [|d d1 IH]; intros pending st; [reflexivity |].
  simpl. destruct (config.BATCH_SIZE <=? len (pending ++ [d])); apply IH.
Qed.

Lemma dumps_cons field model (it : item) (data : list item) :
  dumps field model (it :: data) = (dumps field model [it] ++ dumps field model data)%list.
Proof.
  unfold dumps. cbn [omap list_omap].
  now destruct (validated field model it).
Qed.

(** One turn of a loop, on the store and the pending chunk. *)
Definition turn (name field : string) (model : item -> result document)
    (it : item) (pending : list document) (st : option S)
  : option S * list document :=
  feed name (dumps field model [it]) pending st.

Lemma turn_fail name field model it pending st e :
  validated field model it = Raise e ->
  turn name field model it pending st = (st, pending).
Proof. intros Hv. unfold turn, dumps. cbn [omap list_omap]. now rewrite Hv. Qed.

Lemma turn_pass name field model it pending st doc :
  validated field model it = Ok doc ->
  turn name field model it pending st =
    if config.BATCH_SIZE <=? len (pending ++ [doc])
    then (write_db name (pending ++ [doc]) st, [])
    else (st, (pending ++ [doc])%list).
Proof.
  intros Hv. unfold turn, dumps. cbn [omap list_omap]. rewrite Hv. simpl.
  now destruct (config.BATCH_SIZE <=? len (pending ++ [doc])).
Qed.

Lemma on_lap_error_db it e laps (w : world S) : db (on_lap_error it e laps w) = db w.
Proof.
  unfold on_lap_error.
  destruct (len laps <? 3); [reflexivity |]. now destruct (len laps =? 3).
Qed.

Lemma laps_body_spec (it : item) (laps : list document) (w : world S) :
  exists w' laps',
    laps_body it laps w = (w', laps', coerced "date_start" it)
    /\ (db w', laps') = turn "laps" "date_start" Lap_model it laps (db w).
Proof.
  unfold laps_body, coerced.
  destruct (coerce_date "date_start" it) as [it' | e] eqn:Hc.
  - destruct (Lap_model it') as [doc | e] eqn:Hm.
    + rewrite (turn_pass "laps" "date_start" Lap_model it laps (db w) doc)
        by (unfold validated; now rewrite Hc).
      destruct (config.BATCH_SIZE <=? len (laps ++ [doc])); [|eauto].
      pose proof (bulk_insert_db "laps" (laps ++ [doc]) w) as Hdb.
      destruct (bulk_insert_returns "laps" (laps ++ [doc]) None w) as (w' & n & Hrun).
      rewrite Hrun in *. simpl in Hdb. do 2 eexists. split; [reflexivity |].
      simpl. now rewrite Hdb.
    + rewrite (turn_fail "laps" "date_start" Lap_model it laps (db w) e)
        by (unfold validated; now rewrite Hc).
      do 2 eexists. split; [reflexivity |]. now rewrite on_lap_error_db.
  - rewrite (turn_fail "laps" "date_start" Lap_model it laps (db w) e)
      by (unfold validated; now rewrite Hc).
    do 2 eexists. split; [reflexivity |]. now rewrite on_lap_error_db.
Qed.

Lemma laps_loop_spec (data : list item) : forall (laps : list document) (w : world S),
  exists w' laps',
    laps_loop data laps w = (w', laps', map (coerced "date_start") data)
    /\ (db w', laps') = feed "laps" (dumps "date_start" Lap_model data) laps (db w).
Proof.
  induction data as [|it data IH]; intros laps w.
  - do 2 eexists. split; reflexivity.
  - destruct (laps_body_spec it laps w) as (w1 & laps1 & Hbody & Hturn).
    destruct (IH laps1 w1) as (w2 & laps2 & Hloop & Hfeed).
    exists w2, laps2. split.
    + simpl. rewrite Hbody, Hloop. reflexivity.
    + rewrite dumps_cons, feed_app. fold (turn "laps" "date_start" Lap_model it laps (db w)).
      rewrite <- Hturn. exact Hfeed.
Qed.

Lemma positions_body_spec (it : item) (positions : list document) (w : world S) :
  exists w' positions',
    positions_body it positions w = (w', positions')
    /\ (db w', positions') = turn "positions" "date" Position_model it positions (db w).
Proof.
  unfold positions_body.
  destruct (coerce_date "date" it) as [it' | e] eqn:Hc.
  - destruct (Position_model it') as [doc | e] eqn:Hm.
    + rewrite (turn_pass "positions" "date" Position_model it positions (db w) doc)
        by (unfold validated; now rewrite Hc).
      destruct (config.BATCH_SIZE <=? len (positions ++ [doc])); [|eauto].
      pose proof (bulk_insert_db "positions" (positions ++ [doc]) w) as Hdb.
      destruct (bulk_insert_returns "positions" (positions ++ [doc]) None w)
        as (w' & n & Hrun).
      rewrite Hrun in *. simpl in Hdb. do 2 eexists. split; [reflexivity |].
      simpl. now rewrite Hdb.
    + rewrite (turn_fail "positions" "date" Position_model it positions (db w) e)
        by (unfold validated; now rewrite Hc).
      do 2 eexists. split; reflexivity.
  - rewrite (turn_fail "positions" "date" Position_model it positions (db w) e)
      by (unfold validated; now rewrite Hc).
    do 2 eexists. split; reflexivity.
Qed.

Lemma positions_loop_spec (data : list item) :
  forall (positions : list document) (w : world S),
  exists w' positions',
    positions_loop data positions w = (w', positions')
    /\ (db w', positions')
       = feed "positions" (dumps "date" Position_model data) positions (db w).
Proof.
  induction data as [|it data IH]; intros positions w.
  - do 2 eexists. split; reflexivity.
  - destruct (positions_body_spec it positions w) as (w1 & p1 & Hbody & Hturn).
    destruct (IH p1 w1) as (w2 & p2 & Hloop & Hfeed).
    exists w2, p2. split.
    + simpl. rewrite Hbody. exact Hloop.
    + rewrite dumps_cons, feed_app.
      fold (turn "positions" "date" Position_model it positions (db w)).
      rewrite <- Hturn. exact Hfeed.
Qed.

End loops.

Section more_loops.
Context {S : Type} `{Storage S} `{Collaborators}.

Lemma on_interval_error_db it intervals (w : world S) :
  db (on_interval_error it intervals w) = db w.
Proof.
  unfold on_interval_error.
  destruct (len intervals <? 3); [reflexivity |]. now destruct (len intervals =? 3).
Qed.

Lemma intervals_body_spec (total : Z) (it : item) (intervals : list document)
    (progress_count : Z) (w : world S) :
  exists w' intervals' progress_count',
    intervals_body total it intervals progress_count w
      = (w', intervals', progress_count', coerced "date" it)
    /\ (db w', intervals') = turn "intervals" "date" Interval_model it intervals (db w).
Proof.
  unfold intervals_body, coerced.
  destruct (coerce_date "date" it) as [it' | e] eqn:Hc.
  - destruct (Interval_model it') as [doc | e] eqn:Hm.
    + rewrite (turn_pass "intervals" "date" Interval_model it intervals (db w) doc)
        by (unfold validated; now rewrite Hc).
      destruct (config.BATCH_SIZE <=? len (intervals ++ [doc])); [|eauto].
      pose proof (bulk_insert_db "intervals" (intervals ++ [doc]) w) as Hdb.
      destruct (bulk_insert_returns "intervals" (intervals ++ [doc]) None w)
        as (w' & n & Hrun).
      rewrite Hrun in *. simpl in Hdb. do 3 eexists. split; [reflexivity |].
      rewrite <- Hdb.
      now destruct ((progress_count + config.BATCH_SIZE) mod (config.BATCH_SIZE * 5) =? 0).
    + rewrite (turn_fail "intervals" "date" Interval_model it intervals (db w) e)
        by (unfold validated; now rewrite Hc).
      do 3 eexists. split; [reflexivity |]. now rewrite on_interval_error_db.
  - rewrite (turn_fail "intervals" "date" Interval_model it intervals (db w) e)
      by (unfold validated; now rewrite Hc).
    do 3 eexists. split; [reflexivity |]. now rewrite on_interval_error_db.
Qed.

Lemma intervals_loop_spec (total : Z) (data : list item) :
  forall (intervals : list document) (progress_count : Z) (w : world S),
  exists w' intervals',
    intervals_loop total data intervals progress_count w
      = (w', intervals', map (coerced "date") data)
    /\ (db w', intervals')
       = feed "intervals" (dumps "date" Interval_model data) intervals (db w).
Proof.
  induction data as [|it data IH]; intros intervals progress_count w.
  - do 2 eexists. split; reflexivity.
  - destruct (intervals_body_spec total it intervals progress_count w)
      as (w1 & i1 & pc1 & Hbody & Hturn).
    destruct (IH i1 pc1 w1) as (w2 & i2 & Hloop & Hfeed).
    exists w2, i2. split.
    + simpl. rewrite Hbody, Hloop. reflexivity.
    + rewrite dumps_cons, feed_app.
      fold (turn "intervals" "date" Interval_model it intervals (db w)).
      rewrite <- Hturn. exact Hfeed.
Qed.

Lemma on_car_data_error_db it e n (w : world S) :
  db (on_car_data_error it e n w) = db w.
Proof.
  unfold on_car_data_error.
  destruct (n <? 3); [reflexivity |]. now destruct (n =? 3).
Qed.

Lemma car_data_body_spec (it : item) (records : list document)
    (successful_count : Z) (w : world S) :
  exists w' records',
    car_data_body it records successful_count w
      = (w', records',
         successful_count + (if passes "date" CarData_model it then 1 else 0))
    /\ (db w', records') = turn "car_data" "date" CarData_model it records (db w).
Proof.
  unfold car_data_body, passes.
  destruct (coerce_date "date" it) as [it' | e] eqn:Hc.
  - destruct (CarData_model it') as [doc | e] eqn:Hm.
    + assert (Hv : validated "date" CarData_model it = Ok doc)
        by (unfold validated; now rewrite Hc).
      rewrite (turn_pass "car_data" "date" CarData_model it records (db w) doc Hv), Hv.
      destruct (config.BATCH_SIZE <=? len (records ++ [doc])); [|eauto].
      pose proof (bulk_insert_db "car_data" (records ++ [doc]) w) as Hdb.
      destruct (bulk_insert_returns "car_data" (records ++ [doc]) None w)
        as (w' & n & Hrun).
      rewrite Hrun in *. simpl in Hdb. do 2 eexists. split; [reflexivity |].
      simpl. now rewrite Hdb.
    + assert (Hv : validated "date" CarData_model it = Raise e)
        by (unfold validated; now rewrite Hc).
      rewrite (turn_fail "car_data" "date" CarData_model it records (db w) e Hv), Hv.
      do 2 eexists. split; [simpl; now rewrite Z.add_0_r |].
      now rewrite on_car_data_error_db.
  - assert (Hv : validated "date" CarData_model it = Raise e)
      by (unfold validated; now rewrite Hc).
    rewrite (turn_fail "car_data" "date" CarData_model it records (db w) e Hv), Hv.
    do 2 eexists. split; [simpl; now rewrite Z.add_0_r |].
    now rewrite on_car_data_error_db.
Qed.

Lemma car_data_loop_spec (data : list item) :
  forall (records : list document) (successful_count : Z) (w : world S),
  exists w' records',
    car_data_loop data records successful_count w
      = (w', records',
         successful_count + len (List.filter (passes "date" CarData_model) data))
    /\ (db w', records')
       = feed "car_data" (dumps "date" CarData_model data) records (db w).
Proof.
  induction data as [|it data IH]; intros records successful_count w.
  - do 2 eexists. split; [simpl; now rewrite Z.add_0_r | reflexivity].
  - destruct (car_data_body_spec it records successful_count w)
      as (w1 & r1 & Hbody & Hturn).
    destruct (IH r1 (successful_count
                     + (if passes "date" CarData_model it then 1 else 0)) w1)
      as (w2 & r2 & Hloop & Hfeed).
    exists w2, r2. split.
    + cbn [car_data_loop]. rewrite Hbody, Hloop. f_equal.
      cbn [List.filter]. destruct (passes "date" CarData_model it); unfold len; simpl; lia.
    + rewrite dumps_cons, feed_app.
      fold (turn "car_data" "date" CarData_model it records (db w)).
      rewrite <- Hturn. exact Hfeed.
Qed.

(** The documents of the drivers that pass validation. *)
Definition driver_dumps (data : list item) : list document :=
  omap (fun it => match Driver_model it with
                  | Ok doc => Some doc
                  | Raise _ => None
                  end) data.

Lemma drivers_loop_spec (data : list item) : forall (drivers : list document) (w : world S),
  exists lg,
    drivers_loop data drivers w
      = (mk_world (db w) (log w ++ lg), (drivers ++ driver_dumps data)%list).
Proof.
  induction data as [|it data IH]; intros drivers w.
  - exists []. simpl. rewrite !app_nil_r. now destruct w.
  - simpl. unfold driver_dumps. cbn [omap list_omap].
    destruct (Driver_model it) as [doc | e].
    + destruct (IH (drivers ++ [doc])%list w) as (lg & ->).
      exists lg. now rewrite <- app_assoc.
    + match goal with
      | |- context [drivers_loop data drivers ?w1] =>
          destruct (IH drivers w1) as (lg & ->)
      end.
      eexists. unfold logger. simpl. rewrite <- app_assoc. reflexivity.
Qed.

End more_loops.

(** ** The ingesters: what they return and what they write *)

Section ingesters.
Context {S : Type} `{Storage S} `{Collaborators}.

Lemma len_map {A B} (g : A -> B) (l : list A) : len (map g l) = len l.
Proof. unfold len. now rewrite length_map. Qed.

Lemma coerce_date_idem (field : string) (it it' : item) :
  coerce_date field it = Ok it' -> coerce_date field it' = Ok it'.
Proof.
  unfold coerce_date.
  destruct (it !! field) as [v|] eqn:Hf.
  - destruct v; try (intros [= <-]; now rewrite Hf).
    destruct (fromisoformat (str_replace_char "Z" "+00:00" s)) as [d | e];
      [|discriminate].
    simpl. intros [= <-]. now rewrite lookup_insert_eq.
  - intros [= <-]. now rewrite Hf.
Qed.

(** Validating an item a second time, as the loop has left it, gives the
    verdict of the loop. *)
Lemma validate_coerced (field : string) (model : item -> result document) (it : item) :
  match coerce_date field (coerced field it) with
  | Raise _ => false
  | Ok it' => is_ok (model it')
  end = passes field model it.
Proof.
  unfold coerced, passes, validated.
  destruct (coerce_date field it) as [it' | e] eqn:Hc.
  - now rewrite (coerce_date_idem field it it' Hc).
  - now rewrite Hc.
Qed.

Lemma count_validated (field : string) (model : item -> result document)
    (check : item -> bool * item) (data : list item) :
  (forall it, fst (check it) = match coerce_date field it with
                               | Raise _ => false
                               | Ok it' => is_ok (model it')
                               end) ->
  List.filter (fun it => fst (check it)) (map (coerced field) data)
  = map (coerced field) (List.filter (passes field model) data).
Proof.
  intros Hcheck. induction data as [|it data IH]; [reflexivity |].
  simpl. rewrite Hcheck, validate_coerced.
  destruct (passes field model it); simpl; now rewrite IH.
Qed.

Definition laps_url (session_key : value) : string :=
  config.OPENF1_BASE_URL ++ "/laps?session_key=" ++ py_str session_key.
Definition intervals_url (session_key : value) : string :=
  config.OPENF1_BASE_URL ++ "/intervals?session_key=" ++ py_str session_key.
Definition position_url (session_key : value) : string :=
  config.OPENF1_BASE_URL ++ "/position?session_key=" ++ py_str session_key.
Definition drivers_url (session_key : value) : string :=
  config.OPENF1_BASE_URL ++ "/drivers?session_key=" ++ py_str session_key.

(** The store after an ingester that flushes the remainder [times]
    times. *)
Definition ingested (name field : string) (model : item -> result document)
    (times : nat) (data : list item) (st : option S) : option S :=
  let fed := feed name (dumps field model data) [] st in
  Nat.iter times (flush_db name (snd fed)) (fst fed).

Lemma ingest_laps_spec (session_key : value) (w : world S) :
  let data := json (http_get (laps_url session_key)) in
  status (http_get (laps_url session_key)) = 200 ->
  exists w',
    ingest_laps session_key w
      = (w', Ok (len (List.filter (passes "date_start" Lap_model) data)))
    /\ db w' = ingested "laps" "date_start" Lap_model 2 data (db w).
Proof.
  intros data Hstatus. unfold ingest_laps. fold (laps_url session_key).
  rewrite Hstatus. cbn [Z.eqb Pos.eqb]. fold data.
  destruct (laps_loop_spec data [] w) as (w1 & laps & Hloop & Hfeed).
  rewrite Hloop.
  destruct (flush_remaining_spec "laps" laps w1) as (w2 & Hf1 & Hdb1).
  rewrite Hf1.
  destruct (flush_remaining_spec "laps" laps w2) as (w3 & Hf2 & Hdb2).
  rewrite Hf2.
  eexists. split.
  - rewrite (count_validated "date_start" Lap_model _validate_lap_item data).
    + rewrite !len_map. reflexivity.
    + intros it. unfold _validate_lap_item.
      now destruct (coerce_date "date_start" it).
  - unfold logger, ingested. simpl db. rewrite Hdb2, Hdb1.
    rewrite <- Hfeed. reflexivity.
Qed.

Lemma ingest_intervals_spec (session_key : value) (w : world S) :
  let data := json (http_get (intervals_url session_key)) in
  status (http_get (intervals_url session_key)) = 200 ->
  exists w',
    ingest_intervals session_key w
      = (w', Ok (len (List.filter (passes "date" Interval_model) data)))
    /\ db w' = ingested "intervals" "date" Interval_model 2 data (db w).
Proof.
  intros data Hstatus. unfold ingest_intervals. fold (intervals_url session_key).
  rewrite Hstatus. cbn [Z.eqb Pos.eqb]. fold data.
  match goal with
  | |- context [intervals_loop ?t data [] 0 ?w0] =>
      destruct (intervals_loop_spec t data [] 0 w0) as (w1 & pending & Hloop & Hfeed)
  end.
  rewrite Hloop. unfold logger in Hfeed. simpl db in Hfeed.
  destruct (flush_remaining_spec "intervals" pending w1) as (w2 & Hf1 & Hdb1).
  rewrite Hf1.
  destruct (flush_remaining_spec "intervals" pending w2) as (w3 & Hf2 & Hdb2).
  rewrite Hf2.
  eexists. split.
  - rewrite (count_validated "date" Interval_model _validate_interval_item data).
    + rewrite !len_map. reflexivity.
    + intros it. unfold _validate_interval_item.
      now destruct (coerce_date "date" it).
  - unfold logger, ingested. simpl db. rewrite Hdb2, Hdb1.
    rewrite <- Hfeed. reflexivity.
Qed.

Lemma ingest_positions_spec (session_key : value) (w : world S) :
  let data := json (http_get (position_url session_key)) in
  status (http_get (position_url session_key)) = 200 ->
  exists w',
    ingest_positions session_key w = (w', Ok (len data))
    /\ db w' = ingested "positions" "date" Position_model 1 data (db w).
Proof.
  intros data Hstatus. unfold ingest_positions. fold (position_url session_key).
  rewrite Hstatus. cbn [Z.eqb Pos.eqb]. fold data.
  destruct (positions_loop_spec data [] w) as (w1 & pending & Hloop & Hfeed).
  rewrite Hloop.
  destruct (flush_remaining_spec "positions" pending w1) as (w2 & Hf1 & Hdb1).
  rewrite Hf1.
  eexists. split; [reflexivity |].
  unfold logger, ingested. simpl db. rewrite Hdb1, <- Hfeed. reflexivity.
Qed.

Lemma process_car_data_batch_spec (data : list item) (w : world S) :
  exists w',
    _process_car_data_batch data w
      = (w', Ok (len (List.filter (passes "date" CarData_model) data)))
    /\ db w' = ingested "car_data" "date" CarData_model 1 data (db w).
Proof.
  unfold _process_car_data_batch.
  destruct (car_data_loop_spec data [] 0 w) as (w1 & pending & Hloop & Hfeed).
  rewrite Hloop.
  destruct (flush_remaining_spec "car_data" pending w1) as (w2 & Hf1 & Hdb1).
  rewrite Hf1.
  eexists. split; [reflexivity |].
  unfold ingested. simpl. rewrite Hdb1, <- Hfeed. reflexivity.
Qed.

(** The drivers ingester hands the documents of the valid drivers to the
    writer in one call and returns the count that the writer returns. *)
Lemma ingest_drivers_spec (session_key : value) (w : world S) :
  let data := json (http_get (drivers_url session_key)) in
  status (http_get (drivers_url session_key)) = 200 ->
  exists w1 lg,
    db w1 = db w
    /\ ingest_drivers session_key w =
         (mk_world (db (fst (written "drivers" (driver_dumps data) None w1)))
            (log (fst (written "drivers" (driver_dumps data) None w1)) ++ lg),
          Ok (snd (written "drivers" (driver_dumps data) None w1))).
Proof.
  intros data Hstatus. unfold ingest_drivers. fold (drivers_url session_key).
  rewrite Hstatus. cbn [Z.eqb Pos.eqb]. fold data.
  match goal with
  | |- context [drivers_loop data [] ?w0] =>
      destruct (drivers_loop_spec data [] w0) as (lg0 & Hloop)
  end.
  rewrite Hloop. simpl app.
  match goal with
  | |- context [bulk_insert "drivers" _ None ?w1] => exists w1
  end.
  rewrite bulk_insert_written. eexists. split; [reflexivity |].
  unfold logger. reflexivity.
Qed.

End ingesters.

(** ** The calls that reach the store *)

(** What [flush_remaining] hands to the store. *)
Definition flushed (name : string) (pending : list document) : list call :=
  match pending with
  | [] => []
  | _ :: _ => [InsertMany name pending]
  end.

Lemma batch_sizes_app (a b : list call) :
  batch_sizes (a ++ b) = (batch_sizes a ++ batch_sizes b)%list.
Proof. unfold batch_sizes. apply omap_app. Qed.

Lemma batch_sizes_chunks (name : string) (chunks : list (list document)) :
  batch_sizes (map (InsertMany name) chunks) = map len chunks.
Proof. induction chunks as [|c chunks IH]; [reflexivity |]. simpl. now rewrite <- IH. Qed.

Lemma batch_sizes_flushed (name : string) (pending : list document) :
  0 < len pending -> batch_sizes (flushed name pending) = [len pending].
Proof. destruct pending; [unfold len; simpl; lia | reflexivity]. Qed.

Lemma filter_all {A} (g : A -> bool) (l : list A) :
  Forall (fun x => g x = true) l -> List.filter g l = l.
Proof. induction 1 as [|x l Hx _ IH]; [reflexivity |]. simpl. now rewrite Hx, IH. Qed.

Lemma filter_none {A} (g : A -> bool) (l : list A) :
  Forall (fun x => g x = false) l -> List.filter g l = [].
Proof. induction 1 as [|x l Hx _ IH]; [reflexivity |]. simpl. now rewrite Hx, IH. Qed.

Section traced.
Context {S : Type} `{Storage S} `{Collaborators}.

Lemma write_db_traced (name : string) (documents : list document) (s : S)
    (tr : list call) :
  documents <> [] ->
  exists s', write_db name documents (Some (s, tr))
             = Some (s', (tr ++ [InsertMany name documents])%list).
Proof.
  intros Hne. destruct documents as [|d documents]; [congruence |].
  unfold write_db, bulk_insert, bulk_insert_try. simpl db. simpl upsert_mode.
  cbv iota. cbn [insert_many traced_storage fst snd].
  destruct (insert_many name (d :: documents) s) as [s' [res | e]]; [simpl; eauto |].
  unfold on_bulk_error.
  destruct (str_contains "duplicate key error" (exn_msg e)); [|simpl; eauto].
  destruct (exn_details e); simpl; eauto;
    match goal with
    | |- context [if ?c then _ else _] => destruct c; simpl; eauto
    end.
Qed.

Lemma feed_traced (name : string) (docs : list document) :
  forall (pending : list document) (s : S) (tr : list call),
  exists s', fst (feed name docs pending (Some (s, tr)))
             = Some (s', (tr ++ map (InsertMany name) (fst (chunking pending docs)))%list).
Proof.
  induction docs as [|d docs IH]; intros pending s tr.
  - exists s. simpl. now rewrite app_nil_r.
  - simpl. destruct (config.BATCH_SIZE <=? len (pending ++ [d])).
    + destruct (write_db_traced name (pending ++ [d]) s tr) as (s1 & ->).
      { now destruct pending. }
      destruct (IH [] s1 (tr ++ [InsertMany name (pending ++ [d])])%list) as (s2 & ->).
      exists s2. destruct (chunking [] docs) as [chunks waiting]. simpl.
      now rewrite <- app_assoc.
    + apply IH.
Qed.

Lemma flush_db_traced (name : string) (pending : list document) (s : S)
    (tr : list call) :
  exists s', flush_db name pending (Some (s, tr))
             = Some (s', (tr ++ flushed name pending)%list).
Proof.
  destruct pending as [|d pending].
  - exists s. simpl. now rewrite app_nil_r.
  - now apply write_db_traced.
Qed.

(** The calls of an ingester that flushes the remainder once or twice. *)
Lemma ingested_once (name field : string) (model : item -> result document)
    (data : list item) (s : S) (tr : list call) :
  let chunks := chunking [] (dumps field model data) in
  exists s',
    ingested name field model 1 data (Some (s, tr))
    = Some (s', (tr ++ map (InsertMany name) (fst chunks)
                    ++ flushed name (snd chunks))%list).
Proof.
  intros chunks. unfold ingested. cbn [Nat.iter nat_rect].
  rewrite feed_pending. fold chunks.
  destruct (feed_traced name (dumps field model data) [] s tr) as (s1 & ->).
  fold chunks.
  destruct (flush_db_traced name (snd chunks) s1
              (tr ++ map (InsertMany name) (fst chunks))%list) as (s2 & ->).
  exists s2. now rewrite <- app_assoc.
Qed.

Lemma ingested_twice (name field : string) (model : item -> result document)
    (data : list item) (s : S) (tr : list call) :
  let chunks := chunking [] (dumps field model data) in
  exists s',
    ingested name field model 2 data (Some (s, tr))
    = Some (s', (tr ++ map (InsertMany name) (fst chunks)
                    ++ flushed name (snd chunks)
                    ++ flushed name (snd chunks))%list).
Proof.
  intros chunks. unfold ingested. cbn [Nat.iter nat_rect].
  rewrite feed_pending. fold chunks.
  destruct (feed_traced name (dumps field model data) [] s tr) as (s1 & ->).
  fold chunks.
  destruct (flush_db_traced name (snd chunks) s1
              (tr ++ map (InsertMany name) (fst chunks))%list) as (s2 & ->).
  destruct (flush_db_traced name (snd chunks) s2
              ((tr ++ map (InsertMany name) (fst chunks)) ++ flushed name (snd chunks))%list)
    as (s3 & ->).
  exists s3. now rewrite <- !app_assoc.
Qed.

(** The sizes of the chunks when all 12,001 fetched records are valid. *)
Lemma chunks_of_12001 (field : string) (model : item -> result document)
    (data : list item) :
  len data = 12001 ->
  Forall (fun it => passes field model it = true) data ->
  let chunks := chunking [] (dumps field model data) in
  map len (fst chunks) = [5000; 5000] /\ len (snd chunks) = 2001.
Proof.
  intros Hlen Hall chunks.
  pose proof (chunking_sizes (dumps field model data) []) as Hsizes.
  fold chunks in Hsizes.
  assert (Hlength : length data = Z.to_nat 12001) by (unfold len in Hlen; lia).
  rewrite length_dumps, (filter_all _ _ Hall), Hlength in Hsizes.
  change (len []) with 0 in Hsizes.
  assert (Heval : chunk_sizes 0 (Z.to_nat 12001) = ([5000; 5000], 2001)).
  { vm_compute. reflexivity. }
  rewrite Heval in Hsizes. injection Hsizes as Hchunks Hwaiting.
  split; assumption.
Qed.

End traced.

Section double_flush.
Context {S : Type} `{Storage S} `{Collaborators}.

(** C4 fails on the code for the laps and the intervals ingester: with
    12,001 fetched records that all pass validation, the store receives
    four batches, of sizes 5000, 5000, 2001 and 2001; the remainder is
    written twice. *)
Theorem remainder_written_twice (session_key : value) (s : S) (tr : list call)
    (lg : list log_entry) :
  let w := mk_world (Some (s, tr)) lg in
  (let response := http_get (laps_url session_key) in
   status response = 200 ->
   len (json response) = 12001 ->
   Forall (fun it => passes "date_start" Lap_model it = true) (json response) ->
   exists new,
     calls (fst (ingest_laps session_key w)) = (tr ++ new)%list
     /\ batch_sizes new = [5000; 5000; 2001; 2001])
  /\
  (let response := http_get (intervals_url session_key) in
   status response = 200 ->
   len (json response) = 12001 ->
   Forall (fun it => passes "date" Interval_model it = true) (json response) ->
   exists new,
     calls (fst (ingest_intervals session_key w)) = (tr ++ new)%list
     /\ batch_sizes new = [5000; 5000; 2001; 2001]).
Proof.
  intros w. split; intros response Hstatus Hlen Hall.
  - destruct (ingest_laps_spec session_key w Hstatus) as (w' & Hrun & Hdb).
    destruct (ingested_twice "laps" "date_start" Lap_model (json response) s tr)
      as (s' & Hcalls).
    destruct (chunks_of_12001 "date_start" Lap_model (json response) Hlen Hall)
      as [Hchunks Hwaiting].
    eexists. split.
    + rewrite Hrun. unfold calls. simpl fst. rewrite Hdb. simpl db.
      fold response. rewrite Hcalls. reflexivity.
    + rewrite !batch_sizes_app, batch_sizes_chunks, Hchunks.
      rewrite batch_sizes_flushed by lia. now rewrite Hwaiting.
  - destruct (ingest_intervals_spec session_key w Hstatus) as (w' & Hrun & Hdb).
    destruct (ingested_twice "intervals" "date" Interval_model (json response) s tr)
      as (s' & Hcalls).
    destruct (chunks_of_12001 "date" Interval_model (json response) Hlen Hall)
      as [Hchunks Hwaiting].
    eexists. split.
    + rewrite Hrun. unfold calls. simpl fst. rewrite Hdb. simpl db.
      fold response. rewrite Hcalls. reflexivity.
    + rewrite !batch_sizes_app, batch_sizes_chunks, Hchunks.
      rewrite batch_sizes_flushed by lia. now rewrite Hwaiting.
Qed.

(** The positions ingester and the telemetry batches flush the remainder
    once: three batches, of sizes 5000, 5000 and 2001. *)
Lemma remainder_written_once (session_key : value) (s : S) (tr : list call)
    (lg : list log_entry) :
  let w := mk_world (Some (s, tr)) lg in
  (let response := http_get (position_url session_key) in
   status response = 200 ->
   len (json response) = 12001 ->
   Forall (fun it => passes "date" Position_model it = true) (json response) ->
   exists new,
     calls (fst (ingest_positions session_key w)) = (tr ++ new)%list
     /\ batch_sizes new = [5000; 5000; 2001])
  /\
  (forall data,
   len data = 12001 ->
   Forall (fun it => passes "date" CarData_model it = true) data ->
   exists new,
     calls (fst (_process_car_data_batch data w)) = (tr ++ new)%list
     /\ batch_sizes new = [5000; 5000; 2001]).
Proof.
  intros w. split.
  - intros response Hstatus Hlen Hall.
    destruct (ingest_positions_spec session_key w Hstatus) as (w' & Hrun & Hdb).
    destruct (ingested_once "positions" "date" Position_model (json response) s tr)
      as (s' & Hcalls).
    destruct (chunks_of_12001 "date" Position_model (json response) Hlen Hall)
      as [Hchunks Hwaiting].
    eexists. split.
    + rewrite Hrun. unfold calls. simpl fst. rewrite Hdb. simpl db.
      fold response. rewrite Hcalls. reflexivity.
    + rewrite !batch_sizes_app, batch_sizes_chunks, Hchunks.
      rewrite batch_sizes_flushed by lia. now rewrite Hwaiting.
  - intros data Hlen Hall.
    destruct (process_car_data_batch_spec data w) as (w' & Hrun & Hdb).
    destruct (ingested_once "car_data" "date" CarData_model data s tr)
      as (s' & Hcalls).
    destruct (chunks_of_12001 "date" CarData_model data Hlen Hall)
      as [Hchunks Hwaiting].
    eexists. split.
    + rewrite Hrun. unfold calls. simpl fst. rewrite Hdb. simpl db.
      rewrite Hcalls. reflexivity.
    + rewrite !batch_sizes_app, batch_sizes_chunks, Hchunks.
      rewrite batch_sizes_flushed by lia. now rewrite Hwaiting.
Qed.

End double_flush.

(** ** The log of validation failures *)

Section failure_log.
Context {S : Type} `{Storage S} `{Collaborators}.

(** The verbose warning for one failed lap, and the summary notice. *)
Definition lap_verbose_line (it : item) (e : exn) : log_entry :=
  (WARNING, "Error processing lap data for driver "
              ++ py_str (get_or_unknown it "driver_number") ++ ": "
              ++ str_take 100 (exn_msg e) ++ "...").

Definition lap_summary_line : log_entry :=
  (WARNING, "More lap validation errors found... (suppressing further messages)").

Definition is_lap_verbose (l : log_entry) : Prop :=
  exists it e, l = lap_verbose_line it e.

Lemma lap_verbose_not_summary (it : item) (e : exn) :
  lap_verbose_line it e <> lap_summary_line.
Proof. unfold lap_verbose_line, lap_summary_line. simpl. intros [=]. Qed.

(** While no record has passed, every failure is logged in full. *)
Lemma laps_loop_all_fail (data : list item) : forall w : world S,
  Forall (fun it => passes "date_start" Lap_model it = false) data ->
  exists lines,
    laps_loop data [] w
      = (mk_world (db w) (log w ++ lines), [], map (coerced "date_start") data)
    /\ length lines = length data
    /\ Forall is_lap_verbose lines.
Proof.
  induction data as [|it data IH]; intros w Hall.
  - exists []. simpl. rewrite app_nil_r. destruct w; auto.
  - apply Forall_cons in Hall as [Hit Hall].
    assert (exists e it',
               laps_body it [] w
               = (mk_world (db w) (log w ++ [lap_verbose_line it' e]), [],
                  coerced "date_start" it)) as (e & it' & Hbody).
    { unfold passes, validated in Hit. unfold laps_body, coerced.
      destruct (coerce_date "date_start" it) as [it1 | e] eqn:Hc.
      - simpl in Hit. destruct (Lap_model it1) as [doc | e]; [discriminate |].
        exists e, it1. reflexivity.
      - exists e, it. reflexivity. }
    destruct (IH (mk_world (db w) (log w ++ [lap_verbose_line it' e])) Hall)
      as (lines & Hloop & Hlen & Hverbose).
    exists (lap_verbose_line it' e :: lines). split; [|split].
    + simpl. rewrite Hbody, Hloop. simpl. now rewrite <- app_assoc.
    + simpl. now rewrite Hlen.
    + constructor; [now exists it', e | exact Hverbose].
Qed.

(** C8 fails on the code: the [except] clause of the loop compares the
    number of documents waiting in the current chunk with 3, not the
    number of failures. When every fetched lap fails validation, every
    failure is logged in full, however many there are, and the summary
    notice is never written. *)
Theorem failures_not_rate_limited (session_key : value) (w : world S) :
  let response := http_get (laps_url session_key) in
  status response = 200 ->
  Forall (fun it => passes "date_start" Lap_model it = false) (json response) ->
  exists lines final,
    log (fst (ingest_laps session_key w)) = (log w ++ lines ++ [final])%list
    /\ snd (ingest_laps session_key w) = Ok 0
    /\ length lines = length (json response)
    /\ Forall is_lap_verbose lines
    /\ (lap_summary_line ∉ lines)
    /\ fst final = INFO.
Proof.
  intros response Hstatus Hall.
  destruct (laps_loop_all_fail (json response) w Hall)
    as (lines & Hloop & Hlen & Hverbose).
  exists lines. eexists.
  unfold ingest_laps. fold (laps_url session_key). fold response.
  rewrite Hstatus. cbn [Z.eqb Pos.eqb]. rewrite Hloop. cbn [flush_remaining].
  rewrite (count_validated "date_start" Lap_model _validate_lap_item (json response)).
  - rewrite (filter_none _ _ Hall). cbn [fst snd log logger map len length].
    split; [rewrite <- app_assoc; reflexivity |].
    split; [reflexivity |]. split; [exact Hlen |]. split; [exact Hverbose |].
    split; [|reflexivity].
    intros Hin. rewrite Forall_forall in Hverbose.
    destruct (Hverbose _ Hin) as (it & e & Heq).
    symmetry in Heq. now apply lap_verbose_not_summary in Heq.
  - intros it. unfold _validate_lap_item. now destruct (coerce_date "date_start" it).
Qed.

End failure_log.

(** ** Counts and written batches *)

(** The documents of the batches handed to [insert_many]. *)
Definition written_docs (cs : list call) : list document :=
  concat (omap (fun c => match c with
                         | InsertMany _ documents => Some documents
                         | BulkWrite _ _ => None
                         end) cs).

Lemma written_docs_app (a b : list call) :
  written_docs (a ++ b) = (written_docs a ++ written_docs b)%list.
Proof. unfold written_docs. now rewrite omap_app, concat_app. Qed.

Lemma written_docs_chunks (name : string) (chunks : list (list document)) :
  written_docs (map (InsertMany name) chunks) = concat chunks.
Proof.
  unfold written_docs. induction chunks as [|c chunks IH]; [reflexivity |].
  simpl. now rewrite <- IH.
Qed.

Lemma written_docs_flushed (name : string) (pending : list document) :
  written_docs (flushed name pending) = pending.
Proof. destruct pending; [reflexivity |]. unfold written_docs. simpl. now rewrite app_nil_r. Qed.

Lemma elem_of_concat {A} (ls : list (list A)) (x : A) :
  x ∈ concat ls -> exists l, l ∈ ls /\ x ∈ l.
Proof.
  induction ls as [|l ls IH]; simpl; [intros Hx; inversion Hx |].
  intros Hx. apply elem_of_app in Hx as [Hx | Hx].
  - exists l. split; [apply list_elem_of_here | exact Hx].
  - destruct (IH Hx) as (l' & Hl' & Hx'). exists l'.
    split; [now apply list_elem_of_further | exact Hx'].
Qed.

(** Every document that the chunks carry is one of the documents fed. *)
Lemma chunks_carry_fed (docs : list document) (d : document) :
  d ∈ (concat (fst (chunking [] docs)) ++ snd (chunking [] docs)
         ++ snd (chunking [] docs))%list ->
  d ∈ docs.
Proof.
  intros Hd. apply (chunking_members docs [] d).
  apply elem_of_app in Hd as [Hd | Hd].
  - left. apply elem_of_concat in Hd as (chunk & Hin & Hchunk). eauto.
  - right. apply elem_of_app in Hd as [Hd | Hd]; exact Hd.
Qed.

Section counts.
Context {S : Type} `{Storage S} `{Collaborators}.

Lemma ingested_twice_docs name field model (data : list item) (s : S) (tr : list call) :
  exists s' new,
    ingested name field model 2 data (Some (s, tr)) = Some (s', (tr ++ new)%list)
    /\ forall d, d ∈ written_docs new -> d ∈ dumps field model data.
Proof.
  destruct (ingested_twice name field model data s tr) as (s' & Hrun).
  do 2 eexists. split; [exact Hrun |].
  intros d. rewrite !written_docs_app, written_docs_chunks, written_docs_flushed.
  apply chunks_carry_fed.
Qed.

Lemma ingested_once_docs name field model (data : list item) (s : S) (tr : list call) :
  exists s' new,
    ingested name field model 1 data (Some (s, tr)) = Some (s', (tr ++ new)%list)
    /\ forall d, d ∈ written_docs new -> d ∈ dumps field model data.
Proof.
  destruct (ingested_once name field model data s tr) as (s' & Hrun).
  do 2 eexists. split; [exact Hrun |].
  intros d. rewrite !written_docs_app, written_docs_chunks, written_docs_flushed.
  intros Hd. apply chunks_carry_fed.
  apply elem_of_app in Hd as [Hd | Hd]; apply elem_of_app;
    [left; exact Hd | right; apply elem_of_app; left; exact Hd].
Qed.

(** A document of [dumps] is the document of a fetched record that
    passed validation. *)
Lemma dumps_valid field model (data : list item) (d : document) :
  d ∈ dumps field model data ->
  exists it, it ∈ data /\ validated field model it = Ok d.
Proof.
  unfold dumps. intros Hd. apply list_elem_of_omap in Hd as (it & Hit & Hv).
  exists it. split; [exact Hit |].
  destruct (validated field model it); congruence.
Qed.

Lemma driver_dumps_valid (data : list item) (d : document) :
  d ∈ driver_dumps data -> exists it, it ∈ data /\ Driver_model it = Ok d.
Proof.
  unfold driver_dumps. intros Hd. apply list_elem_of_omap in Hd as (it & Hit & Hv).
  exists it. split; [exact Hit |]. destruct (Driver_model it); congruence.
Qed.

Definition from_valid (field : string) (model : item -> result document)
    (data : list item) (new : list call) : Prop :=
  forall d, d ∈ written_docs new ->
    exists it, it ∈ data /\ validated field model it = Ok d.

(** C9 (amended): a record that fails validation is in no batch that an
    ingester hands to the store; the laps, intervals and telemetry
    ingesters return the number of fetched records that passed
    validation; the drivers ingester returns the count that the batch
    writer returns for the documents of the valid drivers. *)
Theorem valid_records_counted (session_key : value) (s : S) (tr : list call)
    (lg : list log_entry) :
  let w := mk_world (Some (s, tr)) lg in
  (let response := http_get (laps_url session_key) in
   status response = 200 ->
   snd (ingest_laps session_key w)
     = Ok (len (List.filter (passes "date_start" Lap_model) (json response)))
   /\ exists new, calls (fst (ingest_laps session_key w)) = (tr ++ new)%list
                  /\ from_valid "date_start" Lap_model (json response) new)
  /\
  (let response := http_get (intervals_url session_key) in
   status response = 200 ->
   snd (ingest_intervals session_key w)
     = Ok (len (List.filter (passes "date" Interval_model) (json response)))
   /\ exists new, calls (fst (ingest_intervals session_key w)) = (tr ++ new)%list
                  /\ from_valid "date" Interval_model (json response) new)
  /\
  (forall data,
   snd (_process_car_data_batch data w)
     = Ok (len (List.filter (passes "date" CarData_model) data))
   /\ exists new, calls (fst (_process_car_data_batch data w)) = (tr ++ new)%list
                  /\ from_valid "date" CarData_model data new)
  /\
  (let response := http_get (position_url session_key) in
   status response = 200 ->
   exists new, calls (fst (ingest_positions session_key w)) = (tr ++ new)%list
               /\ from_valid "date" Position_model (json response) new)
  /\
  (let response := http_get (drivers_url session_key) in
   status response = 200 ->
   exists w1,
     db w1 = db w
     /\ snd (ingest_drivers session_key w)
        = snd (bulk_insert "drivers" (driver_dumps (json response)) None w1)
     /\ calls (fst (ingest_drivers session_key w))
        = (tr ++ flushed "drivers" (driver_dumps (json response)))%list).
Proof.
  intros w. split; [|split; [|split; [|split]]].
  - intros response Hstatus.
    destruct (ingest_laps_spec session_key w Hstatus) as (w' & Hrun & Hdb).
    destruct (ingested_twice_docs "laps" "date_start" Lap_model (json response) s tr)
      as (s' & new & Hcalls & Hdocs).
    rewrite Hrun. split; [reflexivity |]. exists new. split.
    + unfold calls. simpl fst. rewrite Hdb. simpl db. fold response.
      now rewrite Hcalls.
    + intros d Hd. now apply dumps_valid, Hdocs.
  - intros response Hstatus.
    destruct (ingest_intervals_spec session_key w Hstatus) as (w' & Hrun & Hdb).
    destruct (ingested_twice_docs "intervals" "date" Interval_model (json response) s tr)
      as (s' & new & Hcalls & Hdocs).
    rewrite Hrun. split; [reflexivity |]. exists new. split.
    + unfold calls. simpl fst. rewrite Hdb. simpl db. fold response.
      now rewrite Hcalls.
    + intros d Hd. now apply dumps_valid, Hdocs.
  - intros data.
    destruct (process_car_data_batch_spec data w) as (w' & Hrun & Hdb).
    destruct (ingested_once_docs "car_data" "date" CarData_model data s tr)
      as (s' & new & Hcalls & Hdocs).
    rewrite Hrun. split; [reflexivity |]. exists new. split.
    + unfold calls. simpl fst. rewrite Hdb. simpl db. now rewrite Hcalls.
    + intros d Hd. now apply dumps_valid, Hdocs.
  - intros response Hstatus.
    destruct (ingest_positions_spec session_key w Hstatus) as (w' & Hrun & Hdb).
    destruct (ingested_once_docs "positions" "date" Position_model (json response) s tr)
      as (s' & new & Hcalls & Hdocs).
    rewrite Hrun. exists new. split.
    + unfold calls. simpl fst. rewrite Hdb. simpl db. fold response.
      now rewrite Hcalls.
    + intros d Hd. now apply dumps_valid, Hdocs.
  - intros response Hstatus.
    destruct (ingest_drivers_spec session_key w Hstatus) as (w1 & lg1 & Hdb1 & Hrun).
    fold response in Hrun.
    exists w1. split; [exact Hdb1 |]. rewrite Hrun. split.
    + simpl. now rewrite bulk_insert_written.
    + unfold calls. simpl fst. simpl db.
      unfold written.
      pose proof (bulk_insert_db "drivers" (driver_dumps (json response)) w1) as Hw.
      destruct (bulk_insert "drivers" (driver_dumps (json response)) None w1)
        as [w2 [n | e]]; simpl in Hw |- *; rewrite Hw, Hdb1; simpl db;
        (destruct (driver_dumps (json response)) as [|d0 ds] eqn:Hdd;
         [unfold write_db; simpl; now rewrite app_nil_r |
          destruct (write_db_traced "drivers" (d0 :: ds) s tr) as (s2 & ->);
          [discriminate | reflexivity]]).
Qed.

End counts.

(** ** Car telemetry: the fan-out over drivers and speed ranges *)

Definition sum_Z (l : list Z) : Z := foldr Z.add 0 l.

(** A telemetry record whose speed is a non-negative integer. *)
Definition has_speed (it : item) : Prop :=
  exists z, SpeedQuery.speed_of it = Some z /\ 0 <= z.

Lemma selects_speed_filters (z : Z) :
  SpeedQuery.selects "speed=0" (Some z) = ((z =? 0) && true)
  /\ SpeedQuery.selects "speed>=1&speed<150" (Some z) = ((1 <=? z) && ((z <? 150) && true))
  /\ SpeedQuery.selects "speed>=150&speed<350" (Some z)
     = ((150 <=? z) && ((z <? 350) && true))
  /\ SpeedQuery.selects "speed>=350" (Some z) = ((350 <=? z) && true).
Proof. repeat split. Qed.

(** Which of the four queries returns a record of speed [z]. *)
Lemma speed_ranges (z : Z) :
  0 <= z ->
  map (fun f => SpeedQuery.selects f (Some z)) speed_filters
  = [z =? 0; (1 <=? z) && (z <? 150); (150 <=? z) && (z <? 350); 350 <=? z]
  /\ ((z = 0 /\ map (fun f => SpeedQuery.selects f (Some z)) speed_filters
                 = [true; false; false; false])
      \/ (1 <= z < 150 /\ map (fun f => SpeedQuery.selects f (Some z)) speed_filters
                          = [false; true; false; false])
      \/ (150 <= z < 350 /\ map (fun f => SpeedQuery.selects f (Some z)) speed_filters
                            = [false; false; true; false])
      \/ (350 <= z /\ map (fun f => SpeedQuery.selects f (Some z)) speed_filters
                      = [false; false; false; true])).
Proof.
  intros Hz. destruct (selects_speed_filters z) as (H1 & H2 & H3 & H4).
  unfold speed_filters. cbn [map]. rewrite H1, H2, H3, H4, !andb_true_r.
  split; [reflexivity |].
  destruct (Z.eqb_spec z 0), (Z.leb_spec 1 z), (Z.ltb_spec z 150),
    (Z.leb_spec 150 z), (Z.ltb_spec z 350), (Z.leb_spec 350 z);
    simpl; try lia; intuition lia.
Qed.

Lemma answer_cons (query : string) (it : item) (records : list item) :
  SpeedQuery.answer query (it :: records)
  = if SpeedQuery.selects query (SpeedQuery.speed_of it)
    then it :: SpeedQuery.answer query records
    else SpeedQuery.answer query records.
Proof. reflexivity. Qed.

(** The four answers, one after the other, are the records of the driver
    in another order: none is lost and none comes twice. *)
Lemma answers_partition (records : list item) :
  Forall has_speed records ->
  concat (map (fun f => SpeedQuery.answer f records) speed_filters) ≡ₚ records.
Proof.
  induction 1 as [|it records (z & Hspeed & Hz) _ IH]; [reflexivity |].
  unfold speed_filters in *. cbn [map concat] in *.
  rewrite !answer_cons, Hspeed.
  destruct (speed_ranges z Hz) as [_ Hcase].
  unfold speed_filters in Hcase. cbn [map] in Hcase.
  set (a1 := SpeedQuery.answer "speed=0" records) in *.
  set (a2 := SpeedQuery.answer "speed>=1&speed<150" records) in *.
  set (a3 := SpeedQuery.answer "speed>=150&speed<350" records) in *.
  set (a4 := SpeedQuery.answer "speed>=350" records) in *.
  rewrite app_nil_r in *.
  destruct Hcase as [[_ Hsel] | [[_ Hsel] | [[_ Hsel] | [_ Hsel]]]];
    injection Hsel as -> -> -> ->; symmetry.
  - apply (Permutation_cons_app [] (a1 ++ a2 ++ a3 ++ a4) it). now symmetry.
  - apply (Permutation_cons_app a1 (a2 ++ a3 ++ a4) it). now symmetry.
  - rewrite (app_assoc a1 a2).
    apply (Permutation_cons_app (a1 ++ a2) (a3 ++ a4) it).
    rewrite <- app_assoc. now symmetry.
  - rewrite (app_assoc a2 a3), (app_assoc a1).
    apply (Permutation_cons_app (a1 ++ a2 ++ a3) a4 it).
    rewrite <- !app_assoc. now symmetry.
Qed.

(** Counting in the four answers is counting in the records. *)
Lemma answers_count (p : item -> bool) (records : list item) :
  Forall has_speed records ->
  sum_Z (map (fun f => len (List.filter p (SpeedQuery.answer f records))) speed_filters)
  = len (List.filter p records).
Proof.
  induction 1 as [|it records (z & Hspeed & Hz) _ IH]; [reflexivity |].
  unfold speed_filters in *. cbn [map sum_Z foldr] in *.
  rewrite !answer_cons, Hspeed.
  destruct (speed_ranges z Hz) as [_ Hcase].
  unfold speed_filters in Hcase. cbn [map] in Hcase.
  destruct Hcase as [[_ Hsel] | [[_ Hsel] | [[_ Hsel] | [_ Hsel]]]];
    injection Hsel as -> -> -> ->; cbn [List.filter];
    destruct (p it); unfold len in *; cbn [length]; lia.
Qed.

Section fan_out.
Context {S : Type} `{Storage S} `{Collaborators}.

(** The records that one fetch for a driver and a speed range adds to
    the total: those of the answer that pass validation, none when the
    fetch fails. *)
Definition range_count (session_key driver_number : value) (speed_filter : string) : Z :=
  let r := http_get (car_data_url session_key driver_number speed_filter) in
  if status r =? 200
  then len (List.filter (passes "date" CarData_model) (json r))
  else 0.

Definition driver_count (session_key : value) (driver : item) : Z :=
  let driver_number := default VNone (driver !! "driver_number") in
  if truthy driver_number
  then sum_Z (map (range_count session_key driver_number) speed_filters)
  else 0.

Lemma speed_filters_loop_spec (session_key driver_number : value)
    (filters : list string) : forall (total : Z) (w : world S),
  exists w',
    speed_filters_loop session_key driver_number filters total w
    = (w', Ok (total + sum_Z (map (range_count session_key driver_number) filters))).
Proof.
  induction filters as [|f filters IH]; intros total w.
  - exists w. simpl. now rewrite Z.add_0_r.
  - cbn [speed_filters_loop map]. unfold sum_Z. cbn [foldr].
    fold (sum_Z (map (range_count session_key driver_number) filters)).
    unfold range_count at 1.
    destruct (status (http_get (car_data_url session_key driver_number f)) =? 200).
    + destruct (json (http_get (car_data_url session_key driver_number f)))
        as [|it data] eqn:Hjson.
      * match goal with
        | |- context [speed_filters_loop _ _ filters total ?w1] =>
            destruct (IH total w1) as (w' & ->)
        end.
        exists w'. reflexivity.
      * match goal with
        | |- context [_process_car_data_batch ?d ?w1] =>
            destruct (process_car_data_batch_spec d w1) as (w2 & -> & _)
        end.
        match goal with
        | |- context [speed_filters_loop _ _ filters ?t w2] =>
            destruct (IH t w2) as (w' & ->)
        end.
        exists w'. now rewrite Z.add_assoc.
    + match goal with
      | |- context [speed_filters_loop _ _ filters total ?w1] =>
          destruct (IH total w1) as (w' & ->)
      end.
      exists w'. reflexivity.
Qed.

Lemma car_drivers_loop_spec (session_key : value) (n_drivers : Z)
    (drivers : list item) : forall (i total : Z) (w : world S),
  exists w',
    car_drivers_loop session_key n_drivers i drivers total w
    = (w', Ok (total + sum_Z (map (driver_count session_key) drivers))).
Proof.
  induction drivers as [|driver drivers IH]; intros i total w.
  - exists w. simpl. now rewrite Z.add_0_r.
  - cbn [car_drivers_loop map]. unfold sum_Z. cbn [foldr].
    fold (sum_Z (map (driver_count session_key) drivers)).
    unfold driver_count at 1.
    destruct (truthy (default VNone (driver !! "driver_number"))); cbn [negb].
    + match goal with
      | |- context [speed_filters_loop ?sk ?dn speed_filters total ?w1] =>
          destruct (speed_filters_loop_spec sk dn speed_filters total w1) as (w2 & ->)
      end.
      match goal with
      | |- context [car_drivers_loop _ _ _ drivers ?t w2] =>
          destruct (IH (i + 1) t w2) as (w' & ->)
      end.
      exists w'. now rewrite Z.add_assoc.
    + destruct (IH (i + 1) total w) as (w' & ->).
      exists w'. reflexivity.
Qed.

(** C7: the telemetry ingester issues, for each driver, the four fetches
    [speed=0], [speed>=1&speed<150], [speed>=150&speed<350] and
    [speed>=350]. Every non-negative integer speed is selected by
    exactly one of them, so the four answers for a driver are the
    records of the driver, each once; and the total that the ingester
    returns is the sum over the drivers and the four ranges of the
    records processed, which for a driver whose fetches are answered
    from the records [records] is the number of valid records among
    them. *)
Theorem speed_ranges_partition (session_key : value) (w : world S) :
  map SpeedQuery.parse speed_filters
    = [ Some [SpeedQuery.Eq 0];
        Some [SpeedQuery.Ge 1; SpeedQuery.Lt 150];
        Some [SpeedQuery.Ge 150; SpeedQuery.Lt 350];
        Some [SpeedQuery.Ge 350] ]
  /\ (forall z, 0 <= z ->
        length (List.filter (fun f => SpeedQuery.selects f (Some z)) speed_filters)
        = 1%nat)
  /\ (forall records, Forall has_speed records ->
        concat (map (fun f => SpeedQuery.answer f records) speed_filters) ≡ₚ records)
  /\ (let response := http_get (drivers_url session_key) in
      status response = 200 -> json response <> [] ->
      snd (_ingest_car_data_by_drivers session_key w)
      = Ok (sum_Z (map (driver_count session_key) (json response))))
  /\ (forall driver records,
        truthy (default VNone (driver !! "driver_number")) = true ->
        Forall has_speed records ->
        (forall f, f ∈ speed_filters ->
           http_get (car_data_url session_key
                       (default VNone (driver !! "driver_number")) f)
           = mk_response 200 (SpeedQuery.answer f records)) ->
        driver_count session_key driver
        = len (List.filter (passes "date" CarData_model) records)).
Proof.
  split; [reflexivity |]. split; [|split; [|split]].
  - intros z Hz. destruct (speed_ranges z Hz) as [_ Hcase].
    unfold speed_filters in *. cbn [map List.filter] in *.
    destruct Hcase as [[_ Hsel] | [[_ Hsel] | [[_ Hsel] | [_ Hsel]]]];
      injection Hsel as -> -> -> ->; reflexivity.
  - apply answers_partition.
  - intros response Hstatus Hne.
    unfold _ingest_car_data_by_drivers. fold (drivers_url session_key). fold response.
    rewrite Hstatus. cbn [Z.eqb Pos.eqb negb].
    destruct (json response) as [|d0 ds] eqn:Hjson; [congruence |].
    match goal with
    | |- context [car_drivers_loop ?sk ?n 1 ?l 0 ?w1] =>
        destruct (car_drivers_loop_spec sk n l 1 0 w1) as (w' & ->)
    end.
    reflexivity.
  - intros driver records Htruthy Hspeeds Hanswers.
    unfold driver_count. rewrite Htruthy.
    rewrite <- (answers_count (passes "date" CarData_model) records Hspeeds).
    f_equal. apply map_ext_in. intros f Hf.
    unfold range_count. rewrite (Hanswers f) by now apply list_elem_of_In.
    reflexivity.
Qed.

End fan_out.


(* ===================================================================== *)
(** * Sample runs                                                         *)
(* ===================================================================== *)

(** The sample data as the models see it. *)
Example sample_lap_passes :
  let C := collaborators Sample.api in
  passes "date_start" Lap_model Sample.lap = true
  /\ passes "date_start" Lap_model Sample.broken_lap = false
  /\ is_ok (Driver_model Sample.driver) = true.
Proof. vm_compute. repeat split. Qed.

Example sample_races_are_candidates : Forall candidate Sample.races.
Proof.
  unfold Sample.races.
  repeat (apply List.Forall_cons;
          [unfold candidate; split; [|split]; eexists; vm_compute; reflexivity |]).
  apply List.Forall_nil.
Qed.

Example sample_telemetry_has_speed : Forall has_speed Sample.telemetry_44.
Proof.
  unfold Sample.telemetry_44.
  repeat (apply List.Forall_cons;
          [eexists; split; [vm_compute; reflexivity | lia] |]).
  apply List.Forall_nil.
Qed.

(** Of the three sample races, discovery selects the one of 8 December. *)
Example sample_latest_session :
  let C := collaborators Sample.api in
  match snd (fetch_latest_session Sample.start) with
  | Ok latest => latest !! "session_key"
  | Raise _ => None
  end = Some (VInt 9662).
Proof. vm_compute. reflexivity. Qed.

(** Three candidate races: one is selected that none exceeds. *)
Lemma latest_session_selected_witness :
  let C := collaborators Sample.api in
  exists latest name location,
    fetch_latest_session Sample.start
      = (mk_world (db Sample.start) (log Sample.start ++ [found_line name location]),
         Ok latest)
    /\ Forall (fun s => not_after s latest) Sample.races.
Proof.
  intros C.
  destruct (proj1 (@latest_session_selected _ _ C Sample.start)
              eq_refl ltac:(discriminate) sample_races_are_candidates)
    as (latest & name & location & _ & _ & Hfetch & _ & Hmax & _).
  exists latest, name, location. split; [exact Hfetch | exact Hmax].
Defined.

Example sample_12001_laps :
  let C := collaborators Sample.api_12001 in
  status (http_get (laps_url Sample.session_key)) = 200
  /\ len (json (http_get (laps_url Sample.session_key))) = 12001
  /\ Forall (fun it => passes "date_start" Lap_model it = true)
       (json (http_get (laps_url Sample.session_key))).
Proof.
  intros C. split; [reflexivity |].
  change (json _) with (replicate (Z.to_nat 12001) Sample.lap). split.
  - unfold len. rewrite length_replicate. reflexivity.
  - apply Forall_replicate. vm_compute. reflexivity.
Qed.

(** 12,001 valid laps: four batches reach the store. *)
Lemma remainder_written_twice_witness :
  let C := collaborators Sample.api_12001 in
  exists new,
    calls (fst (ingest_laps Sample.session_key Sample.start)) = ([] ++ new)%list
    /\ batch_sizes new = [5000; 5000; 2001; 2001].
Proof.
  intros C.
  exact (proj1 (@remainder_written_twice _ _ C Sample.session_key
                  (fst Sample.empty_store) [] [])
           (proj1 sample_12001_laps)
           (proj1 (proj2 sample_12001_laps))
           (proj2 (proj2 sample_12001_laps))).
Defined.

Example sample_broken_laps :
  let C := collaborators Sample.api_broken in
  status (http_get (laps_url Sample.session_key)) = 200
  /\ Forall (fun it => passes "date_start" Lap_model it = false)
       (json (http_get (laps_url Sample.session_key))).
Proof.
  intros C. split; [reflexivity |].
  change (json _) with (replicate 5 Sample.broken_lap).
  apply Forall_replicate. vm_compute. reflexivity.
Qed.

(** Five laps that all fail: five warnings in full, no summary notice. *)
Lemma failures_not_rate_limited_witness :
  let C := collaborators Sample.api_broken in
  exists lines final,
    log (fst (ingest_laps Sample.session_key Sample.start))
      = (log Sample.start ++ lines ++ [final])%list
    /\ snd (ingest_laps Sample.session_key Sample.start) = Ok 0
    /\ length lines = length (json (http_get (laps_url Sample.session_key)))
    /\ Forall is_lap_verbose lines
    /\ (lap_summary_line ∉ lines)
    /\ fst final = INFO.
Proof.
  intros C.
  exact (@failures_not_rate_limited _ _ C Sample.session_key Sample.start
           (proj1 sample_broken_laps) (proj2 sample_broken_laps)).
Defined.

(** The warnings of that run. *)
Example sample_broken_laps_log :
  let C := collaborators Sample.api_broken in
  map fst (log (fst (ingest_laps Sample.session_key Sample.start)))
  = [WARNING; WARNING; WARNING; WARNING; WARNING; INFO].
Proof. vm_compute. reflexivity. Qed.

(** Two valid laps and a broken one: the laps ingester counts the valid
    ones. *)
Lemma valid_records_counted_witness :
  let C := collaborators Sample.api in
  snd (ingest_laps Sample.session_key Sample.start)
  = Ok (len (List.filter (passes "date_start" Lap_model)
               (json (http_get (laps_url Sample.session_key))))).
Proof.
  intros C.
  exact (proj1 (proj1 (@valid_records_counted _ _ C Sample.session_key
                         (fst Sample.empty_store) [] []) eq_refl)).
Defined.

Example sample_laps_count :
  let C := collaborators Sample.api in
  snd (ingest_laps Sample.session_key Sample.start) = Ok 2.
Proof. vm_compute. reflexivity. Qed.

(** C9, as the claim states it, fails: the drivers ingester returns what
    the batch writer returns. With the store out of reach, the one fetched
    driver passes validation and the ingester returns 0. *)
Lemma drivers_count_is_writer_count :
  let C := collaborators Sample.api in
  let w : world unit := mk_world (Some tt) [] in
  len (List.filter (fun it => is_ok (Driver_model it))
         (json (http_get (drivers_url Sample.session_key)))) = 1
  /\ snd (@ingest_drivers unit unreachable_storage C Sample.session_key w) = Ok 0.
Proof. vm_compute. split; reflexivity. Qed.

(** The positions ingester returns the number of fetched records, valid
    or not. *)
Example positions_count_is_fetched_count :
  let C := collaborators
             (Sample.upstream [ (Sample.base ++ "/position?session_key=9662",
                                 [Sample.broken_lap]) ]) in
  passes "date" Position_model Sample.broken_lap = false
  /\ snd (ingest_positions Sample.session_key Sample.start) = Ok 1.
Proof. vm_compute. split; reflexivity. Qed.

Example sample_telemetry_answers :
  let C := collaborators Sample.api in
  truthy (default VNone (Sample.driver !! "driver_number")) = true
  /\ forall f, f ∈ speed_filters ->
       http_get (car_data_url Sample.session_key
                   (default VNone (Sample.driver !! "driver_number")) f)
       = mk_response 200 (SpeedQuery.answer f Sample.telemetry_44).
Proof.
  intros C. split; [reflexivity |].
  intros f Hf. unfold speed_filters in Hf.
  repeat (apply elem_of_cons in Hf as [-> | Hf]);
    [vm_compute; reflexivity .. | inversion Hf].
Qed.

(** One driver, eight telemetry records over the four speed ranges: the
    count for the driver is the number of valid records. *)
Lemma speed_ranges_partition_witness :
  let C := collaborators Sample.api in
  driver_count Sample.session_key Sample.driver
  = len (List.filter (passes "date" CarData_model) Sample.telemetry_44).
Proof.
  intros C.
  exact (proj2 (proj2 (proj2 (proj2
           (@speed_ranges_partition _ _ C Sample.session_key Sample.start))))
           Sample.driver Sample.telemetry_44
           (proj1 sample_telemetry_answers) sample_telemetry_has_speed
           (proj2 sample_telemetry_answers)).
Defined.

Example sample_telemetry_total :
  let C := collaborators Sample.api in
  snd (_ingest_car_data_by_drivers Sample.session_key Sample.start) = Ok 8.
Proof. vm_compute. reflexivity. Qed.

(* ===================================================================== *)
(** * database.py: connection and indexes                                 *)
(* ===================================================================== *)

Definition ASCENDING : Z := 1.

(** [pymongo.IndexModel(keys, unique=...)] *)
Record IndexModel : Type := mk_IndexModel {
  index_keys : list (string * Z);
  index_unique : bool
}.

Definition index_on (fields : list string) : IndexModel :=
  mk_IndexModel (map (fun f => (f, ASCENDING)) fields) false.

Definition unique_index_on (fields : list string) : IndexModel :=
  mk_IndexModel (map (fun f => (f, ASCENDING)) fields) true.

(** The dict [collections_indexes] of [ensure_indexes], in its order. *)
Definition collections_indexes : list (string * list IndexModel) :=
  [ ("sessions",
      [ unique_index_on ["session_key"];
        index_on ["meeting_key"];
        index_on ["date_start"] ]);
    ("drivers",
      [ index_on ["session_key"; "driver_number"];
        index_on ["driver_number"] ]);
    ("laps",
      [ index_on ["session_key"; "driver_number"; "lap_number"];
        index_on ["session_key"; "lap_number"];
        index_on ["session_key"; "driver_number"] ]);
    ("car_data",
      [ index_on ["session_key"; "driver_number"; "date"];
        index_on ["session_key"; "date"];
        index_on ["driver_number"; "date"] ]);
    ("positions",
      [ index_on ["session_key"; "date"];
        index_on ["session_key"; "driver_number"; "date"] ]);
    ("intervals",
      [ index_on ["session_key"; "date"];
        index_on ["session_key"; "driver_number"; "date"] ]) ].

(** The administrative operation of a database that [ensure_indexes]
    awaits: [collection.create_indexes(indexes)]. *)
Class Server (S : Type) : Type := {
  create_indexes : string -> list IndexModel -> S -> S * result unit
}.

(** What [connect] uses of the client object that
    [AsyncIOMotorClient(self.connection_string)] returns:
    [client[name]], which gives a handle on the database [name] or raises
    (an invalid name), and [client.admin.command("ping")]. *)
Record MotorClient (S : Type) : Type := mk_MotorClient {
  client_database : string -> result S;
  client_ping : result unit
}.
Arguments mk_MotorClient {S} client_database client_ping.
Arguments client_database {S} m name.
Arguments client_ping {S} m.

Section connection.
Context {S : Type} `{Server S}.

(** [F1Database.connect]. The field [self.db] is the [db] of the state of
    the run; the field [self.client] is [client], threaded beside it.
    [new_client] is what the constructor
    [AsyncIOMotorClient(self.connection_string)] gives: the client, or the
    exception it raises. The [try] assigns [self.client], then assigns
    [self.db], then pings; an exception of any of the three is logged,
    and what was assigned before it stays assigned. *)
Definition connect (new_client : result (MotorClient S)) (database_name : string)
    (client : option (MotorClient S)) (w : world S)
  : option (MotorClient S) * world S * bool :=
  match new_client with
  | Raise e =>
      (client, logger ERROR ("Failed to connect to MongoDB: " ++ exn_msg e) w, false)
  | Ok c =>
      match client_database c database_name with
      | Raise e =>
          (Some c, logger ERROR ("Failed to connect to MongoDB: " ++ exn_msg e) w, false)
      | Ok s =>
          let w := set_db s w in
          match client_ping c with
          | Ok _ =>
              (Some c, logger INFO ("Connected to MongoDB: " ++ database_name) w, true)
          | Raise e =>
              (Some c, logger ERROR ("Failed to connect to MongoDB: " ++ exn_msg e) w,
               false)
          end
      end
  end.

(** [F1Database.disconnect]: [if self.client:] holds when the field is
    not [None]. Closing the client changes nothing that the state of the
    run records; [self.db] stays as it is. *)
Definition disconnect (client : option (MotorClient S)) (w : world S) : world S :=
  match client with
  | Some _ => logger INFO "Disconnected from MongoDB" w
  | None => w
  end.

(** One turn of the loop of [ensure_indexes]. *)
Definition ensure_indexes_body (collection_name : string) (indexes : list IndexModel)
    (w : world S) : world S :=
  match db w with
  | None =>
      logger WARNING ("Error creating indexes for " ++ collection_name ++ ": "
                        ++ "'NoneType' object is not subscriptable") w
  | Some s =>
      let '(s', r) := create_indexes collection_name indexes s in
      let w := set_db s' w in
      match r with
      | Ok _ => logger INFO ("Created indexes for " ++ collection_name) w
      | Raise e =>
          logger WARNING ("Error creating indexes for " ++ collection_name ++ ": "
                            ++ exn_msg e) w
      end
  end.

Fixpoint ensure_indexes_loop (todo : list (string * list IndexModel)) (w : world S)
  : world S :=
  match todo with
  | [] => w
  | (collection_name, indexes) :: rest =>
      ensure_indexes_loop rest (ensure_indexes_body collection_name indexes w)
  end.

(** [F1Database.ensure_indexes] *)
Definition ensure_indexes (w : world S) : world S :=
  ensure_indexes_loop collections_indexes w.

(** [TestDataIngestion.__aenter__]: the result of [connect] is not looked
    at. *)
Definition __aenter__ (new_client : result (MotorClient S)) (database_name : string)
    (client : option (MotorClient S)) (w : world S)
  : option (MotorClient S) * world S :=
  let '(client, w, _) := connect new_client database_name client w in
  (client, ensure_indexes w).

(** [TestDataIngestion.__aexit__] *)
Definition __aexit__ (client : option (MotorClient S)) (w : world S) : world S :=
  disconnect client w.

End connection.

Section whole_run.
Context {S : Type} `{Storage S} `{Server S} `{Collaborators}.

(** [run_test_ingestion] with its [async with TestDataIngestion()].
    [TestDataIngestion()] makes a new [F1Database], whose fields [client]
    and [db] are [None]; the context is entered, the [try] block runs,
    and the context is left whether or not the block raised. [lg] is the
    log before the run. *)
Definition run_test_ingestion_in_context (new_client : result (MotorClient S))
    (database_name : string) (lg : list log_entry) : world S * result unit :=
  let w := logger INFO "Starting test data ingestion..." (mk_world None lg) in
  let '(client, w) := __aenter__ new_client database_name None w in
  match run_test_ingestion_try w with
  | (w, Ok _) => (__aexit__ client w, Ok tt)
  | (w, Raise e) =>
      (__aexit__ client (logger ERROR ("Test ingestion failed: " ++ exn_msg e) w),
       Raise e)
  end.

End whole_run.

(** The store model as a server: a unique index on one field is built
    unless two stored documents share a value of that field (error
    E11000); other indexes do not change what the model stores. A
    collection is created when its indexes are. *)
Module MongoAdmin.

Definition unique_field (indexes : list IndexModel) : option string :=
  match List.filter (fun i => index_unique i) indexes with
  | i :: _ =>
      match index_keys i with
      | [(f, _)] => Some f
      | _ => None
      end
  | [] => None
  end.

Definition duplicate_key_error (name field : string) : exn :=
  py_exn "DuplicateKeyError"
    ("E11000 duplicate key error collection: openf1." ++ name ++ " index: "
       ++ field ++ "_1").

Definition create_indexes (name : string) (indexes : list IndexModel)
    (dbs : Mongo.database) : Mongo.database * result unit :=
  let c := Mongo.get_collection name dbs in
  match unique_field indexes with
  | None => (<[name := c]> dbs, Ok tt)
  | Some f =>
      if bool_decide (NoDup (map (Mongo.index_key f) (Mongo.docs c)))
      then (<[name := Mongo.mk_collection (Mongo.docs c) (Some f)]> dbs, Ok tt)
      else (<[name := c]> dbs, Raise (duplicate_key_error name f))
  end.

End MongoAdmin.

#[global] Instance mongo_server : Server Mongo.database :=
  {| create_indexes := MongoAdmin.create_indexes |}.

(** A client of the store model: every name gives the handle, and the
    ping is answered. *)
Definition mongo_client (dbs : Mongo.database) : MotorClient Mongo.database :=
  mk_MotorClient (fun _ => Ok dbs) (Ok tt).

(** A server that cannot be reached, and a client of it: the handle is
    given without a round trip, and the ping fails. *)
Definition unreachable_server : Server unit := {|
  create_indexes _ _ s := (s, Raise unreachable)
|}.

Definition unreachable_client : MotorClient unit :=
  mk_MotorClient (fun _ => Ok tt) (Raise unreachable).

(* ===================================================================== *)
(** * Further properties                                                  *)
(* ===================================================================== *)

(** ** Batching for any number of records *)

Lemma len_app {A} (a b : list A) : len (a ++ b) = len a + len b.
Proof. unfold len. rewrite length_app. lia. Qed.

Lemma chunking_concat (docs : list document) : forall pending : list document,
  (concat (fst (chunking pending docs)) ++ snd (chunking pending docs))%list
  = (pending ++ docs)%list.
Proof.
  induction docs as [|d docs IH]; intros pending.
  - simpl. now rewrite app_nil_r.
  - simpl. destruct (config.BATCH_SIZE <=? len (pending ++ [d])).
    + specialize (IH []). destruct (chunking [] docs) as [chunks waiting].
      simpl in *. rewrite <- !app_assoc. simpl. now rewrite IH.
    + rewrite IH. now rewrite <- app_assoc.
Qed.

(** The number of full chunks and the size of the remainder. *)
Lemma chunk_sizes_div_mod (n : nat) : forall pending : Z,
  0 <= pending < config.BATCH_SIZE ->
  chunk_sizes pending n
  = (replicate (Z.to_nat ((pending + Z.of_nat n) / config.BATCH_SIZE)) config.BATCH_SIZE,
     (pending + Z.of_nat n) mod config.BATCH_SIZE).
Proof.
  unfold config.BATCH_SIZE.
  induction n as [|n IH]; intros pending Hp.
  - simpl. rewrite Z.add_0_r, Z.div_small, Z.mod_small by lia. reflexivity.
  - cbn [chunk_sizes]. unfold config.BATCH_SIZE.
    destruct (Z.leb_spec 5000 (pending + 1)) as [Hfull | Hroom].
    + rewrite (IH 0) by lia.
      replace (pending + Z.of_nat (Datatypes.S n)) with (0 + Z.of_nat n + 1 * 5000) by lia.
      rewrite Z.div_add, Z.mod_add by lia.
      replace (pending + 1) with 5000 by lia.
      rewrite Z2Nat.inj_add by (try apply Z.div_pos; lia).
      rewrite Nat.add_comm. reflexivity.
    + rewrite (IH (pending + 1)) by lia.
      now replace (pending + 1 + Z.of_nat n) with (pending + Z.of_nat (Datatypes.S n)) by lia.
Qed.

Definition full_chunks (n : Z) : nat := Z.to_nat (n / config.BATCH_SIZE).
Definition remainder (n : Z) : Z := n mod config.BATCH_SIZE.

(** The batches of a loop that is fed [docs]: the full chunks, then the
    remainder if there is one. *)
Lemma chunking_shape (docs : list document) :
  map len (fst (chunking [] docs)) = replicate (full_chunks (len docs)) config.BATCH_SIZE
  /\ len (snd (chunking [] docs)) = remainder (len docs)
  /\ snd (chunking [] docs)
     = drop (Z.to_nat (len docs - remainder (len docs))) docs.
Proof.
  pose proof (chunking_sizes docs []) as Hsizes.
  rewrite (chunk_sizes_div_mod (length docs) (len [])) in Hsizes
    by (unfold len, config.BATCH_SIZE; simpl; lia).
  change (len [] + Z.of_nat (length docs)) with (len docs) in Hsizes.
  injection Hsizes as Hchunks Hwaiting.
  split; [exact Hchunks |]. split; [exact Hwaiting |].
  pose proof (chunking_concat docs []) as Hconcat. simpl in Hconcat.
  assert (Hlen : Z.to_nat (len docs - remainder (len docs))
                 = length (concat (fst (chunking [] docs)))).
  { apply (f_equal (fun l => length l)) in Hconcat. rewrite length_app in Hconcat.
    unfold remainder. rewrite <- Hwaiting. unfold len. lia. }
  rewrite Hlen.
  transitivity (drop (length (concat (fst (chunking [] docs))))
                  (concat (fst (chunking [] docs)) ++ snd (chunking [] docs))%list).
  - now rewrite drop_app_length.
  - now rewrite Hconcat.
Qed.

(** The sizes of what [flush_remaining] hands to the store. *)
Definition tail_sizes (times : nat) (n : Z) : list Z :=
  if remainder n =? 0 then [] else replicate times (remainder n).

Lemma remainder_range (n : Z) : 0 <= remainder n < config.BATCH_SIZE.
Proof. unfold remainder, config.BATCH_SIZE. apply Z.mod_pos_bound. lia. Qed.

Lemma batch_sizes_flushed_remainder (name : string) (docs : list document) :
  batch_sizes (flushed name (snd (chunking [] docs))) = tail_sizes 1 (len docs)
  /\ (batch_sizes (flushed name (snd (chunking [] docs))
                   ++ flushed name (snd (chunking [] docs)))
      = tail_sizes 2 (len docs)).
Proof.
  destruct (chunking_shape docs) as (_ & Hwaiting & _).
  unfold tail_sizes. rewrite <- Hwaiting. rewrite batch_sizes_app.
  destruct (snd (chunking [] docs)) as [|d waiting]; [split; reflexivity |].
  replace (len (d :: waiting) =? 0) with false
    by (symmetry; apply Z.eqb_neq; unfold len; simpl; lia).
  split; reflexivity.
Qed.

Section any_number.
Context {S : Type} `{Storage S} `{Collaborators}.

(** An ingester that flushes the remainder once hands every document to
    the store once, in the order of the fetch. *)
Lemma ingested_once_shape name field model (data : list item) (s : S) (tr : list call) :
  let docs := dumps field model data in
  exists s' new,
    ingested name field model 1 data (Some (s, tr)) = Some (s', (tr ++ new)%list)
    /\ written_docs new = docs
    /\ batch_sizes new
       = (replicate (full_chunks (len docs)) config.BATCH_SIZE
            ++ tail_sizes 1 (len docs))%list.
Proof.
  intros docs.
  destruct (ingested_once name field model data s tr) as (s' & Hrun).
  fold docs in Hrun. do 2 eexists. split; [exact Hrun |]. split.
  - rewrite written_docs_app, written_docs_chunks, written_docs_flushed.
    apply (chunking_concat docs []).
  - rewrite batch_sizes_app, batch_sizes_chunks.
    rewrite (proj1 (chunking_shape docs)).
    now rewrite (proj1 (batch_sizes_flushed_remainder name docs)).
Qed.

(** An ingester that flushes the remainder twice hands the documents of
    the remainder to the store a second time. *)
Lemma ingested_twice_shape name field model (data : list item) (s : S) (tr : list call) :
  let docs := dumps field model data in
  exists s' new,
    ingested name field model 2 data (Some (s, tr)) = Some (s', (tr ++ new)%list)
    /\ written_docs new
       = (docs ++ drop (Z.to_nat (len docs - remainder (len docs))) docs)%list
    /\ batch_sizes new
       = (replicate (full_chunks (len docs)) config.BATCH_SIZE
            ++ tail_sizes 2 (len docs))%list.
Proof.
  intros docs.
  destruct (ingested_twice name field model data s tr) as (s' & Hrun).
  fold docs in Hrun. do 2 eexists. split; [exact Hrun |]. split.
  - rewrite !written_docs_app, written_docs_chunks, !written_docs_flushed.
    rewrite app_assoc, (chunking_concat docs []). simpl.
    now rewrite <- (proj2 (proj2 (chunking_shape docs))).
  - rewrite batch_sizes_app, batch_sizes_chunks.
    rewrite (proj1 (chunking_shape docs)).
    now rewrite (proj2 (batch_sizes_flushed_remainder name docs)).
Qed.

(** X1. With the store connected, the positions ingester and the
    telemetry batch processor hand the document of every fetched record
    that passes validation to the store exactly once, in the order of the
    fetch, in batches of 5,000 followed by the remainder if there is
    one. *)
Theorem valid_documents_written_once (session_key : value) (s : S) (tr : list call)
    (lg : list log_entry) :
  let w := mk_world (Some (s, tr)) lg in
  (let response := http_get (position_url session_key) in
   let docs := dumps "date" Position_model (json response) in
   status response = 200 ->
   exists new,
     calls (fst (ingest_positions session_key w)) = (tr ++ new)%list
     /\ written_docs new = docs
     /\ batch_sizes new
        = (replicate (full_chunks (len docs)) 5000 ++ tail_sizes 1 (len docs))%list)
  /\
  (forall data,
   let docs := dumps "date" CarData_model data in
   exists new,
     calls (fst (_process_car_data_batch data w)) = (tr ++ new)%list
     /\ written_docs new = docs
     /\ batch_sizes new
        = (replicate (full_chunks (len docs)) 5000 ++ tail_sizes 1 (len docs))%list).
Proof.
  intros w. split.
  - intros response docs Hstatus.
    destruct (ingest_positions_spec session_key w Hstatus) as (w' & Hrun & Hdb).
    destruct (ingested_once_shape "positions" "date" Position_model (json response) s tr)
      as (s' & new & Hcalls & Hdocs & Hsizes).
    exists new. split; [|split; [exact Hdocs | exact Hsizes]].
    rewrite Hrun. unfold calls. simpl fst. rewrite Hdb. simpl db.
    fold response. now rewrite Hcalls.
  - intros data docs.
    destruct (process_car_data_batch_spec data w) as (w' & Hrun & Hdb).
    destruct (ingested_once_shape "car_data" "date" CarData_model data s tr)
      as (s' & new & Hcalls & Hdocs & Hsizes).
    exists new. split; [|split; [exact Hdocs | exact Hsizes]].
    rewrite Hrun. unfold calls. simpl fst. rewrite Hdb. simpl db.
    now rewrite Hcalls.
Qed.

(** X2. With the store connected, the laps and the intervals ingester
    hand the documents of the valid records to the store in the order of
    the fetch and then the documents of the last, partial batch a second
    time: for any number of valid records that is no multiple of 5,000
    the remainder reaches the store twice, and for a multiple of 5,000
    nothing is repeated. *)
Theorem remainder_repeated_for_any_count (session_key : value) (s : S)
    (tr : list call) (lg : list log_entry) :
  let w := mk_world (Some (s, tr)) lg in
  (let response := http_get (laps_url session_key) in
   let docs := dumps "date_start" Lap_model (json response) in
   status response = 200 ->
   exists new,
     calls (fst (ingest_laps session_key w)) = (tr ++ new)%list
     /\ written_docs new
        = (docs ++ drop (Z.to_nat (len docs - remainder (len docs))) docs)%list
     /\ batch_sizes new
        = (replicate (full_chunks (len docs)) 5000 ++ tail_sizes 2 (len docs))%list)
  /\
  (let response := http_get (intervals_url session_key) in
   let docs := dumps "date" Interval_model (json response) in
   status response = 200 ->
   exists new,
     calls (fst (ingest_intervals session_key w)) = (tr ++ new)%list
     /\ written_docs new
        = (docs ++ drop (Z.to_nat (len docs - remainder (len docs))) docs)%list
     /\ batch_sizes new
        = (replicate (full_chunks (len docs)) 5000 ++ tail_sizes 2 (len docs))%list).
Proof.
  intros w. split; intros response docs Hstatus.
  - destruct (ingest_laps_spec session_key w Hstatus) as (w' & Hrun & Hdb).
    destruct (ingested_twice_shape "laps" "date_start" Lap_model (json response) s tr)
      as (s' & new & Hcalls & Hdocs & Hsizes).
    exists new. split; [|split; [exact Hdocs | exact Hsizes]].
    rewrite Hrun. unfold calls. simpl fst. rewrite Hdb. simpl db.
    fold response. now rewrite Hcalls.
  - destruct (ingest_intervals_spec session_key w Hstatus) as (w' & Hrun & Hdb).
    destruct (ingested_twice_shape "intervals" "date" Interval_model (json response) s tr)
      as (s' & new & Hcalls & Hdocs & Hsizes).
    exists new. split; [|split; [exact Hdocs | exact Hsizes]].
    rewrite Hrun. unfold calls. simpl fst. rewrite Hdb. simpl db.
    fold response. now rewrite Hcalls.
Qed.

End any_number.

(** ** The batch writer: its report and its one call *)

Section writer_reports.
Context {S : Type} `{Storage S}.

(** The line that closes a call of the writer: the count at level INFO,
    or an error, and then the count is 0. *)
Definition is_report (name : string) (n : Z) (l : log_entry) : Prop :=
  l = MongoFacts.inserted_line name n
  \/ (exists e, l = bulk_insert_error_line name e) /\ n = 0.

Lemma bulk_insert_try_lines (name : string) (documents : list document)
    (key : option string) (w : world S) :
  exists w' before,
    Forall (fun l : log_entry => fst l = DEBUG) before
    /\ (length before <= 1)%nat
    /\ ((exists n, bulk_insert_try name documents key w = (w', Ok n)
                   /\ log w' = (log w ++ before ++ [MongoFacts.inserted_line name n])%list)
        \/ (exists e, bulk_insert_try name documents key w = (w', Raise e)
                      /\ log w' = (log w ++ before)%list)).
Proof.
  unfold bulk_insert_try. destruct (db w) as [s|].
  - destruct (upsert_mode key) as [k|].
    + destruct (build_operations k documents) as [operations | e].
      * destruct (bulk_write name operations s) as [s' [res | e]].
        -- do 2 eexists. split; [apply Forall_nil_2 |]. split; [simpl; lia |].
           left. eexists. split; [reflexivity |]. reflexivity.
        -- exists (set_db s' w), []. split; [apply Forall_nil_2 |]. split; [simpl; lia |].
           right. eexists. split; [reflexivity |]. simpl. now rewrite app_nil_r.
      * exists w, []. split; [apply Forall_nil_2 |]. split; [simpl; lia |].
        right. eexists. split; [reflexivity |]. now rewrite app_nil_r.
    + destruct (insert_many name documents s) as [s' [res | e]].
      * do 2 eexists. split; [apply Forall_nil_2 |]. split; [simpl; lia |].
        left. eexists. split; [reflexivity |]. reflexivity.
      * unfold on_bulk_error.
        destruct (str_contains "duplicate key error" (exn_msg e)).
        -- destruct (exn_details e) as [| |d].
           ++ match goal with
              | |- context [if ?c then _ else _] => destruct c
              end.
              ** eexists. eexists [(DEBUG, _)]. split; [apply Forall_singleton; reflexivity |].
                 split; [simpl; lia |]. left. eexists. split; [reflexivity |].
                 simpl. now rewrite <- app_assoc.
              ** eexists. exists []. split; [apply Forall_nil_2 |].
                 split; [simpl; lia |]. left. eexists. split; [reflexivity |]. reflexivity.
           ++ eexists. exists []. split; [apply Forall_nil_2 |]. split; [simpl; lia |].
              right. eexists. split; [reflexivity |]. simpl. now rewrite app_nil_r.
           ++ match goal with
              | |- context [if ?c then _ else _] => destruct c
              end.
              ** eexists. eexists [(DEBUG, _)]. split; [apply Forall_singleton; reflexivity |].
                 split; [simpl; lia |]. left. eexists. split; [reflexivity |].
                 simpl. now rewrite <- app_assoc.
              ** eexists. exists []. split; [apply Forall_nil_2 |].
                 split; [simpl; lia |]. left. eexists. split; [reflexivity |]. reflexivity.
        -- eexists. exists []. split; [apply Forall_nil_2 |]. split; [simpl; lia |].
           right. eexists. split; [reflexivity |]. simpl. now rewrite app_nil_r.
  - exists w, []. split; [apply Forall_nil_2 |]. split; [simpl; lia |].
    right. eexists. split; [reflexivity |]. now rewrite app_nil_r.
Qed.

(** X3. Every call of the batch writer with a non-empty batch ends with
    exactly one closing line on the log: the line "Inserted/Updated n
    documents" at level INFO with the count it returns, or one line at
    level ERROR, and then it returns 0. Before the closing line it logs
    at most one line, at level DEBUG. *)
Theorem every_batch_reported (name : string) (d : document) (documents : list document)
    (key : option string) (w : world S) :
  exists w' n before final,
    bulk_insert name (d :: documents) key w = (w', Ok n)
    /\ log w' = (log w ++ before ++ [final])%list
    /\ is_report name n final
    /\ Forall (fun l : log_entry => fst l = DEBUG) before
    /\ (length before <= 1)%nat.
Proof.
  destruct (bulk_insert_try_lines name (d :: documents) key w)
    as (w' & before & Hdebug & Hlen & [(n & Htry & Hlog) | (e & Htry & Hlog)]).
  - exists w', n, before, (MongoFacts.inserted_line name n).
    split; [|split; [exact Hlog | split; [now left | split; assumption]]].
    apply bulk_insert_passes; [discriminate | exact Htry].
  - eexists _, 0, before, (bulk_insert_error_line name e).
    split; [|split; [|split; [right; eauto | split; assumption]]].
    + apply bulk_insert_caught; [discriminate | exact Htry].
    + simpl. rewrite Hlog. now rewrite <- app_assoc.
Qed.

End writer_reports.

Section writer_calls.
Context {S : Type} `{Storage S}.

(** The operations that the writer builds from a batch. *)
Lemma build_operations_shape (k : string) (documents : list document) :
  forall operations, build_operations k documents = Ok operations ->
  map uo_set operations = documents
  /\ Forall (fun op => uo_upsert op = true
                       /\ exists v, uo_set op !! k = Some v
                                    /\ uo_filter op = {[ k := v ]}) operations.
Proof.
  induction documents as [|doc documents IH]; intros operations.
  - intros [= <-]. split; [reflexivity | apply Forall_nil_2].
  - simpl. destruct (doc !! k) as [v|] eqn:Hk; [|discriminate].
    destruct (build_operations k documents) as [ops | e]; [|discriminate].
    simpl. intros [= <-]. destruct (IH ops eq_refl) as [Hset Hall].
    split; [simpl; now rewrite Hset |].
    apply Forall_cons. split; [|exact Hall].
    split; [reflexivity |]. exists v. split; [exact Hk | reflexivity].
Qed.

(** X4. The batch writer hands a non-empty batch to the store in one
    call, whatever the store answers: in insert mode one [insert_many]
    with the batch as it is, in upsert mode one [bulk_write] with one
    upserting operation per document, in the order of the batch, each
    filtering on the document's own value of the key. Nothing is
    retried. *)
Theorem one_call_per_batch (name : string) (documents : list document)
    (key : option string) (s : S) (tr : list call) (lg : list log_entry) :
  let w := mk_world (Some (s, tr)) lg in
  documents <> [] ->
  (upsert_mode key = None ->
   calls (fst (bulk_insert name documents key w))
   = (tr ++ [InsertMany name documents])%list)
  /\
  (forall k operations,
   upsert_mode key = Some k ->
   build_operations k documents = Ok operations ->
   calls (fst (bulk_insert name documents key w))
   = (tr ++ [BulkWrite name operations])%list
   /\ map uo_set operations = documents
   /\ Forall (fun op => uo_upsert op = true
                        /\ exists v, uo_set op !! k = Some v
                                     /\ uo_filter op = {[ k := v ]}) operations).
Proof.
  intros w Hne. destruct documents as [|d documents]; [congruence |]. split.
  - intros Hmode. unfold bulk_insert, bulk_insert_try. simpl db. rewrite Hmode.
    cbn [insert_many traced_storage fst snd].
    destruct (insert_many name (d :: documents) s) as [s' [res | e]]; [reflexivity |].
    unfold on_bulk_error.
    destruct (str_contains "duplicate key error" (exn_msg e)); [|reflexivity].
    destruct (exn_details e); try reflexivity;
      match goal with
      | |- context [if ?c then _ else _] => destruct c; reflexivity
      end.
  - intros k operations Hmode Hops. split; [|now apply build_operations_shape].
    unfold bulk_insert, bulk_insert_try. simpl db. rewrite Hmode, Hops.
    cbn [bulk_write traced_storage fst snd].
    destruct (bulk_write name operations s) as [s' [res | e]]; reflexivity.
Qed.

End writer_calls.

(** ** The batch writer on the document store, for any batch *)

Module InsertFacts.

(** An unordered insert appends some of the documents of the batch, in
    their order, and counts them; what it appends keeps the unique index
    intact and leaves no key of the batch out of the collection. *)
Lemma insert_each_grows u (documents : list document) : forall stored : list document,
  exists added,
    Mongo.insert_each u stored documents = ((stored ++ added)%list, length added)
    /\ sublist added documents
    /\ match u with
       | Some k =>
           (NoDup (map (Mongo.index_key k) stored) ->
            NoDup (map (Mongo.index_key k) (stored ++ added)))
           /\ (forall d, d ∈ documents ->
                 Mongo.index_key k d ∈ map (Mongo.index_key k) (stored ++ added))
       | None => added = documents
       end.
Proof.
  induction documents as [|d documents IH]; intros stored.
  - exists []. simpl. rewrite app_nil_r. split; [reflexivity |].
    split; [constructor |]. destruct u as [k|]; [|reflexivity].
    split; [tauto |]. intros d Hd. inversion Hd.
  - simpl. destruct (Mongo.violates_unique u stored d) eqn:Hv.
    + destruct (IH stored) as (added & Hrun & Hsub & Hu).
      exists added. split; [exact Hrun |]. split; [now apply sublist_cons |].
      destruct u as [k|]; [|discriminate].
      destruct Hu as [Hnd Hkeys]. split; [exact Hnd |].
      intros d' Hd'. apply elem_of_cons in Hd' as [-> | Hd']; [|now apply Hkeys].
      simpl in Hv. apply existsb_exists in Hv as (x & Hx & Hcol).
      unfold Mongo.collides in Hcol. apply bool_decide_eq_true_1 in Hcol.
      rewrite <- Hcol. rewrite map_app. apply elem_of_app. left.
      apply list_elem_of_In, in_map, Hx.
    + destruct (IH (stored ++ [d])%list) as (added & Hrun & Hsub & Hu).
      exists (d :: added). rewrite Hrun. rewrite <- app_assoc. simpl.
      split; [reflexivity |]. split; [now apply sublist_skip |].
      destruct u as [k|]; [|now rewrite Hu].
      destruct Hu as [Hnd Hkeys]. rewrite <- app_assoc in Hnd, Hkeys. simpl in Hnd, Hkeys.
      split.
      * intros Hstored. apply Hnd. rewrite map_app. simpl.
        apply NoDup_app. split; [exact Hstored |]. split.
        -- intros x Hx Hxd. apply list_elem_of_singleton in Hxd as ->.
           simpl in Hv. apply not_true_iff_false in Hv. apply Hv.
           apply list_elem_of_In, in_map_iff in Hx as (y & Hy & Hin).
           apply existsb_exists. exists y. split; [exact Hin |].
           unfold Mongo.collides. now apply bool_decide_eq_true_2.
        -- apply NoDup_singleton.
      * intros d' Hd'. apply elem_of_cons in Hd' as [-> | Hd']; [|now apply Hkeys].
        rewrite map_app. apply elem_of_app. right. simpl. apply list_elem_of_here.
Qed.

(** X5. On the document store, a non-empty batch written in insert mode,
    duplicates inside the batch included: the count that the writer
    returns is the number of documents by which the collection has
    grown; the new documents are documents of the batch, in the order of
    the batch, appended after the stored ones, which stay as they were;
    a unique index that held before holds after; and no other collection
    is touched. *)
Theorem insert_count_is_growth (name : string) (documents : list document)
    (key : option string) (dbs : Mongo.database) (lg : list log_entry) :
  let c := Mongo.get_collection name dbs in
  documents <> [] ->
  upsert_mode key = None ->
  exists w' dbs' added,
    bulk_insert name documents key (mk_world (Some dbs) lg) = (w', Ok (len added))
    /\ db w' = Some dbs'
    /\ Mongo.get_collection name dbs'
       = Mongo.mk_collection (Mongo.docs c ++ added) (Mongo.unique_key c)
    /\ sublist added documents
    /\ (Mongo.unique_key c = None -> added = documents)
    /\ (Mongo.unique_ok c -> Mongo.unique_ok (Mongo.get_collection name dbs'))
    /\ (forall other, other <> name -> dbs' !! other = dbs !! other).
Proof.
  intros c Hne Hmode.
  destruct (insert_each_grows (Mongo.unique_key c) documents (Mongo.docs c))
    as (added & Hrun & Hsub & Hu).
  set (dbs' := <[name := Mongo.mk_collection (Mongo.docs c ++ added) (Mongo.unique_key c)]> dbs).
  assert (Hc' : Mongo.get_collection name dbs'
                = Mongo.mk_collection (Mongo.docs c ++ added) (Mongo.unique_key c)).
  { unfold Mongo.get_collection, dbs'. now rewrite lookup_insert_eq. }
  assert (Hins : Mongo.insert_many name documents dbs
                 = (dbs', if (length added =? length documents)%nat
                          then Ok (mk_InsertManyResult
                                     (map N.of_nat (seq (length (Mongo.docs c)) (length added))))
                          else Raise (Mongo.BulkWriteError name (len added) 0 0 0))).
  { rewrite (MongoFacts.insert_many_nonempty name documents dbs Hne).
    cbv zeta. fold c. rewrite Hrun. fold dbs'.
    now destruct (length added =? length documents)%nat. }
  assert (Htry : exists w', db w' = Some dbs'
                   /\ bulk_insert_try name documents key (mk_world (Some dbs) lg)
                      = (w', Ok (len added))).
  { unfold bulk_insert_try. simpl db. rewrite Hmode.
    change (insert_many name documents dbs)
      with (Mongo.insert_many name documents dbs).
    rewrite Hins.
    destruct (length added =? length documents)%nat.
    - simpl. rewrite length_map, length_seq. eexists. split; [|reflexivity]. reflexivity.
    - unfold on_bulk_error.
      cbn [exn_msg exn_details Mongo.BulkWriteError].
      rewrite MongoFacts.bulk_write_error_mentions_duplicate.
      rewrite lookup_insert_eq. cbn [default from_option id].
      match goal with
      | |- context [if ?c then _ else _] =>
          destruct c; (eexists; split; [|reflexivity]; reflexivity)
      end. }
  destruct Htry as (w' & Hdb & Htry).
  pose proof (bulk_insert_passes name documents key _ w' _ Hne Htry) as Hbulk.
  exists w', dbs', added.
  split; [exact Hbulk |]. split; [exact Hdb |]. split; [exact Hc' |].
  split; [exact Hsub |]. split; [|split].
  - intros Hnone. now rewrite Hnone in Hu.
  - rewrite Hc'. unfold Mongo.unique_ok. simpl.
    destruct (Mongo.unique_key c) as [k|]; [apply Hu | tauto].
  - intros other Hother. unfold dbs'. now rewrite lookup_insert_ne by congruence.
Qed.

End InsertFacts.

(** ** The session upsert: what is stored *)

Module SessionMerge.

Lemma union_unchanged_iff (record d : document) : record ∪ d = d <-> record ⊆ d.
Proof.
  split.
  - intros Heq. rewrite <- Heq. apply map_union_subseteq_l.
  - intros Hsub. now apply map_subseteq_union.
Qed.

(** X6. With the unique index on [session_key] in place, the upsert of a
    session record either appends the record as a new document, when no
    stored document has its key, and returns 1; or it updates the one
    stored document with that key in its place: the fields of the record
    replace the stored ones, the other stored fields are kept, and the
    call returns 0 exactly when the stored document had all the fields of
    the record already. The other documents of the collection and their
    order are unchanged. *)
Theorem upsert_session_merges (dbs : Mongo.database) (lg : list log_entry)
    (record : document) (k : Z) :
  let c := Mongo.get_collection "sessions" dbs in
  Mongo.unique_key c = Some "session_key" ->
  Mongo.unique_ok c ->
  record !! "session_key" = Some (VInt k) ->
  exists dbs' n,
    bulk_insert "sessions" [record] (Some "session_key") (mk_world (Some dbs) lg)
      = (mk_world (Some dbs') (lg ++ [MongoFacts.inserted_line "sessions" n]), Ok n)
    /\ (forall other, other <> "sessions" -> dbs' !! other = dbs !! other)
    /\ ((Forall (fun x : document => x !! "session_key" <> Some (VInt k)) (Mongo.docs c)
         /\ Mongo.docs (Mongo.get_collection "sessions" dbs')
            = (Mongo.docs c ++ [record])%list
         /\ n = 1)
        \/
        (exists l1 d l2,
           Mongo.docs c = (l1 ++ d :: l2)%list
           /\ d !! "session_key" = Some (VInt k)
           /\ Mongo.docs (Mongo.get_collection "sessions" dbs')
              = (l1 ++ (record ∪ d) :: l2)%list
           /\ (forall f, (record ∪ d) !! f
                         = match record !! f with
                           | Some x => Some x
                           | None => d !! f
                           end)
           /\ n = if bool_decide (record ⊆ d) then 0 else 1)).
Proof.
  intros c Hu Hok Hrec.
  assert (Hnn : VInt k <> VNone) by discriminate.
  assert (Hc : c = Mongo.mk_collection (Mongo.docs c) (Some "session_key")).
  { destruct c as [st u]. simpl in Hu. now subst u. }
  assert (Hops : build_operations "session_key" [record]
                 = Ok [UpsertFacts.op "session_key" (VInt k) record]).
  { simpl. now rewrite Hrec. }
  assert (Hwrite : forall stored' out,
            Mongo.update_one (Some "session_key")
              (UpsertFacts.op "session_key" (VInt k) record) (Mongo.docs c)
            = (stored', out) ->
            out <> Mongo.WriteError ->
            let res := SessionUpsert.result_of out in
            let dbs' := <["sessions" := Mongo.mk_collection stored' (Some "session_key")]> dbs in
            bulk_insert "sessions" [record] (Some "session_key") (mk_world (Some dbs) lg)
            = (mk_world (Some dbs')
                 (lg ++ [MongoFacts.inserted_line "sessions"
                           (upserted_count res + modified_count res)]),
               Ok (upserted_count res + modified_count res))
            /\ (forall other, other <> "sessions" -> dbs' !! other = dbs !! other)
            /\ Mongo.docs (Mongo.get_collection "sessions" dbs') = stored').
  { intros stored' out Hupd Hout res dbs'. split; [|split].
    - apply (bulk_insert_upsert_reports "sessions" [record] (Some "session_key")
               "session_key" [UpsertFacts.op "session_key" (VInt k) record]
               (mk_world (Some dbs) lg) dbs dbs');
        [discriminate | reflexivity | reflexivity | exact Hops |].
      apply (SessionUpsert.bulk_write_one "sessions" _ dbs (Mongo.docs c));
        [exact Hc | exact Hupd | exact Hout].
    - intros other Hother. unfold dbs'. now rewrite lookup_insert_ne by congruence.
    - unfold Mongo.get_collection, dbs'. now rewrite lookup_insert_eq. }
  destruct (list_find (Mongo.matches {[ "session_key" := VInt k ]}) (Mongo.docs c))
    as [[i d]|] eqn:Hfind.
  - apply list_find_Some in Hfind as (Hi & Hm & _).
    apply UpsertFacts.matches_iff in Hm.
    unfold Mongo.unique_ok in Hok. rewrite Hu in Hok.
    pose proof (UpsertFacts.unique_split "session_key" (VInt k) Hnn record Hrec
                  (Mongo.docs c) i d Hok Hi Hm) as Hnone.
    pose proof (UpsertFacts.update_one_present "session_key" (VInt k) Hnn record Hrec
                  (take i (Mongo.docs c)) (drop (Datatypes.S i) (Mongo.docs c)) d
                  Hnone Hm) as Hupd.
    rewrite (take_drop_middle (Mongo.docs c) i d Hi) in Hupd.
    destruct (Hwrite _ _ Hupd ltac:(discriminate)) as (Hrun & Hothers & Hdocs).
    do 2 eexists. split; [exact Hrun |]. split; [exact Hothers |]. right.
    exists (take i (Mongo.docs c)), d, (drop (Datatypes.S i) (Mongo.docs c)).
    split; [now rewrite (take_drop_middle (Mongo.docs c) i d Hi) |].
    split; [exact Hm |]. split; [exact Hdocs |]. split.
    + intros f. rewrite lookup_union. now destruct (record !! f), (d !! f).
    + unfold SessionUpsert.result_of. simpl.
      destruct (decide (record ⊆ d)) as [Hsub | Hsub].
      * rewrite (bool_decide_eq_true_2 _ Hsub).
        rewrite bool_decide_eq_false_2; [reflexivity |].
        intros Hne. apply Hne. now apply union_unchanged_iff.
      * rewrite (bool_decide_eq_false_2 _ Hsub).
        rewrite bool_decide_eq_true_2; [reflexivity |].
        intros Heq. apply Hsub. now apply union_unchanged_iff.
  - apply list_find_None in Hfind.
    assert (Hnone : Forall (fun x : document => x !! "session_key" <> Some (VInt k))
                      (Mongo.docs c)).
    { eapply Forall_impl; [exact Hfind |]. intros x Hx Hxv. apply Hx.
      now apply UpsertFacts.matches_iff. }
    pose proof (UpsertFacts.update_one_fresh "session_key" (VInt k) Hnn record Hrec
                  (Mongo.docs c) Hnone) as Hupd.
    destruct (Hwrite _ _ Hupd ltac:(discriminate)) as (Hrun & Hothers & Hdocs).
    do 2 eexists. split; [exact Hrun |]. split; [exact Hothers |]. left.
    split; [exact Hnone |]. split; [exact Hdocs | reflexivity].
Qed.

End SessionMerge.

(** ** database.py: the indexes *)

Section indexes.
Context {S : Type} `{Server S}.

(** The line that closes the attempt on one collection. *)
Definition index_line (name : string) (l : log_entry) : Prop :=
  l = (INFO, "Created indexes for " ++ name)
  \/ exists msg, l = (WARNING, "Error creating indexes for " ++ name ++ ": " ++ msg).

Lemma ensure_indexes_body_spec (name : string) (indexes : list IndexModel) (w : world S) :
  exists l,
    log (ensure_indexes_body name indexes w) = (log w ++ [l])%list
    /\ index_line name l
    /\ (db w = None ->
        db (ensure_indexes_body name indexes w) = None /\ fst l = WARNING)
    /\ (is_Some (db w) -> is_Some (db (ensure_indexes_body name indexes w))).
Proof.
  unfold ensure_indexes_body. destruct (db w) as [s|] eqn:Hdb.
  - destruct (create_indexes name indexes s) as [s' [u | e]].
    + eexists. split; [reflexivity |]. split; [now left |].
      split; [discriminate | intros _; simpl; eauto].
    + eexists. split; [reflexivity |]. split; [right; eauto |].
      split; [discriminate | intros _; simpl; eauto].
  - eexists. split; [reflexivity |]. split; [right; eauto |].
    split; [intros _; simpl; now rewrite Hdb | intros [x [=]]].
Qed.

Lemma ensure_indexes_loop_spec (todo : list (string * list IndexModel)) :
  forall w : world S,
  exists lines,
    log (ensure_indexes_loop todo w) = (log w ++ lines)%list
    /\ Forall2 index_line (map fst todo) lines
    /\ (db w = None ->
        db (ensure_indexes_loop todo w) = None
        /\ Forall (fun l : log_entry => fst l = WARNING) lines)
    /\ (is_Some (db w) -> is_Some (db (ensure_indexes_loop todo w))).
Proof.
  induction todo as [|[name indexes] todo IH]; intros w.
  - exists []. simpl. rewrite app_nil_r. split; [reflexivity |].
    split; [constructor |]. split; [intros Hdb; split; [exact Hdb | constructor] | tauto].
  - simpl. destruct (ensure_indexes_body_spec name indexes w)
      as (l & Hlog & Hline & Hnone & Hsome).
    destruct (IH (ensure_indexes_body name indexes w))
      as (lines & Hlogs & Hlines & Hnones & Hsomes).
    exists (l :: lines). split; [|split; [|split]].
    + rewrite Hlogs, Hlog. now rewrite <- app_assoc.
    + now constructor.
    + intros Hdb. destruct (Hnone Hdb) as [Hdb1 Hl].
      destruct (Hnones Hdb1) as [Hdb2 Hls]. split; [exact Hdb2 | now constructor].
    + intros Hdb. apply Hsomes, Hsome, Hdb.
Qed.

(** X7. [ensure_indexes] attempts the six collections in the order
    sessions, drivers, laps, car_data, positions, intervals and closes
    each attempt with one line, "Created indexes" at level INFO or the
    error at level WARNING: a failure on one collection does not stop
    the attempts on the later ones. Without a database handle all six
    lines are warnings and there is still no handle afterwards. *)
Theorem indexes_attempted_for_all (w : world S) :
  exists lines,
    log (ensure_indexes w) = (log w ++ lines)%list
    /\ Forall2 index_line
         ["sessions"; "drivers"; "laps"; "car_data"; "positions"; "intervals"] lines
    /\ (db w = None ->
        db (ensure_indexes w) = None
        /\ Forall (fun l : log_entry => fst l = WARNING) lines)
    /\ (is_Some (db w) -> is_Some (db (ensure_indexes w))).
Proof. apply (ensure_indexes_loop_spec collections_indexes w). Qed.

End indexes.

(** ** The indexes on the document store *)

Module IndexFacts.

Definition created_line (name : string) : log_entry :=
  (INFO, "Created indexes for " ++ name).

Definition connected_line (database_name : string) : log_entry :=
  (INFO, "Connected to MongoDB: " ++ database_name).

Definition plain (entry : string * list IndexModel) : Prop :=
  MongoAdmin.unique_field (snd entry) = None.

(** Collections whose indexes are not unique: the indexes are created,
    and the documents and the unique indexes of the store stay as they
    are. *)
Lemma plain_indexes_loop (todo : list (string * list IndexModel)) :
  forall (dbs : Mongo.database) (lg : list log_entry),
  Forall plain todo ->
  exists dbs',
    ensure_indexes_loop todo (mk_world (Some dbs) lg)
    = mk_world (Some dbs') (lg ++ map (fun entry => created_line (fst entry)) todo)
    /\ forall n, Mongo.get_collection n dbs' = Mongo.get_collection n dbs.
Proof.
  induction todo as [|[name indexes] todo IH]; intros dbs lg Hplain.
  - exists dbs. simpl. now rewrite app_nil_r.
  - apply Forall_cons in Hplain as [Hname Hplain]. unfold plain in Hname. simpl in Hname.
    simpl. unfold ensure_indexes_body. simpl db.
    cbn [create_indexes mongo_server]. unfold MongoAdmin.create_indexes.
    rewrite Hname.
    match goal with
    | |- context [ensure_indexes_loop todo ?w0] =>
        change w0 with (mk_world (Some (<[name := Mongo.get_collection name dbs]> dbs))
                          (lg ++ [created_line name])%list)
    end.
    destruct (IH (<[name := Mongo.get_collection name dbs]> dbs)
                 (lg ++ [created_line name])%list Hplain)
      as (dbs' & -> & Hsame).
    exists dbs'. split; [now rewrite <- app_assoc |].
    intros n. rewrite Hsame. unfold Mongo.get_collection.
    destruct (decide (n = name)) as [-> | Hne].
    + now rewrite lookup_insert_eq.
    + now rewrite lookup_insert_ne by congruence.
Qed.

Definition session_indexes : list IndexModel :=
  [ unique_index_on ["session_key"]; index_on ["meeting_key"]; index_on ["date_start"] ].

Definition other_indexes : list (string * list IndexModel) :=
  [ ("drivers",
      [ index_on ["session_key"; "driver_number"];
        index_on ["driver_number"] ]);
    ("laps",
      [ index_on ["session_key"; "driver_number"; "lap_number"];
        index_on ["session_key"; "lap_number"];
        index_on ["session_key"; "driver_number"] ]);
    ("car_data",
      [ index_on ["session_key"; "driver_number"; "date"];
        index_on ["session_key"; "date"];
        index_on ["driver_number"; "date"] ]);
    ("positions",
      [ index_on ["session_key"; "date"];
        index_on ["session_key"; "driver_number"; "date"] ]);
    ("intervals",
      [ index_on ["session_key"; "date"];
        index_on ["session_key"; "driver_number"; "date"] ]) ].

Lemma collections_indexes_split :
  collections_indexes = ("sessions", session_indexes) :: other_indexes.
Proof. reflexivity. Qed.

Lemma other_indexes_plain : Forall plain other_indexes.
Proof.
  unfold other_indexes.
  repeat (apply Forall_cons; split; [reflexivity |]). apply Forall_nil_2.
Qed.

(** The unique index of the sessions is built when the stored sessions
    have distinct keys. *)
Lemma session_indexes_body (dbs : Mongo.database) (lg : list log_entry) :
  let sessions := Mongo.get_collection "sessions" dbs in
  NoDup (map (Mongo.index_key "session_key") (Mongo.docs sessions)) ->
  ensure_indexes_body "sessions" session_indexes (mk_world (Some dbs) lg)
  = mk_world (Some (<["sessions" := Mongo.mk_collection (Mongo.docs sessions)
                                      (Some "session_key")]> dbs))
      (lg ++ [created_line "sessions"]).
Proof.
  intros sessions Hnd. unfold ensure_indexes_body. simpl db.
  cbn [create_indexes mongo_server]. unfold MongoAdmin.create_indexes.
  change (MongoAdmin.unique_field session_indexes) with (Some "session_key").
  fold sessions. cbv iota beta.
  rewrite (bool_decide_eq_true_2 _ Hnd). reflexivity.
Qed.

(** X8. Entering the ingestion context on the document store, when no
    two stored sessions share a [session_key]: the client is kept, the
    connection and the
    indexes of all six collections are reported at level INFO; the
    sessions collection has its unique index on [session_key], and the
    index holds; every collection stores the documents it stored before;
    and no other collection has got a unique index. *)
Theorem context_declares_session_key_unique (dbs : Mongo.database)
    (database_name : string) (lg : list log_entry) :
  let sessions := Mongo.get_collection "sessions" dbs in
  NoDup (map (Mongo.index_key "session_key") (Mongo.docs sessions)) ->
  exists dbs',
    __aenter__ (Ok (mongo_client dbs)) database_name None (mk_world None lg)
    = (Some (mongo_client dbs),
       mk_world (Some dbs')
         (lg ++ connected_line database_name
             :: map created_line
                  ["sessions"; "drivers"; "laps"; "car_data"; "positions"; "intervals"]))
    /\ Mongo.unique_key (Mongo.get_collection "sessions" dbs') = Some "session_key"
    /\ Mongo.unique_ok (Mongo.get_collection "sessions" dbs')
    /\ (forall n, Mongo.docs (Mongo.get_collection n dbs')
                  = Mongo.docs (Mongo.get_collection n dbs))
    /\ (forall n, n <> "sessions" ->
          Mongo.unique_key (Mongo.get_collection n dbs')
          = Mongo.unique_key (Mongo.get_collection n dbs)).
Proof.
  intros sessions Hnd.
  change (__aenter__ (Ok (mongo_client dbs)) database_name None (mk_world None lg))
    with (Some (mongo_client dbs),
          ensure_indexes (mk_world (Some dbs) (lg ++ [connected_line database_name]))).
  unfold ensure_indexes. rewrite collections_indexes_split.
  cbn [ensure_indexes_loop].
  rewrite (session_indexes_body dbs _ Hnd). fold sessions.
  set (dbs1 := <["sessions" := Mongo.mk_collection (Mongo.docs sessions)
                                 (Some "session_key")]> dbs).
  destruct (plain_indexes_loop other_indexes dbs1
              ((lg ++ [connected_line database_name]) ++ [created_line "sessions"])%list
              other_indexes_plain) as (dbs' & Hrun & Hsame).
  exists dbs'. split; [|split; [|split; [|split]]].
  - rewrite Hrun. do 2 f_equal. rewrite <- !app_assoc. reflexivity.
  - rewrite Hsame. unfold Mongo.get_collection, dbs1. now rewrite lookup_insert_eq.
  - rewrite Hsame. unfold Mongo.get_collection, dbs1. rewrite lookup_insert_eq.
    exact Hnd.
  - intros n. rewrite Hsame. unfold Mongo.get_collection at 1, dbs1.
    destruct (decide (n = "sessions")) as [-> | Hne].
    + now rewrite lookup_insert_eq.
    + now rewrite lookup_insert_ne by congruence.
  - intros n Hne. rewrite Hsame. unfold Mongo.get_collection at 1, dbs1.
    now rewrite lookup_insert_ne by congruence.
Qed.

End IndexFacts.

(** ** The database handle through the run *)

(** [self.db] of [F1Database] is set. *)
Definition connected {S : Type} (w : world S) : Prop := is_Some (db w).

Section handle.
Context {S : Type} `{Storage S} `{Collaborators}.

Lemma bulk_insert_connected (name : string) (documents : list document)
    (key : option string) (w : world S) :
  connected (fst (bulk_insert name documents key w)) <-> connected w.
Proof.
  unfold connected. destruct documents as [|d documents]; [reflexivity |].
  unfold bulk_insert, bulk_insert_try. destruct (db w) as [s|] eqn:Hdb.
  - split; [eauto |]. intros _.
    destruct (upsert_mode key) as [k|].
    + destruct (build_operations k (d :: documents)) as [operations | e].
      * destruct (bulk_write name operations s) as [s' [res | e]]; simpl; eauto.
      * simpl. rewrite Hdb. eauto.
    + destruct (insert_many name (d :: documents) s) as [s' [res | e]]; [simpl; eauto |].
      unfold on_bulk_error.
      destruct (str_contains "duplicate key error" (exn_msg e)); [|simpl; eauto].
      destruct (exn_details e); simpl; eauto;
        match goal with
        | |- context [if ?c then _ else _] => destruct c; simpl; eauto
        end.
  - simpl. now rewrite Hdb.
Qed.

Lemma write_db_connected (name : string) (documents : list document) (st : option S) :
  is_Some (write_db name documents st) <-> is_Some st.
Proof. apply (bulk_insert_connected name documents None (mk_world st [])). Qed.

Lemma feed_connected (name : string) (docs : list document) :
  forall (pending : list document) (st : option S),
  is_Some (fst (feed name docs pending st)) <-> is_Some st.
Proof.
  induction docs as [|d docs IH]; intros pending st; [reflexivity |].
  simpl. destruct (config.BATCH_SIZE <=? len (pending ++ [d])).
  - rewrite IH. apply write_db_connected.
  - apply IH.
Qed.

Lemma flush_db_connected (name : string) (pending : list document) (st : option S) :
  is_Some (flush_db name pending st) <-> is_Some st.
Proof. destruct pending; [reflexivity | apply write_db_connected]. Qed.

Lemma ingested_connected name field model (times : nat) (data : list item)
    (st : option S) :
  is_Some (ingested name field model times data st) <-> is_Some st.
Proof.
  unfold ingested. induction times as [|times IH].
  - apply feed_connected.
  - cbn [Nat.iter nat_rect]. rewrite flush_db_connected. exact IH.
Qed.

(** What the ingesters return: the number of fetched records that pass
    validation (for positions: of fetched records), and 0 when the fetch
    fails. *)
Definition fetched_valid (url field : string) (model : item -> result document) : Z :=
  let response := http_get url in
  if status response =? 200
  then len (List.filter (passes field model) (json response))
  else 0.

Definition fetched (url : string) : Z :=
  let response := http_get url in
  if status response =? 200 then len (json response) else 0.

Lemma ingest_laps_total (session_key : value) (w : world S) :
  exists w',
    ingest_laps session_key w
    = (w', Ok (fetched_valid (laps_url session_key) "date_start" Lap_model))
    /\ (connected w' <-> connected w).
Proof.
  unfold fetched_valid.
  destruct (Z.eqb_spec (status (http_get (laps_url session_key))) 200) as [Hok | Hfail].
  - destruct (ingest_laps_spec session_key w Hok) as (w' & Hrun & Hdb).
    exists w'. split; [exact Hrun |]. unfold connected. rewrite Hdb.
    apply ingested_connected.
  - unfold ingest_laps. fold (laps_url session_key).
    rewrite (proj2 (Z.eqb_neq _ _) Hfail). eexists. split; reflexivity.
Qed.

Lemma ingest_intervals_total (session_key : value) (w : world S) :
  exists w',
    ingest_intervals session_key w
    = (w', Ok (fetched_valid (intervals_url session_key) "date" Interval_model))
    /\ (connected w' <-> connected w).
Proof.
  unfold fetched_valid.
  destruct (Z.eqb_spec (status (http_get (intervals_url session_key))) 200)
    as [Hok | Hfail].
  - destruct (ingest_intervals_spec session_key w Hok) as (w' & Hrun & Hdb).
    exists w'. split; [exact Hrun |]. unfold connected. rewrite Hdb.
    apply ingested_connected.
  - unfold ingest_intervals. fold (intervals_url session_key).
    rewrite (proj2 (Z.eqb_neq _ _) Hfail). eexists. split; reflexivity.
Qed.

Lemma ingest_positions_total (session_key : value) (w : world S) :
  exists w',
    ingest_positions session_key w = (w', Ok (fetched (position_url session_key)))
    /\ (connected w' <-> connected w).
Proof.
  unfold fetched.
  destruct (Z.eqb_spec (status (http_get (position_url session_key))) 200)
    as [Hok | Hfail].
  - destruct (ingest_positions_spec session_key w Hok) as (w' & Hrun & Hdb).
    exists w'. split; [exact Hrun |]. unfold connected. rewrite Hdb.
    apply ingested_connected.
  - unfold ingest_positions. fold (position_url session_key).
    rewrite (proj2 (Z.eqb_neq _ _) Hfail). eexists. split; reflexivity.
Qed.

Lemma ingest_drivers_total (session_key : value) (w : world S) :
  exists w' n,
    ingest_drivers session_key w = (w', Ok n) /\ (connected w' <-> connected w).
Proof.
  destruct (Z.eqb_spec (status (http_get (drivers_url session_key))) 200)
    as [Hok | Hfail].
  - destruct (ingest_drivers_spec session_key w Hok) as (w1 & lg & Hdb1 & Hrun).
    do 2 eexists. split; [exact Hrun |]. unfold connected. simpl db.
    unfold written.
    pose proof (bulk_insert_connected "drivers"
                  (driver_dumps (json (http_get (drivers_url session_key)))) None w1)
      as Hkeep.
    destruct (bulk_insert "drivers" _ None w1) as [w2 [n | e]];
      simpl in Hkeep |- *; unfold connected in Hkeep; now rewrite Hkeep, Hdb1.
  - unfold ingest_drivers. fold (drivers_url session_key).
    rewrite (proj2 (Z.eqb_neq _ _) Hfail). do 2 eexists. split; reflexivity.
Qed.

Definition no_get_collection_stats : exn :=
  py_exn "AttributeError" "'F1Database' object has no attribute 'get_collection_stats'".

Lemma ingest_session_data_raises (session_key : value) (w : world S) :
  exists w',
    ingest_session_data session_key w = (w', Raise no_get_collection_stats)
    /\ (connected w' <-> connected w).
Proof.
  unfold ingest_session_data.
  match goal with
  | |- context [ingest_drivers session_key ?w0] =>
      destruct (ingest_drivers_total session_key w0) as (w1 & nd & -> & H1)
  end.
  match goal with
  | |- context [ingest_laps session_key ?w0] =>
      destruct (ingest_laps_total session_key w0) as (w2 & -> & H2)
  end.
  match goal with
  | |- context [ingest_positions session_key ?w0] =>
      destruct (ingest_positions_total session_key w0) as (w3 & -> & H3)
  end.
  eexists. split; [reflexivity |].
  unfold connected, logger in *. simpl db in *. tauto.
Qed.

Lemma fetch_latest_session_db (w : world S) :
  db (fst (fetch_latest_session w)) = db w.
Proof.
  unfold fetch_latest_session.
  destruct (status _ =? 200); [|reflexivity].
  destruct (json _) as [|first rest]; [reflexivity |].
  match goal with
  | |- context [match ?r with Ok _ => _ | Raise _ => _ end] => destruct r as [[[a b] c] | e]
  end; reflexivity.
Qed.

Lemma run_test_ingestion_try_raises (w : world S) :
  exists w' e,
    run_test_ingestion_try w = (w', Raise e) /\ (connected w' <-> connected w).
Proof.
  unfold run_test_ingestion_try.
  pose proof (fetch_latest_session_db w) as Hdb0.
  destruct (fetch_latest_session w) as [w0 [latest | e]]; simpl in Hdb0.
  - destruct (getitem latest "session_key") as [session_key | e].
    + destruct (Session_model latest) as [session_doc | e].
      * pose proof (bulk_insert_connected "sessions" [session_doc]
                      (Some "session_key") w0) as H1.
        destruct (bulk_insert_returns "sessions" [session_doc] (Some "session_key") w0)
          as (w1 & n & Hrun).
        rewrite Hrun in *. simpl in H1.
        destruct (ingest_session_data_raises session_key w1) as (w2 & -> & H2).
        do 2 eexists. split; [reflexivity |].
        unfold connected in *. rewrite H2, H1, Hdb0. reflexivity.
      * do 2 eexists. split; [reflexivity |]. unfold connected. now rewrite Hdb0.
    + do 2 eexists. split; [reflexivity |]. unfold connected. now rewrite Hdb0.
  - do 2 eexists. split; [reflexivity |]. unfold connected. now rewrite Hdb0.
Qed.

(** X9. The session ingestion always ends in an [AttributeError]:
    after the drivers, the laps and the positions, none of which raises,
    it awaits [get_collection_stats], a method that [F1Database] does not
    have. So the [try] block of [run_test_ingestion] never completes, and
    [main] ends every run with the line "Test failed: ..." at level ERROR
    and exit status 1. *)
Theorem run_never_completes (w : world S) :
  (forall session_key,
     snd (ingest_session_data session_key w) = Raise no_get_collection_stats)
  /\ (exists e, snd (run_test_ingestion_try w) = Raise e)
  /\ (exists e, snd (run_test_ingestion w) = Raise e)
  /\ (exists e,
        snd (main w) = 1
        /\ last (log (fst (main w))) = Some (ERROR, "Test failed: " ++ exn_msg e)).
Proof.
  split; [|split; [|split]].
  - intros session_key.
    destruct (ingest_session_data_raises session_key w) as (w' & -> & _). reflexivity.
  - destruct (run_test_ingestion_try_raises w) as (w' & e & -> & _). eauto.
  - unfold run_test_ingestion.
    match goal with
    | |- context [run_test_ingestion_try ?w0] =>
        destruct (run_test_ingestion_try_raises w0) as (w' & e & -> & _)
    end.
    eauto.
  - unfold main, run_test_ingestion.
    match goal with
    | |- context [run_test_ingestion_try ?w0] =>
        destruct (run_test_ingestion_try_raises w0) as (w' & e & -> & _)
    end.
    exists e. split; [reflexivity |]. simpl. apply last_snoc.
Qed.

End handle.

Section counts_and_stores.
Context {S1 S2 : Type} `{Storage S1} `{Storage S2} `{Collaborators}.

(** X10. What the laps, intervals, positions and telemetry ingesters
    return does not depend on the store: on any two stores, in any two
    states of the run (connected or not, writes failing or not), each
    returns the same count, which is computed from the fetched records
    alone. *)
Theorem counts_ignore_the_store (session_key : value) (w1 : world S1) (w2 : world S2) :
  snd (ingest_laps session_key w1) = snd (ingest_laps session_key w2)
  /\ snd (ingest_intervals session_key w1) = snd (ingest_intervals session_key w2)
  /\ snd (ingest_positions session_key w1) = snd (ingest_positions session_key w2)
  /\ (forall data,
        snd (_process_car_data_batch data w1) = snd (_process_car_data_batch data w2))
  /\ snd (ingest_car_data session_key w1) = snd (ingest_car_data session_key w2).
Proof.
  split; [|split; [|split; [|split]]].
  - destruct (ingest_laps_total session_key w1) as (w1' & -> & _).
    destruct (ingest_laps_total session_key w2) as (w2' & -> & _). reflexivity.
  - destruct (ingest_intervals_total session_key w1) as (w1' & -> & _).
    destruct (ingest_intervals_total session_key w2) as (w2' & -> & _). reflexivity.
  - destruct (ingest_positions_total session_key w1) as (w1' & -> & _).
    destruct (ingest_positions_total session_key w2) as (w2' & -> & _). reflexivity.
  - intros data.
    destruct (process_car_data_batch_spec data w1) as (w1' & -> & _).
    destruct (process_car_data_batch_spec data w2) as (w2' & -> & _). reflexivity.
  - unfold ingest_car_data, _ingest_car_data_by_drivers.
    destruct (status _ =? 200); [|reflexivity]. cbn [negb].
    destruct (json _) as [|d0 ds]; [reflexivity |].
    match goal with
    | |- context [@car_drivers_loop S1 _ _ ?sk ?n 1 ?l 0 ?w0] =>
        destruct (@car_drivers_loop_spec S1 _ _ sk n l 1 0 w0) as (w1' & ->)
    end.
    match goal with
    | |- context [@car_drivers_loop S2 _ _ ?sk ?n 1 ?l 0 ?w0] =>
        destruct (@car_drivers_loop_spec S2 _ _ sk n l 1 0 w0) as (w2' & ->)
    end.
    reflexivity.
Qed.

End counts_and_stores.

(** ** Entering and leaving the ingestion context *)

Section context.
Context {S : Type} `{Storage S} `{Server S} `{Collaborators}.

Definition disconnected_line : log_entry := (INFO, "Disconnected from MongoDB").

Definition ingestion_failed_line (e : exn) : log_entry :=
  (ERROR, "Test ingestion failed: " ++ exn_msg e).

(** After [__aenter__] on a new [F1Database]: the client is kept when it
    could be created, and there is a handle on the database exactly when
    the client gave one. *)
Lemma aenter_handle (new_client : result (MotorClient S)) (database_name : string)
    (lg : list log_entry) :
  let entered := __aenter__ new_client database_name None (mk_world None lg) in
  match new_client with
  | Ok c =>
      fst entered = Some c
      /\ (connected (snd entered) <-> is_ok (client_database c database_name) = true)
  | Raise _ => fst entered = None /\ db (snd entered) = None
  end.
Proof.
  unfold __aenter__, connect, ensure_indexes. destruct new_client as [c | e].
  - destruct (client_database c database_name) as [s | e]; simpl is_ok.
    + destruct (client_ping c) as [u | e]; (split; [reflexivity |]);
        (split; [reflexivity |]); intros _;
        match goal with
        | |- connected (snd (_, ensure_indexes_loop _ ?w0)) =>
            destruct (ensure_indexes_loop_spec collections_indexes w0)
              as (lines & _ & _ & _ & Hsome)
        end; apply Hsome; simpl; eauto.
    + split; [reflexivity |]. split; [|discriminate].
      match goal with
      | |- connected (snd (_, ensure_indexes_loop _ ?w0)) -> _ =>
          destruct (ensure_indexes_loop_spec collections_indexes w0)
            as (lines & _ & _ & Hnone & _);
          change (is_Some (db (ensure_indexes_loop collections_indexes w0))
                  -> false = true)
      end.
      destruct (Hnone eq_refl) as [Hdb _]. rewrite Hdb. now intros [x Hx].
  - split; [reflexivity |].
    match goal with
    | |- db (snd (_, ensure_indexes_loop _ ?w0)) = None =>
        destruct (ensure_indexes_loop_spec collections_indexes w0)
          as (lines & _ & _ & Hnone & _)
    end.
    now apply Hnone.
Qed.

(** X11. [run_test_ingestion] leaves the ingestion context on every
    path, and raises the exception of its [try] block again. When the
    client object could be created, the last line of the log is
    "Disconnected from MongoDB", whether or not the client gave a handle
    on the database, and whether or not the ping, the creation of the
    indexes or the ingestion failed; the run ends with a handle exactly
    when the client gave one. When the client could not be created,
    there is no handle at any time, no disconnection is logged, and the
    last line is the failure of the ingestion. *)
Theorem context_left_on_every_path (new_client : result (MotorClient S))
    (database_name : string) (lg : list log_entry) :
  exists w' e,
    run_test_ingestion_in_context new_client database_name lg = (w', Raise e)
    /\ match new_client with
       | Ok c =>
           last (log w') = Some disconnected_line
           /\ (connected w' <-> is_ok (client_database c database_name) = true)
       | Raise _ =>
           db w' = None /\ last (log w') = Some (ingestion_failed_line e)
       end.
Proof.
  unfold run_test_ingestion_in_context.
  pose proof (aenter_handle new_client database_name
                (lg ++ [(INFO, "Starting test data ingestion...")])) as Henter.
  cbv zeta in Henter. unfold logger at 1. simpl db. simpl log.
  destruct (__aenter__ new_client database_name None
              (mk_world None (lg ++ [(INFO, "Starting test data ingestion...")])))
    as [client w0].
  simpl fst in Henter. simpl snd in Henter.
  destruct (run_test_ingestion_try_raises w0) as (w1 & e & -> & Hkeep).
  do 2 eexists. split; [reflexivity |].
  unfold __aexit__, disconnect.
  destruct new_client as [c | e0].
  - destruct Henter as [-> Hhandle]. split; [apply last_snoc |].
    unfold connected, logger in *. simpl db. now rewrite Hkeep.
  - destruct Henter as [-> Hdb]. unfold logger. simpl db. simpl log.
    split; [|apply last_snoc].
    destruct (db w1) as [s1|] eqn:Hdb1; [|reflexivity].
    exfalso. assert (Hc : connected w1) by (unfold connected; rewrite Hdb1; eauto).
    apply Hkeep in Hc. unfold connected in Hc. rewrite Hdb in Hc. now destruct Hc.
Qed.

End context.

(** ** The collections that a run writes to *)

Definition call_name (c : call) : string :=
  match c with
  | InsertMany name _ | BulkWrite name _ => name
  end.

Definition calls_to (name : string) (cs : list call) : Prop :=
  Forall (fun c => call_name c = name) cs.

Lemma calls_to_flushed (name : string) (pending : list document) :
  calls_to name (flushed name pending).
Proof. destruct pending; [apply Forall_nil_2 | apply Forall_singleton; reflexivity]. Qed.

Lemma calls_to_chunks (name : string) (chunks : list (list document)) :
  calls_to name (map (InsertMany name) chunks).
Proof. apply Forall_map, Forall_forall. reflexivity. Qed.

Section written_collections.
Context {S : Type} `{Storage S} `{Collaborators}.

Lemma bulk_insert_calls (name : string) (documents : list document)
    (key : option string) (s : S) (tr : list call) (lg : list log_entry) :
  exists s' new lg' n,
    bulk_insert name documents key (mk_world (Some (s, tr)) lg)
    = (mk_world (Some (s', (tr ++ new)%list)) lg', Ok n)
    /\ calls_to name new /\ (length new <= 1)%nat.
Proof.
  assert (Hnone : forall lg' n,
            exists s' new lg0 n0,
              (mk_world (Some (s, tr)) lg', @Ok Z n)
              = (mk_world (Some (s', (tr ++ new)%list)) lg0, Ok n0)
              /\ calls_to name new /\ (length new <= 1)%nat).
  { intros lg' n. exists s, [], lg', n. rewrite app_nil_r.
    split; [reflexivity |]. split; [apply Forall_nil_2 | simpl; lia]. }
  assert (Hone : forall (s' : S) (c : call) (lg' : list log_entry) (n : Z),
            call_name c = name ->
            exists s0 new lg0 n0,
              (mk_world (Some (s', (tr ++ [c])%list)) lg', @Ok Z n)
              = (mk_world (Some (s0, (tr ++ new)%list)) lg0, Ok n0)
              /\ calls_to name new /\ (length new <= 1)%nat).
  { intros s' c lg' n Hc. exists s', [c], lg', n.
    split; [reflexivity |]. split; [now apply Forall_singleton | simpl; lia]. }
  destruct documents as [|d documents]; [apply Hnone |].
  unfold bulk_insert, bulk_insert_try. simpl db.
  destruct (upsert_mode key) as [k|].
  - destruct (build_operations k (d :: documents)) as [operations | e]; [|apply Hnone].
    cbn [bulk_write traced_storage fst snd].
    destruct (bulk_write name operations s) as [s' [res | e]]; now apply Hone.
  - cbn [insert_many traced_storage fst snd].
    destruct (insert_many name (d :: documents) s) as [s' [res | e]]; [now apply Hone |].
    unfold on_bulk_error.
    destruct (str_contains "duplicate key error" (exn_msg e)); [|now apply Hone].
    destruct (exn_details e); try (now apply Hone);
      match goal with
      | |- context [if ?c then _ else _] => destruct c; now apply Hone
      end.
Qed.

Lemma ingested_calls name field model (times : nat) (data : list item)
    (s : S) (tr : list call) :
  (times = 1 \/ times = 2)%nat ->
  exists s' new,
    ingested name field model times data (Some (s, tr)) = Some (s', (tr ++ new)%list)
    /\ calls_to name new.
Proof.
  intros [-> | ->].
  - destruct (ingested_once name field model data s tr) as (s' & Hrun).
    do 2 eexists. split; [exact Hrun |].
    apply Forall_app. split; [apply calls_to_chunks | apply calls_to_flushed].
  - destruct (ingested_twice name field model data s tr) as (s' & Hrun).
    do 2 eexists. split; [exact Hrun |].
    apply Forall_app. split; [apply calls_to_chunks |].
    apply Forall_app. split; apply calls_to_flushed.
Qed.

Lemma ingest_laps_calls (session_key : value) (s : S) (tr : list call)
    (lg : list log_entry) :
  exists s' new lg' n,
    ingest_laps session_key (mk_world (Some (s, tr)) lg)
    = (mk_world (Some (s', (tr ++ new)%list)) lg', Ok n)
    /\ calls_to "laps" new.
Proof.
  destruct (Z.eqb_spec (status (http_get (laps_url session_key))) 200) as [Hok | Hfail].
  - destruct (ingest_laps_spec session_key (mk_world (Some (s, tr)) lg) Hok)
      as ([st' lg'] & Hrun & Hdb).
    destruct (ingested_calls "laps" "date_start" Lap_model 2
                (json (http_get (laps_url session_key))) s tr) as (s' & new & Hcalls & Hto);
      [now right |].
    cbn [db] in Hdb. rewrite Hcalls in Hdb. subst st'.
    exists s', new, lg'. eexists. split; [exact Hrun | exact Hto].
  - unfold ingest_laps. fold (laps_url session_key).
    rewrite (proj2 (Z.eqb_neq _ _) Hfail).
    exists s, []. do 2 eexists. rewrite app_nil_r.
    split; [reflexivity | apply Forall_nil_2].
Qed.

Lemma ingest_positions_calls (session_key : value) (s : S) (tr : list call)
    (lg : list log_entry) :
  exists s' new lg' n,
    ingest_positions session_key (mk_world (Some (s, tr)) lg)
    = (mk_world (Some (s', (tr ++ new)%list)) lg', Ok n)
    /\ calls_to "positions" new.
Proof.
  destruct (Z.eqb_spec (status (http_get (position_url session_key))) 200)
    as [Hok | Hfail].
  - destruct (ingest_positions_spec session_key (mk_world (Some (s, tr)) lg) Hok)
      as ([st' lg'] & Hrun & Hdb).
    destruct (ingested_calls "positions" "date" Position_model 1
                (json (http_get (position_url session_key))) s tr)
      as (s' & new & Hcalls & Hto); [now left |].
    cbn [db] in Hdb. rewrite Hcalls in Hdb. subst st'.
    exists s', new, lg'. eexists. split; [exact Hrun | exact Hto].
  - unfold ingest_positions. fold (position_url session_key).
    rewrite (proj2 (Z.eqb_neq _ _) Hfail).
    exists s, []. do 2 eexists. rewrite app_nil_r.
    split; [reflexivity | apply Forall_nil_2].
Qed.

Lemma ingest_drivers_calls (session_key : value) (s : S) (tr : list call)
    (lg : list log_entry) :
  exists s' new lg' n,
    ingest_drivers session_key (mk_world (Some (s, tr)) lg)
    = (mk_world (Some (s', (tr ++ new)%list)) lg', Ok n)
    /\ calls_to "drivers" new /\ (length new <= 1)%nat.
Proof.
  unfold ingest_drivers.
  destruct (status _ =? 200).
  - match goal with
    | |- context [drivers_loop ?data [] ?w0] =>
        destruct (drivers_loop_spec data [] w0) as (lg0 & ->)
    end.
    unfold logger. simpl db. simpl log.
    match goal with
    | |- context [bulk_insert "drivers" ?docs None (mk_world _ ?lg1)] =>
        destruct (bulk_insert_calls "drivers" docs None s tr lg1)
          as (s' & new & lg' & n & -> & Hto & Hlen)
    end.
    do 4 eexists. split; [reflexivity |]. split; assumption.
  - exists s, []. do 2 eexists. rewrite app_nil_r.
    split; [reflexivity |]. split; [apply Forall_nil_2 | simpl; lia].
Qed.

(** X12. Whatever the upstream API answers, a run writes to the
    collections sessions, drivers, laps and positions only, and in this
    order: at most one call for the session, at most one for the
    drivers, then the batches of laps, then the batches of positions. No
    call goes to intervals or car_data. *)
Theorem run_writes_four_collections (s : S) (tr : list call) (lg : list log_entry) :
  let w := mk_world (Some (s, tr)) lg in
  exists to_sessions to_drivers to_laps to_positions,
    calls (fst (run_test_ingestion_try w))
    = (tr ++ to_sessions ++ to_drivers ++ to_laps ++ to_positions)%list
    /\ calls_to "sessions" to_sessions /\ (length to_sessions <= 1)%nat
    /\ calls_to "drivers" to_drivers /\ (length to_drivers <= 1)%nat
    /\ calls_to "laps" to_laps
    /\ calls_to "positions" to_positions.
Proof.
  intros w.
  assert (Hnothing : forall lg' : list log_entry,
            exists a b c d : list call,
              calls (mk_world (Some (s, tr)) lg') = (tr ++ a ++ b ++ c ++ d)%list
              /\ calls_to "sessions" a /\ (length a <= 1)%nat
              /\ calls_to "drivers" b /\ (length b <= 1)%nat
              /\ calls_to "laps" c /\ calls_to "positions" d).
  { intros lg'. exists [], [], [], []. simpl. rewrite app_nil_r.
    repeat split; try apply Forall_nil_2; simpl; lia. }
  unfold run_test_ingestion_try.
  assert (Hfetch : exists lg0 r, fetch_latest_session w = (mk_world (Some (s, tr)) lg0, r)).
  { pose proof (fetch_latest_session_db w) as Hdb.
    destruct (fetch_latest_session w) as [[st lg0] r]. simpl in Hdb. subst st. eauto. }
  destruct Hfetch as (lg0 & r & ->).
  destruct r as [latest | e]; [|apply Hnothing].
  destruct (getitem latest "session_key") as [session_key | e]; [|apply Hnothing].
  destruct (Session_model latest) as [session_doc | e]; [|apply Hnothing].
  destruct (bulk_insert_calls "sessions" [session_doc] (Some "session_key") s tr lg0)
    as (s1 & to_sessions & lg1 & n1 & -> & Hs & Hs1).
  unfold ingest_session_data, logger. simpl db. simpl log.
  match goal with
  | |- context [ingest_drivers session_key (mk_world _ ?l)] =>
      destruct (ingest_drivers_calls session_key s1 (tr ++ to_sessions)%list l)
        as (s2 & to_drivers & lg2 & n2 & -> & Hd & Hd1)
  end.
  simpl db. simpl log.
  match goal with
  | |- context [ingest_laps session_key (mk_world _ ?l)] =>
      destruct (ingest_laps_calls session_key s2
                  ((tr ++ to_sessions) ++ to_drivers)%list l)
        as (s3 & to_laps & lg3 & n3 & -> & Hl)
  end.
  simpl db. simpl log.
  match goal with
  | |- context [ingest_positions session_key (mk_world _ ?l)] =>
      destruct (ingest_positions_calls session_key s3
                  (((tr ++ to_sessions) ++ to_drivers) ++ to_laps)%list l)
        as (s4 & to_positions & lg4 & n4 & -> & Hp)
  end.
  exists to_sessions, to_drivers, to_laps, to_positions.
  split; [|repeat split; assumption].
  unfold calls. simpl. now rewrite <- !app_assoc.
Qed.

End written_collections.

(** ** Session discovery: ties and missing dates *)

Lemma string_ltb_leb_trans (a b c : string) :
  String.ltb a b = true -> String.leb b c = true -> String.ltb a c = true.
Proof.
  unfold String.ltb, String.leb. intros Hab Hbc.
  destruct (String.compare a b) eqn:Eab; try discriminate.
  destruct (String.compare b c) eqn:Ebc; try discriminate.
  - apply String.compare_eq_iff in Ebc as <-. now rewrite Eab.
  - now rewrite (string_compare_lt_trans a b c Eab Ebc).
Qed.

Lemma string_leb_ltb_trans (a b c : string) :
  String.leb a b = true -> String.ltb b c = true -> String.ltb a c = true.
Proof.
  unfold String.ltb, String.leb. intros Hab Hbc.
  destruct (String.compare b c) eqn:Ebc; try discriminate.
  destruct (String.compare a b) eqn:Eab; try discriminate.
  - apply String.compare_eq_iff in Eab as ->. now rewrite Ebc.
  - now rewrite (string_compare_lt_trans a b c Eab Ebc).
Qed.

(** [s] starts before [latest]. *)
Definition strictly_before (s latest : item) : Prop :=
  exists x y, date_start_of s = Some x /\ date_start_of latest = Some y
              /\ String.ltb x y = true.

(** [latest] is the element at position [i], and every element before
    that position starts before it. *)
Definition first_latest (sessions : list item) (i : nat) (latest : item) : Prop :=
  sessions !! i = Some latest
  /\ forall j s, (j < i)%nat -> sessions !! j = Some s -> strictly_before s latest.

(** The session has a string as [date_start], or no such field. *)
Definition dated_or_undated (s : item) : Prop :=
  is_Some (date_start_of s) \/ s !! "date_start" = None.

Definition no_date_start : exn := py_exn "KeyError" "'date_start'".

Section discovery_ties.
Context {S : Type} `{Storage S} `{Collaborators}.

Lemma max_by_date_start_first (rest : list item) :
  forall (best : item) (x : string),
    date_start_of best = Some x ->
    Forall candidate rest ->
    exists latest i,
      max_by_date_start best (VStr x) rest = Ok latest
      /\ first_latest (best :: rest) i latest.
Proof.
  induction rest as [|s rest IH]; intros best x Hbest Hrest.
  - exists best, 0%nat. split; [reflexivity |]. split; [reflexivity |]. intros j s Hj. lia.
  - pose proof (max_by_date_start_spec (s :: rest) best x Hbest Hrest)
      as (latest0 & Hrun0 & _ & Hbest0 & Hall0).
    apply Forall_cons in Hrest as [Hs Hrest].
    destruct Hs as ([y Hy] & _ & _).
    simpl in Hrun0 |- *. rewrite (date_start_getitem s y Hy) in Hrun0 |- *.
    simpl in Hrun0 |- *.
    destruct (String.ltb x y) eqn:Hlt.
    + destruct (IH s y Hy Hrest) as (latest & i & Hrun & Hi & Hbefore).
      rewrite Hrun in Hrun0. injection Hrun0 as <-.
      exists latest, (Datatypes.S i). split; [exact Hrun |]. split; [exact Hi |].
      intros j s' Hj Hs'. destruct j as [|j].
      * simpl in Hs'. injection Hs' as <-.
        apply Forall_cons in Hall0 as [(y' & z & Hy' & Hz & Hyz) _].
        rewrite Hy in Hy'. injection Hy' as <-.
        exists x, z. split; [exact Hbest |]. split; [exact Hz |].
        now apply (string_ltb_leb_trans x y z).
      * apply (Hbefore j s'); [lia | exact Hs'].
    + destruct (IH best x Hbest Hrest) as (latest & i & Hrun & Hi & Hbefore).
      rewrite Hrun in Hrun0. injection Hrun0 as <-.
      destruct i as [|i].
      * exists latest, 0%nat. split; [exact Hrun |]. split; [exact Hi |].
        intros j s' Hj. lia.
      * exists latest, (Datatypes.S (Datatypes.S i)).
        split; [exact Hrun |]. split; [exact Hi |].
        intros j s' Hj Hs'. destruct j as [|[|j]].
        -- apply (Hbefore 0%nat s'); [lia | exact Hs'].
        -- simpl in Hs'. injection Hs' as <-.
           destruct (Hbefore 0%nat best ltac:(lia) eq_refl)
             as (x' & z & Hx' & Hz & Hxz).
           rewrite Hbest in Hx'. injection Hx' as <-.
           exists y, z. split; [exact Hy |]. split; [exact Hz |].
           apply (string_leb_ltb_trans y x z); [now apply string_not_ltb_leb | exact Hxz].
        -- apply (Hbefore (Datatypes.S j) s'); [lia | exact Hs'].
Qed.

Lemma max_by_date_start_undated (rest : list item) :
  forall (best : item) (x : string),
    Forall dated_or_undated rest ->
    Exists (fun s : item => s !! "date_start" = None) rest ->
    max_by_date_start best (VStr x) rest = Raise no_date_start.
Proof.
  induction rest as [|s rest IH]; intros best x Hall Hex; [inversion Hex |].
  apply Forall_cons in Hall as [Hs Hall].
  simpl. unfold getitem.
  destruct (s !! "date_start") as [v|] eqn:Hv; [|reflexivity].
  apply Exists_cons in Hex as [Hex | Hex]; [congruence |].
  destruct Hs as [[y Hy] | Hnone]; [|congruence].
  unfold date_start_of in Hy. rewrite Hv in Hy.
  destruct v; try discriminate. injection Hy as ->.
  simpl. destruct (String.ltb x y); now apply IH.
Qed.

(** X13. Session discovery takes the first of the sessions that share
    the greatest [date_start]: the selected session is an element of the
    fetched list, every session before it in the list starts strictly
    earlier, and none starts later. When a fetched session has no
    [date_start], and the others have strings, discovery raises
    [KeyError] for that field, and logs nothing. *)
Theorem first_of_the_latest_selected (w : world S) :
  let response := http_get sessions_url in
  status response = 200 ->
  (json response <> [] -> Forall candidate (json response) ->
   exists latest i,
     snd (fetch_latest_session w) = Ok latest
     /\ first_latest (json response) i latest
     /\ Forall (fun s => not_after s latest) (json response))
  /\
  (Forall dated_or_undated (json response) ->
   Exists (fun s : item => s !! "date_start" = None) (json response) ->
   fetch_latest_session w = (w, Raise no_date_start)).
Proof.
  intros response Hstatus. split.
  - intros Hne Hall.
    destruct (json response) as [|first rest] eqn:Hjson; [congruence |].
    pose proof Hall as Hall'.
    apply Forall_cons in Hall' as [Hfirst Hrest].
    destruct Hfirst as ([x Hx] & _ & _).
    destruct (max_by_date_start_first rest first x Hx Hrest)
      as (latest & i & Hmax & Hi).
    destruct (max_by_date_start_spec rest first x Hx Hrest)
      as (latest' & Hmax' & Hin & Hle & Hothers).
    rewrite Hmax in Hmax'. injection Hmax' as <-.
    rewrite Forall_forall in Hall.
    destruct (Hall latest Hin) as (_ & [name Hname] & [location Hloc]).
    exists latest, i. split; [|split; [exact Hi | now constructor]].
    unfold fetch_latest_session. fold sessions_url. fold response.
    rewrite Hstatus, Hjson. simpl.
    rewrite (date_start_getitem first x Hx). simpl. rewrite Hmax. simpl.
    unfold getitem. rewrite Hname, Hloc. reflexivity.
  - intros Hall Hex.
    unfold fetch_latest_session. fold sessions_url. fold response.
    rewrite Hstatus. cbn [Z.eqb Pos.eqb].
    destruct (json response) as [|first rest] eqn:Hjson; [inversion Hex |].
    apply Forall_cons in Hall as [Hfirst Hall].
    unfold getitem at 1.
    destruct (first !! "date_start") as [v|] eqn:Hv; [|reflexivity].
    apply Exists_cons in Hex as [Hex | Hex]; [congruence |].
    destruct Hfirst as [[x Hx] | Hnone]; [|congruence].
    unfold date_start_of in Hx. rewrite Hv in Hx.
    destruct v; try discriminate. injection Hx as ->.
    simpl. now rewrite (max_by_date_start_undated rest first x Hall Hex).
Qed.

End discovery_ties.

(** ** models.py and the timestamp coercion: stored values *)

(** X14. What validation of a gap field stores is [None], a float, or a
    string that does not parse as a float; and it is a fixed point of the
    validation: a stored value that is validated again, for either
    field, is stored unchanged. *)
Theorem gap_value_revalidates (field field' : string) (v r : value) :
  validate_gap_field field v = Ok r ->
  (r = VNone
   \/ (exists f, r = VFloat f)
   \/ (exists s, r = VStr s /\ float_of_string s = None))
  /\ validate_gap_field field' r = Ok r.
Proof.
  unfold validate_gap_field.
  destruct v as [| b | z | f | s | d | l | d]; simpl.
  - intros [= <-]. split; [now left | reflexivity].
  - intros [= <-]. split; [right; left; eauto | reflexivity].
  - unfold float_of_int. destruct (Z.abs z <? float_overflow_bound); simpl; [|discriminate].
    intros [= <-]. split; [right; left; eauto | reflexivity].
  - intros [= <-]. split; [right; left; eauto | reflexivity].
  - destruct (float_of_string s) as [f|] eqn:Hs; simpl.
    + intros [= <-]. split; [right; left; eauto | reflexivity].
    + intros [= <-]. split; [right; right; eauto |]. simpl. now rewrite Hs.
  - discriminate.
  - discriminate.
  - discriminate.
Qed.

Lemma str_replace_char_app (old : ascii) (new a b : string) :
  str_replace_char old new (a ++ b)
  = str_replace_char old new a ++ str_replace_char old new b.
Proof.
  induction a as [|c a IH]; [reflexivity |].
  simpl. destruct (Ascii.eqb c old).
  - rewrite IH. clear IH.
    generalize (str_replace_char old new a), (str_replace_char old new b).
    intros x y. induction new as [|n new IHn]; [reflexivity |].
    change (String n (new ++ x ++ y) = String n ((new ++ x) ++ y)).
    f_equal. exact IHn.
  - simpl. now rewrite IH.
Qed.

Section coercion.
Context `{Collaborators}.

(** X15. The timestamp coercion reads a trailing [Z] as the offset
    [+00:00]: an item whose timestamp ends in [Z] and the same item with
    [+00:00] in its place are coerced to the same item. A successful
    coercion changes no other field, leaves no string in the timestamp
    field, and leaves an item that a second coercion does not change. *)
Theorem coerce_date_reads_z_as_utc (field : string) (it : item) :
  (forall s,
     coerce_date field (<[field := VStr (s ++ "Z")]> it)
     = coerce_date field (<[field := VStr (s ++ "+00:00")]> it))
  /\ (forall it',
        coerce_date field it = Ok it' ->
        (forall k, k <> field -> it' !! k = it !! k)
        /\ (forall s, it' !! field <> Some (VStr s))
        /\ coerce_date field it' = Ok it').
Proof.
  split.
  - intros s. unfold coerce_date. rewrite !lookup_insert_eq.
    rewrite !str_replace_char_app.
    change (str_replace_char "Z" "+00:00" "Z") with "+00:00".
    change (str_replace_char "Z" "+00:00" "+00:00") with "+00:00".
    destruct (fromisoformat _) as [d | e]; [|reflexivity].
    simpl. now rewrite !insert_insert_eq.
  - intros it' Hrun. split; [|split; [|now apply (coerce_date_idem field it it')]].
    + intros k Hk. unfold coerce_date in Hrun.
      destruct (it !! field) as [v|]; [|now injection Hrun as <-].
      destruct v; try (now injection Hrun as <-).
      destruct (fromisoformat _) as [d | e]; [|discriminate].
      simpl in Hrun. injection Hrun as <-. now rewrite lookup_insert_ne by congruence.
    + intros s Hs. unfold coerce_date in Hrun.
      destruct (it !! field) as [v|] eqn:Hv; [|injection Hrun as <-; congruence].
      destruct v; try (injection Hrun as <-; congruence).
      destruct (fromisoformat _) as [d | e]; [|discriminate].
      simpl in Hrun. injection Hrun as <-. rewrite lookup_insert_eq in Hs. discriminate.
Qed.

End coercion.

(** ** The warnings of the other ingesters *)

(** The lines at level WARNING. *)
Definition warnings (lg : list log_entry) : list log_entry :=
  List.filter (fun l => level_eqb (fst l) WARNING) lg.

Lemma warnings_app (a b : list log_entry) :
  warnings (a ++ b) = (warnings a ++ warnings b)%list.
Proof. apply List.filter_app. Qed.

Lemma warnings_none (lines : list log_entry) :
  Forall (fun l : log_entry => fst l <> WARNING) lines -> warnings lines = [].
Proof.
  induction 1 as [|l lines Hl _ IH]; [reflexivity |].
  unfold warnings in *. simpl. rewrite IH.
  destruct l as [[] msg]; simpl in *; congruence.
Qed.

Section position_warnings.
Context {S : Type} `{Storage S} `{Collaborators}.

(** The batch writer logs no warning. *)
Lemma bulk_insert_warnings (name : string) (documents : list document)
    (key : option string) (w : world S) :
  warnings (log (fst (bulk_insert name documents key w))) = warnings (log w).
Proof.
  destruct documents as [|d documents]; [reflexivity |].
  destruct (bulk_insert_try_lines name (d :: documents) key w)
    as (w' & before & Hdebug & _ & [(n & Htry & Hlog) | (e & Htry & Hlog)]).
  - rewrite (bulk_insert_passes name (d :: documents) key w w' n) by (discriminate || exact Htry).
    simpl. rewrite Hlog, !warnings_app.
    rewrite (warnings_none before), app_nil_r; [reflexivity |].
    eapply Forall_impl; [exact Hdebug |]. intros l ->. discriminate.
  - rewrite (bulk_insert_caught name (d :: documents) key w w' e)
      by (discriminate || exact Htry).
    simpl. rewrite Hlog, !warnings_app.
    rewrite (warnings_none before); [now rewrite !app_nil_r |].
    eapply Forall_impl; [exact Hdebug |]. intros l ->. discriminate.
Qed.

Definition position_warning (e : exn) : log_entry :=
  (WARNING, "Error processing position data: " ++ exn_msg e).

Definition is_position_warning (l : log_entry) : Prop :=
  exists e, l = position_warning e.

Lemma positions_body_warnings (it : item) (positions : list document) (w : world S) :
  exists new,
    warnings (log (fst (positions_body it positions w)))
    = (warnings (log w) ++ new)%list
    /\ Forall is_position_warning new
    /\ length new = if passes "date" Position_model it then 0%nat else 1%nat.
Proof.
  unfold positions_body, passes, validated.
  destruct (coerce_date "date" it) as [it' | e]; simpl.
  - destruct (Position_model it') as [doc | e]; simpl.
    + exists []. rewrite app_nil_r. split; [|split; [constructor | reflexivity]].
      destruct (config.BATCH_SIZE <=? len (positions ++ [doc])); [|reflexivity].
      pose proof (bulk_insert_warnings "positions" (positions ++ [doc]) None w) as Hw.
      destruct (bulk_insert_returns "positions" (positions ++ [doc]) None w)
        as (w' & n & Hrun).
      rewrite Hrun in *. simpl in Hw |- *. rewrite warnings_app, Hw.
      simpl. now rewrite app_nil_r.
    + exists [position_warning e]. rewrite warnings_app.
      split; [reflexivity |]. split; [|reflexivity].
      apply Forall_singleton. now exists e.
  - exists [position_warning e]. rewrite warnings_app.
    split; [reflexivity |]. split; [|reflexivity].
    apply Forall_singleton. now exists e.
Qed.

Lemma positions_loop_warnings (data : list item) :
  forall (positions : list document) (w : world S),
  exists new,
    warnings (log (fst (positions_loop data positions w)))
    = (warnings (log w) ++ new)%list
    /\ Forall is_position_warning new
    /\ length new
       = length (List.filter (fun it => negb (passes "date" Position_model it)) data).
Proof.
  induction data as [|it data IH]; intros positions w.
  - exists []. simpl. rewrite app_nil_r. repeat split. constructor.
  - simpl.
    destruct (positions_body_warnings it positions w) as (new1 & Hw1 & Hall1 & Hlen1).
    destruct (positions_body it positions w) as [w1 p1]. simpl in Hw1.
    destruct (IH p1 w1) as (new2 & Hw2 & Hall2 & Hlen2).
    exists (new1 ++ new2)%list. split; [|split].
    + rewrite Hw2, Hw1. now rewrite <- app_assoc.
    + now apply Forall_app.
    + rewrite length_app, Hlen1, Hlen2.
      now destruct (passes "date" Position_model it).
Qed.

(** X17. The positions ingester does not limit its warnings: on a 200
    response it logs one warning "Error processing position data: ..."
    for each fetched record that fails validation, however many there
    are, and no other warning; and it still returns the number of fetched
    records. *)
Theorem position_failures_all_logged (session_key : value) (w : world S) :
  let response := http_get (position_url session_key) in
  status response = 200 ->
  exists new,
    warnings (log (fst (ingest_positions session_key w)))
    = (warnings (log w) ++ new)%list
    /\ Forall is_position_warning new
    /\ length new
       = length (List.filter (fun it => negb (passes "date" Position_model it))
                   (json response))
    /\ snd (ingest_positions session_key w) = Ok (len (json response)).
Proof.
  intros response Hstatus.
  destruct (positions_loop_warnings (json response) [] w) as (new & Hw & Hall & Hlen).
  exists new.
  unfold ingest_positions. fold (position_url session_key). fold response.
  rewrite Hstatus. cbn [Z.eqb Pos.eqb].
  destruct (positions_loop (json response) [] w) as [w1 pending]. simpl in Hw.
  pose proof (bulk_insert_warnings "positions" pending None w1) as Hflush.
  unfold flush_remaining. destruct pending as [|d pending].
  - simpl. rewrite warnings_app, Hw. simpl. rewrite app_nil_r. auto.
  - destruct (bulk_insert_returns "positions" (d :: pending) None w1) as (w2 & n & Hrun).
    rewrite Hrun in *. simpl in Hflush |- *.
    rewrite warnings_app, Hflush, Hw. simpl. rewrite app_nil_r. auto.
Qed.

End position_warnings.

Section telemetry_warnings.
Context {S : Type} `{Storage S} `{Collaborators}.

Definition car_data_verbose_line (it : item) (e : exn) : log_entry :=
  (WARNING, "Error processing car data for driver "
              ++ py_str (get_or_unknown it "driver_number") ++ ": "
              ++ str_take 100 (exn_msg e) ++ "...").

Definition is_car_data_verbose (l : log_entry) : Prop :=
  exists it e, l = car_data_verbose_line it e.

Lemma car_data_loop_app (a b : list item) :
  forall (records : list document) (n : Z) (w : world S),
  car_data_loop (a ++ b) records n w
  = let '(w1, records1, n1) := car_data_loop a records n w in
    car_data_loop b records1 n1 w1.
Proof.
  induction a as [|it a IH]; intros records n w; [reflexivity |].
  simpl. destruct (car_data_body it records n w) as [[w1 r1] n1]. apply IH.
Qed.

(** A record that passes is counted, and no warning is logged. *)
Lemma car_data_body_passing (it : item) (records : list document) (n : Z)
    (w : world S) :
  passes "date" CarData_model it = true ->
  exists w1 records1,
    car_data_body it records n w = (w1, records1, n + 1)
    /\ warnings (log w1) = warnings (log w).
Proof.
  unfold passes, validated, car_data_body.
  destruct (coerce_date "date" it) as [it' | e]; simpl; [|discriminate].
  destruct (CarData_model it') as [doc | e]; simpl; [|discriminate].
  intros _. destruct (config.BATCH_SIZE <=? len (records ++ [doc])); [|eauto].
  pose proof (bulk_insert_warnings "car_data" (records ++ [doc]) None w) as Hw.
  destruct (bulk_insert_returns "car_data" (records ++ [doc]) None w) as (w' & m & Hrun).
  rewrite Hrun in *. simpl in Hw. eauto.
Qed.

(** A record that fails is not counted; what is logged depends on the
    number of records that have passed. *)
Lemma car_data_body_failing (it : item) (records : list document) (n : Z)
    (w : world S) :
  passes "date" CarData_model it = false ->
  exists it' e,
    car_data_body it records n w = (on_car_data_error it' e n w, records, n).
Proof.
  unfold passes, validated, car_data_body.
  destruct (coerce_date "date" it) as [it' | e]; simpl.
  - destruct (CarData_model it') as [doc | e]; simpl; [discriminate | eauto].
  - eauto.
Qed.

Lemma car_data_loop_passing (data : list item) :
  forall (records : list document) (n : Z) (w : world S),
  Forall (fun it => passes "date" CarData_model it = true) data ->
  exists w1 records1,
    car_data_loop data records n w = (w1, records1, n + len data)
    /\ warnings (log w1) = warnings (log w).
Proof.
  induction data as [|it data IH]; intros records n w Hall.
  - exists w, records. simpl. now rewrite Z.add_0_r.
  - apply Forall_cons in Hall as [Hit Hall].
    destruct (car_data_body_passing it records n w Hit) as (w1 & r1 & Hbody & Hw1).
    destruct (IH r1 (n + 1) w1 Hall) as (w2 & r2 & Hloop & Hw2).
    exists w2, r2. simpl. rewrite Hbody, Hloop. split; [|congruence].
    f_equal. unfold len. simpl length. lia.
Qed.

(** Once four records have passed, no failure is logged. *)
Lemma car_data_loop_quiet (data : list item) :
  forall (records : list document) (n : Z) (w : world S),
  4 <= n ->
  warnings (log (fst (fst (car_data_loop data records n w)))) = warnings (log w).
Proof.
  induction data as [|it data IH]; intros records n w Hn; [reflexivity |].
  simpl. destruct (passes "date" CarData_model it) eqn:Hit.
  - destruct (car_data_body_passing it records n w Hit) as (w1 & r1 & -> & Hw1).
    rewrite IH by lia. exact Hw1.
  - destruct (car_data_body_failing it records n w Hit) as (it' & e & ->).
    rewrite IH by lia. unfold on_car_data_error.
    rewrite (proj2 (Z.ltb_ge n 3)) by lia.
    now rewrite (proj2 (Z.eqb_neq n 3)) by lia.
Qed.

Lemma car_data_loop_all_fail (data : list item) :
  forall (records : list document) (w : world S),
  Forall (fun it => passes "date" CarData_model it = false) data ->
  exists lines,
    car_data_loop data records 0 w = (mk_world (db w) (log w ++ lines), records, 0)
    /\ length lines = length data
    /\ Forall is_car_data_verbose lines.
Proof.
  induction data as [|it data IH]; intros records w Hall.
  - exists []. simpl. rewrite app_nil_r. destruct w; auto.
  - apply Forall_cons in Hall as [Hit Hall].
    destruct (car_data_body_failing it records 0 w Hit) as (it' & e & Hbody).
    destruct (IH records (on_car_data_error it' e 0 w) Hall)
      as (lines & Hloop & Hlen & Hverbose).
    exists (car_data_verbose_line it' e :: lines). split; [|split].
    + simpl. rewrite Hbody, Hloop. unfold on_car_data_error, logger. simpl.
      now rewrite <- app_assoc.
    + simpl. now rewrite Hlen.
    + constructor; [now exists it', e | exact Hverbose].
Qed.

(** X18. The telemetry batch processor keys its warnings on the number
    of records that have passed, not on the number of failures. When
    every record of a batch fails validation, each failure is logged in
    full, however many there are, and the call returns 0. When the first
    four records pass, no warning is logged at all, however many of the
    later records fail. *)
Theorem telemetry_warnings_follow_successes (w : world S) :
  (forall data,
     Forall (fun it => passes "date" CarData_model it = false) data ->
     exists lines,
       _process_car_data_batch data w = (mk_world (db w) (log w ++ lines), Ok 0)
       /\ length lines = length data
       /\ Forall is_car_data_verbose lines)
  /\
  (forall first rest,
     Forall (fun it => passes "date" CarData_model it = true) first ->
     4 <= len first ->
     warnings (log (fst (_process_car_data_batch (first ++ rest) w)))
     = warnings (log w)).
Proof.
  split.
  - intros data Hall.
    destruct (car_data_loop_all_fail data [] w Hall) as (lines & Hloop & Hlen & Hverbose).
    exists lines. unfold _process_car_data_batch. rewrite Hloop. simpl. auto.
  - intros first rest Hall Hfour.
    unfold _process_car_data_batch. rewrite car_data_loop_app.
    destruct (car_data_loop_passing first [] 0 w Hall) as (w1 & r1 & -> & Hw1).
    pose proof (car_data_loop_quiet rest r1 (0 + len first) w1 ltac:(lia)) as Hquiet.
    destruct (car_data_loop rest r1 (0 + len first) w1) as [[w2 r2] n2].
    simpl in Hquiet.
    pose proof (bulk_insert_warnings "car_data" r2 None w2) as Hflush.
    unfold flush_remaining. destruct r2 as [|d r2].
    + simpl. congruence.
    + destruct (bulk_insert_returns "car_data" (d :: r2) None w2) as (w3 & m & Hrun).
      rewrite Hrun in *. simpl in Hflush |- *. congruence.
Qed.

End telemetry_warnings.

(* ===================================================================== *)
(** * More sample runs                                                    *)
(* ===================================================================== *)

Module SamplePositions.

(** A position record with its timestamp in the [Z] notation. *)
Definition position : item :=
  {[ "session_key" := VInt 9662; "driver_number" := VInt 44;
     "date" := VStr "2024-12-08T13:03:29.344000Z"; "position" := VInt 3 ]}.

(** Two positions and a record that is none. *)
Definition api : string -> response :=
  Sample.upstream
    [ (Sample.base ++ "/position?session_key=9662",
       [position; Sample.broken_lap; position]) ].

End SamplePositions.

(** Three fetched positions of which two are valid: the two documents
    reach the store once. *)
Lemma valid_documents_written_once_witness :
  let C := collaborators SamplePositions.api in
  let docs := dumps "date" Position_model
                (json (http_get (position_url Sample.session_key))) in
  exists new,
    calls (fst (ingest_positions Sample.session_key Sample.start)) = ([] ++ new)%list
    /\ written_docs new = docs
    /\ batch_sizes new
       = (replicate (full_chunks (len docs)) 5000 ++ tail_sizes 1 (len docs))%list.
Proof.
  intros C.
  exact (proj1 (@valid_documents_written_once _ _ C Sample.session_key
                  (fst Sample.empty_store) [] []) eq_refl).
Defined.

Example sample_positions_batches :
  let C := collaborators SamplePositions.api in
  batch_sizes (calls (fst (ingest_positions Sample.session_key Sample.start))) = [2].
Proof. vm_compute. reflexivity. Qed.

(** Three fetched laps of which two are valid: the two documents reach
    the store, and then once more. *)
Lemma remainder_repeated_for_any_count_witness :
  let C := collaborators Sample.api in
  let docs := dumps "date_start" Lap_model
                (json (http_get (laps_url Sample.session_key))) in
  exists new,
    calls (fst (ingest_laps Sample.session_key Sample.start)) = ([] ++ new)%list
    /\ written_docs new
       = (docs ++ drop (Z.to_nat (len docs - remainder (len docs))) docs)%list
    /\ batch_sizes new
       = (replicate (full_chunks (len docs)) 5000 ++ tail_sizes 2 (len docs))%list.
Proof.
  intros C.
  exact (proj1 (@remainder_repeated_for_any_count _ _ C Sample.session_key
                  (fst Sample.empty_store) [] []) eq_refl).
Defined.

Example sample_laps_batches :
  let C := collaborators Sample.api in
  batch_sizes (calls (fst (ingest_laps Sample.session_key Sample.start))) = [2; 2].
Proof. vm_compute. reflexivity. Qed.

(** One driver, insert mode: one [insert_many] with the batch. *)
Lemma one_call_per_batch_witness :
  let doc : document := {[ "driver_number" := VInt 44 ]} in
  calls (fst (bulk_insert "drivers" [doc] None Sample.start))
  = ([] ++ [InsertMany "drivers" [doc]])%list.
Proof.
  intros doc.
  exact (proj1 (one_call_per_batch "drivers" [doc] None (fst Sample.empty_store) [] []
                  ltac:(discriminate)) eq_refl).
Defined.

(** A batch that holds one lap twice and one that is stored already, for
    a collection with a unique index on [_id]: one document is added. *)
Lemma insert_count_is_growth_witness :
  let lap (n : Z) : document := {[ "_id" := VInt n ]} in
  let dbs : Mongo.database :=
    {[ "laps" := Mongo.mk_collection [lap 1; lap 2] (Some "_id") ]} in
  exists w' dbs' added,
    bulk_insert "laps" [lap 2; lap 3; lap 3] None (mk_world (Some dbs) [])
    = (w', Ok (len added))
    /\ db w' = Some dbs'
    /\ Mongo.get_collection "laps" dbs'
       = Mongo.mk_collection ([lap 1; lap 2] ++ added) (Some "_id")
    /\ sublist added [lap 2; lap 3; lap 3].
Proof.
  intros lap dbs.
  destruct (InsertFacts.insert_count_is_growth "laps" [lap 2; lap 3; lap 3] None dbs []
              ltac:(discriminate) eq_refl)
    as (w' & dbs' & added & Hrun & Hdb & Hc & Hsub & _).
  exists w', dbs', added. repeat split; assumption.
Defined.

Example sample_duplicates_in_batch :
  let lap (n : Z) : document := {[ "_id" := VInt n ]} in
  let dbs : Mongo.database :=
    {[ "laps" := Mongo.mk_collection [lap 1; lap 2] (Some "_id") ]} in
  snd (bulk_insert "laps" [lap 2; lap 3; lap 3] None (mk_world (Some dbs) [])) = Ok 1.
Proof. vm_compute. reflexivity. Qed.

(** A stored session is written again with another name: the document is
    updated in place and keeps its year. *)
Lemma upsert_session_merges_witness :
  let stored : document :=
    {[ "session_key" := VInt 9662; "session_name" := VStr "Race"; "year" := VInt 2024 ]} in
  let record : document :=
    {[ "session_key" := VInt 9662; "session_name" := VStr "Grand Prix" ]} in
  let dbs : Mongo.database :=
    {[ "sessions" := Mongo.mk_collection [stored] (Some "session_key") ]} in
  exists dbs' n,
    bulk_insert "sessions" [record] (Some "session_key") (mk_world (Some dbs) [])
    = (mk_world (Some dbs') ([] ++ [MongoFacts.inserted_line "sessions" n]), Ok n)
    /\ forall other, other <> "sessions" -> dbs' !! other = dbs !! other.
Proof.
  intros stored record dbs.
  destruct (SessionMerge.upsert_session_merges dbs [] record 9662 eq_refl
              ltac:(apply (bool_decide_unpack _); vm_compute; exact I) eq_refl)
    as (dbs' & n & Hrun & Hothers & _).
  exists dbs', n. split; assumption.
Defined.

Example sample_session_renamed :
  let stored : document :=
    {[ "session_key" := VInt 9662; "session_name" := VStr "Race"; "year" := VInt 2024 ]} in
  let record : document :=
    {[ "session_key" := VInt 9662; "session_name" := VStr "Grand Prix" ]} in
  let dbs : Mongo.database :=
    {[ "sessions" := Mongo.mk_collection [stored] (Some "session_key") ]} in
  match db (fst (bulk_insert "sessions" [record] (Some "session_key")
                   (mk_world (Some dbs) []))) with
  | Some dbs' =>
      Mongo.docs (Mongo.get_collection "sessions" dbs')
      = [ {[ "session_key" := VInt 9662; "session_name" := VStr "Grand Prix";
             "year" := VInt 2024 ]} ]
  | None => False
  end.
Proof. vm_compute. reflexivity. Qed.

(** Without a database handle: six warnings, and no handle. *)
Lemma indexes_attempted_for_all_witness :
  exists lines,
    log (@ensure_indexes unit unreachable_server (mk_world None [])) = ([] ++ lines)%list
    /\ db (@ensure_indexes unit unreachable_server (mk_world None [])) = None
    /\ Forall (fun l : log_entry => fst l = WARNING) lines.
Proof.
  destruct (@indexes_attempted_for_all unit unreachable_server (mk_world None []))
    as (lines & Hlog & _ & Hnone & _).
  exists lines. destruct (Hnone eq_refl) as [Hdb Hwarn].
  split; [exact Hlog |]. split; assumption.
Defined.

(** An empty database: the context is entered and the sessions have
    their unique index. *)
Lemma context_declares_session_key_unique_witness :
  exists dbs',
    db (snd (__aenter__ (Ok (mongo_client ∅)) "openf1" None (mk_world None [])))
    = Some dbs'
    /\ Mongo.unique_key (Mongo.get_collection "sessions" dbs') = Some "session_key".
Proof.
  destruct (IndexFacts.context_declares_session_key_unique ∅ "openf1" []
              ltac:(apply (bool_decide_unpack _); vm_compute; exact I))
    as (dbs' & Hrun & Hkey & _).
  exists dbs'. split; [now rewrite Hrun | exact Hkey].
Defined.

(** A client that refuses the name of the database: there is no handle
    during the run, the session is fetched all the same, and the run ends
    with the disconnection. *)
Definition refusing_client : MotorClient Mongo.database :=
  mk_MotorClient
    (fun _ => Raise (py_exn "InvalidName" "database names cannot contain the character '.'"))
    (Ok tt).

Lemma context_left_on_every_path_witness :
  let C := collaborators Sample.api in
  exists w' e,
    @run_test_ingestion_in_context Mongo.database _ _ C (Ok refusing_client) "open.f1" []
    = (w', Raise e)
    /\ last (log w') = Some disconnected_line
    /\ ~ connected w'.
Proof.
  intros C.
  destruct (@context_left_on_every_path Mongo.database _ _ C (Ok refusing_client)
              "open.f1" [])
    as (w' & e & Hrun & Hlast & Hhandle).
  exists w', e. split; [exact Hrun |]. split; [exact Hlast |].
  intros Hc. apply Hhandle in Hc. discriminate Hc.
Defined.

(** The levels of the lines of that run: the start, the failure of the
    connection, six warnings for the indexes, the session that was
    found, the writer's error for the session, the drivers with the
    writer's error, the laps with one warning for the lap that is none
    and the writer's error for each of the two flushes, the positions
    that could not be fetched, the six lines of the summary, the failure
    for the missing method, and the disconnection. *)
Example sample_run_without_handle :
  let C := collaborators Sample.api in
  map fst (log (fst (@run_test_ingestion_in_context Mongo.database _ _ C
                       (Ok refusing_client) "open.f1" [])))
  = [INFO; ERROR; WARNING; WARNING; WARNING; WARNING; WARNING; WARNING;
     INFO; ERROR; INFO; INFO; INFO; ERROR; INFO; INFO; WARNING; ERROR; ERROR;
     INFO; INFO; ERROR; INFO; INFO; INFO; INFO; INFO; INFO; ERROR; INFO].
Proof. vm_compute. reflexivity. Qed.

(** The three sample races: the race of 8 December is the second of the
    list, and the first starts before it. *)
Lemma first_of_the_latest_selected_witness :
  let C := collaborators Sample.api in
  exists latest i,
    snd (fetch_latest_session Sample.start) = Ok latest
    /\ first_latest Sample.races i latest
    /\ Forall (fun s => not_after s latest) Sample.races.
Proof.
  intros C.
  exact (proj1 (@first_of_the_latest_selected _ C Sample.start eq_refl)
           ltac:(discriminate) sample_races_are_candidates).
Defined.

(** A gap that is no number is stored as it is, and stays so. *)
Lemma gap_value_revalidates_witness :
  validate_gap_field "interval" (VStr "+1 LAP") = Ok (VStr "+1 LAP").
Proof.
  exact (proj2 (gap_value_revalidates "gap_to_leader" "interval"
                  (VStr "+1 LAP") (VStr "+1 LAP") eq_refl)).
Defined.

(** The timestamp of a sample position is coerced, and the coerced item
    is stable. *)
Lemma coerce_date_reads_z_as_utc_witness :
  let C := collaborators Sample.api in
  exists it',
    coerce_date "date" SamplePositions.position = Ok it'
    /\ coerce_date "date" it' = Ok it'.
Proof.
  intros C.
  pose proof (proj2 (@coerce_date_reads_z_as_utc C "date" SamplePositions.position))
    as Hthm.
  destruct (coerce_date "date" SamplePositions.position) as [it' | e] eqn:Hrun.
  - exists it'. split; [reflexivity |]. apply (Hthm it' eq_refl).
  - vm_compute in Hrun. discriminate Hrun.
Defined.

(** Of the three sample positions one is none: one warning. *)
Lemma position_failures_all_logged_witness :
  let C := collaborators SamplePositions.api in
  exists new,
    warnings (log (fst (ingest_positions Sample.session_key Sample.start)))
    = (warnings (log Sample.start) ++ new)%list
    /\ Forall is_position_warning new
    /\ length new
       = length (List.filter (fun it => negb (passes "date" Position_model it))
                   (json (http_get (position_url Sample.session_key))))
    /\ snd (ingest_positions Sample.session_key Sample.start)
       = Ok (len (json (http_get (position_url Sample.session_key)))).
Proof.
  intros C.
  exact (@position_failures_all_logged _ _ C Sample.session_key Sample.start eq_refl).
Defined.

Example sample_position_warnings :
  let C := collaborators SamplePositions.api in
  length (warnings (log (fst (ingest_positions Sample.session_key Sample.start))))
  = 1%nat.
Proof. vm_compute. reflexivity. Qed.

Example sample_telemetry_failures :
  let C := collaborators Sample.api in
  Forall (fun it => passes "date" CarData_model it = false)
    (replicate 5 Sample.broken_lap)
  /\ Forall (fun it => passes "date" CarData_model it = true)
       (replicate 4 (Sample.telemetry 87)).
Proof.
  intros C. split; apply Forall_replicate; vm_compute; reflexivity.
Qed.

(** Five records that are no telemetry: five warnings in full. Four
    valid records and then the five: no warning. *)
Lemma telemetry_warnings_follow_successes_witness :
  let C := collaborators Sample.api in
  (exists lines,
     _process_car_data_batch (replicate 5 Sample.broken_lap) Sample.start
     = (mk_world (db Sample.start) (log Sample.start ++ lines), Ok 0)
     /\ length lines = 5%nat
     /\ Forall is_car_data_verbose lines)
  /\ warnings (log (fst (_process_car_data_batch
                           (replicate 4 (Sample.telemetry 87)
                              ++ replicate 5 Sample.broken_lap) Sample.start)))
     = warnings (log Sample.start).
Proof.
  intros C.
  pose proof (@telemetry_warnings_follow_successes _ _ C Sample.start) as [Hfail Hpass].
  split.
  - exact (Hfail (replicate 5 Sample.broken_lap) (proj1 sample_telemetry_failures)).
  - exact (Hpass (replicate 4 (Sample.telemetry 87)) (replicate 5 Sample.broken_lap)
             (proj2 sample_telemetry_failures) ltac:(vm_compute; discriminate)).
Defined.
